(** * Billing calculator of the usage dashboard (src/server/billing-calculator.ts)

    Shallow embedding of the period derivation ([getPeriods]), the delta
    engine ([computePeriodDelta]) and the two queries built on them
    ([getPeriodSummary], [getUserDetail]).

    Modelling choices:
    - a JavaScript number is a rational together with NaN and the two
      infinities ([jsnum]); [round_double] rounds a rational to the nearest
      binary64 value (ties to even, [Infinity] from 2^1024 on), and the sum
      [users.reduce((s, u) => s + u.cost, 0)] and the division of the shares
      round with it ([dbl_add], [dbl_div]);
    - the difference [endCost - startCost] of two record fields is taken
      exactly: binary64 subtraction rounds it only when the operands differ
      by many orders of magnitude, by less than 2^-53 of the result;
    - a value [+x.toFixed(6)] is kept as the decimal [toFixed] prints
      ([toFixed6]); where the code adds or divides it, it is the double that
      decimal reads back as ([cost_value]); the sort and [u.cost > 0]
      compare the decimals, which compare as their doubles do below 2^33,
      where doubles lie less than 10^-6 apart, and a positive decimal reads
      back as a positive double;
    - a JavaScript [Map] keyed by user id is an association list kept in
      insertion order (the iteration order of [Map] and [Set]);
    - [Array.prototype.sort] with a consistent comparator is stable
      (ECMAScript 2019), so it is modelled by a stable insertion sort;
    - the snapshot store ([db]) and the usage source ([apiClient]) are
      read through a small state/error monad over a [World]; each store
      query either answers or throws, and a query that throws throws each
      time it runs during a request;
    - a snapshot's [raw_json] (a TEXT column) is represented by what the two
      [JSON.parse] calls make of it ([JsonText]): a value, a JSON string (the
      double encoding) whose content is a value, or a [SyntaxError] of the
      first or of the second parse; a value is an array of user records,
      [null], or a value [for ... of] rejects with a [TypeError] (a number,
      a boolean, an object). Texts whose value after the unwrap is a string,
      and arrays holding anything but user records, are not represented. *)

From Stdlib Require Import ZArith QArith Qround Qpower Lqa List String Bool Sorted Permutation Lia.
From Stdlib Require Import DecimalString.
Import ListNotations.

(* ------------------------------------------------------------------ *)
(** ** JavaScript numbers *)

Inductive jsnum : Type :=
| JNum (q : Q)
| JNaN
| JInf (positive_inf : bool).

(** [a - b] on JavaScript numbers, the difference of finite values exact. *)
Definition js_sub (a b : jsnum) : jsnum :=
  match a, b with
  | JNum x, JNum y => JNum (x - y)
  | JNaN, _ | _, JNaN => JNaN
  | JInf p, JInf q => if Bool.eqb p q then JNaN else JInf p
  | JInf p, JNum _ => JInf p
  | JNum _, JInf q => JInf (negb q)
  end.

(** [Number(x ?? 0)]: a missing ([undefined] or [null]) field reads as 0. *)
Definition number_or_zero (f : option jsnum) : jsnum :=
  match f with
  | Some v => v
  | None => JNum 0
  end.

(** [if (!Number.isFinite(d) || d < 0) d = 0]. *)
Definition clamp_delta (d : jsnum) : Q :=
  match d with
  | JNum q => if Qle_bool 0 q then q else 0
  | _ => 0
  end.

(** [+x.toFixed(6)] on a non-negative [x]: below [10^21] the closest
    multiple of [10^-6], the larger one on a tie; from [10^21] on,
    [toFixed] prints [x] itself and [+] reads it back. *)
Definition toFixed6_abs (q : Q) : Q :=
  if Qle_bool (inject_Z (10 ^ 21)) q then q
  else Qmake (Qfloor (q * inject_Z 1000000 + (1 # 2))) 1000000.

Definition toFixed6 (q : Q) : Q :=
  if Qle_bool 0 q then toFixed6_abs q else - toFixed6_abs (- q).

(** [+x.toFixed(6)] on any number: [toFixed] prints [NaN], [Infinity] and
    [-Infinity] as such, and [+] reads them back. *)
Definition toFixed6_num (v : jsnum) : jsnum :=
  match v with
  | JNum q => JNum (toFixed6 q)
  | _ => v
  end.

(** [v > 0] *)
Definition js_pos (v : jsnum) : bool :=
  match v with
  | JNum q => negb (Qle_bool q 0)
  | JInf b => b
  | JNaN => false
  end.

(** *** Binary64 rounding *)

Definition pow2 (k : Z) : Q := Qpower 2 k.

(** The exponent [e] with [2^e <= x < 2^(e+1)], for [x > 0]. *)
Definition exponent_of (x : Q) : Z :=
  let e := (Z.log2 (Qnum x) - Z.log2 (Zpos (Qden x)))%Z in
  if Qle_bool (pow2 e) x then e else (e - 1)%Z.

(** The integer nearest to [r], the even one on a tie. *)
Definition round_half_even (r : Q) : Z :=
  let f := Qfloor r in
  match Qcompare (r - inject_Z f) (1 # 2) with
  | Lt => f
  | Gt => (f + 1)%Z
  | Eq => if Z.even f then f else (f + 1)%Z
  end.

(** The spacing of the doubles around [x > 0] is [2^(quantum_of x)]: 53
    significant bits, and the subnormal spacing [2^-1074] at the bottom. *)
Definition quantum_of (x : Q) : Z := Z.max (exponent_of x - 52) (-1074).

Definition round_pos_value (x : Q) : Q :=
  inject_Z (round_half_even (x / pow2 (quantum_of x))) * pow2 (quantum_of x).

Definition round_pos (x : Q) : jsnum :=
  let y := round_pos_value x in
  if Qle_bool (pow2 1024) y then JInf true else JNum y.

(** The double nearest to [x] (round to nearest, ties to even), with
    overflow to an infinity. *)
Definition round_double (x : Q) : jsnum :=
  match Qcompare x 0 with
  | Eq => JNum 0
  | Gt => round_pos x
  | Lt => match round_pos (- x) with
          | JNum y => JNum (- y)
          | JInf _ => JInf false
          | JNaN => JNaN
          end
  end.

(** [a + b] on JavaScript numbers. *)
Definition dbl_add (a b : jsnum) : jsnum :=
  match a, b with
  | JNum x, JNum y => round_double (x + y)
  | JNaN, _ | _, JNaN => JNaN
  | JInf p, JInf q => if Bool.eqb p q then JInf p else JNaN
  | JInf p, JNum _ => JInf p
  | JNum _, JInf q => JInf q
  end.

(** [a / b] on JavaScript numbers ([+0] and [-0] are not told apart). *)
Definition dbl_div (a b : jsnum) : jsnum :=
  match a, b with
  | JNum x, JNum y =>
      if Qeq_bool y 0 then
        (if Qeq_bool x 0 then JNaN else JInf (Qle_bool 0 x))
      else round_double (x / y)
  | JNaN, _ | _, JNaN => JNaN
  | JInf _, JInf _ => JNaN
  | JInf p, JNum y => JInf (if Qle_bool 0 y then p else negb p)
  | JNum _, JInf _ => JNum 0
  end.

(** The unit roundoff [2^-53] and the absolute error bound [2^-1075] of
    the subnormal range. *)
Definition ulp53 : Q := pow2 (-53).
Definition eta : Q := pow2 (-1075).

Definition is_double (a : Q) : Prop :=
  exists m k, (0 <= m < 2 ^ 53)%Z /\ (-1074 <= k)%Z /\ a == inject_Z m * pow2 k.

Fixpoint qpow (x : Q) (n : nat) : Q :=
  match n with
  | O => 1
  | S n' => x * qpow x n'
  end.

Fixpoint sum_Q (l : list Q) : Q :=
  match l with
  | [] => 0
  | x :: l' => x + sum_Q l'
  end.

(* ------------------------------------------------------------------ *)
(** ** Data model *)

(** [UserData]: the fields of [usage.total] the calculator reads; [None]
    stands for a missing field (or a missing [usage] / [total]), the empty
    name for a missing or empty [name]. *)
Record UserData := mkUserData {
  u_id : string;
  u_name : string;
  u_cost : option jsnum;
  u_tokens : option jsnum;
  u_requests : option jsnum
}.

(** [r_cost] is the decimal [+delta.toFixed(6)] reads back (see
    [cost_value] for the double itself). *)
Record UserRanking := mkUserRanking {
  r_id : string;
  r_name : string;
  r_cost : Q;
  r_share : jsnum;
  r_isMe : bool;
  r_rawStart : option UserData;
  r_rawEnd : option UserData;
  r_periodTokens : Q;
  r_periodRequests : Q
}.

(** [u.cost] as the number the code adds and divides. *)
Definition cost_value (u : UserRanking) : jsnum := round_double (r_cost u).

(** A JSON value as [JSON.parse] returns it, as far as
    [for (const u of data ?? [])] is concerned: an array of user records,
    [null], or a value the loop rejects with a [TypeError]. *)
Inductive JsonValue : Type :=
| JVArray (items : list UserData)
| JVNull
| JVNotIterable (typeError : string).

(** A [raw_json] text, by what the two parses make of it: [JTValue v] does
    not start with a quote and parses to [v]; [JTQuoted v] is a JSON string
    (the double encoding) whose content parses to [v]; [JTQuotedInvalid] is
    a JSON string whose content does not parse; [JTInvalid] is no JSON
    text at all. *)
Inductive JsonText : Type :=
| JTValue (v : JsonValue)
| JTQuoted (v : JsonValue)
| JTQuotedInvalid (syntaxError : string)
| JTInvalid (syntaxError : string).

Record BillingSnapshot := mkBillingSnapshot {
  s_id : Z;
  s_created_at : string;
  s_timezone : string;
  s_raw_json : JsonText
}.

Record PeriodInfo := mkPeriodInfo {
  p_index : Z;
  p_startSnapshotId : option Z;
  p_startAt : option string;
  p_endAt : option string;
  p_isCurrent : bool
}.

Record PeriodSummary := mkPeriodSummary {
  ps_period : PeriodInfo;
  ps_totalCost : jsnum;
  ps_userCount : nat;
  ps_ranking : list UserRanking
}.

Record UserDetail := mkUserDetail {
  d_id : string;
  d_name : string;
  d_startCost : jsnum;
  d_endCost : jsnum;
  d_deltaCost : Q;
  d_rawStart : option UserData;
  d_rawEnd : option UserData
}.

(* ------------------------------------------------------------------ *)
(** ** [Map] and [Set] in insertion order *)

Definition JSMap := list (string * UserData).

(** [m.set(k, v)]: an existing key keeps its position. *)
Fixpoint map_set (m : JSMap) (k : string) (v : UserData) : JSMap :=
  match m with
  | [] => [(k, v)]
  | (k', v') :: m' =>
      if String.eqb k' k then (k', v) :: m' else (k', v') :: map_set m' k v
  end.

Fixpoint map_get (m : JSMap) (k : string) : option UserData :=
  match m with
  | [] => None
  | (k', v') :: m' => if String.eqb k' k then Some v' else map_get m' k
  end.

Definition map_keys (m : JSMap) : list string := map fst m.

Definition mapFromDataArray (data : list UserData) : JSMap :=
  fold_left (fun m u => map_set m (u_id u) u) data [].

(** [new Set(xs)]: first occurrences, in order. *)
Definition set_add (s : list string) (x : string) : list string :=
  if existsb (String.eqb x) s then s else s ++ [x].

Definition set_of_list (xs : list string) : list string :=
  fold_left set_add xs [].

(* ------------------------------------------------------------------ *)
(** ** [computePeriodDelta] *)

Definition field_of (u : option UserData) (f : UserData -> option jsnum) : option jsnum :=
  match u with
  | Some u' => f u'
  | None => None
  end.

(** [meId === id] *)
Definition is_me (meId : option string) (id : string) : bool :=
  match meId with
  | Some m => String.eqb m id
  | None => false
  end.

(** [endU.name || 'User'] *)
Definition name_or_default (n : string) : string :=
  if String.eqb n "" then "User" else n.

(** One iteration of the loop over [ids] ([None] is the [continue]). *)
Definition rank_user (start end_ : JSMap) (meId : option string) (id : string)
  : option UserRanking :=
  match map_get end_ id with
  | None => None
  | Some endU =>
      let startU := map_get start id in
      let startCost := number_or_zero (field_of startU u_cost) in
      let endCost := number_or_zero (u_cost endU) in
      let startTokens := number_or_zero (field_of startU u_tokens) in
      let endTokens := number_or_zero (u_tokens endU) in
      let startRequests := number_or_zero (field_of startU u_requests) in
      let endRequests := number_or_zero (u_requests endU) in
      let delta := clamp_delta (js_sub endCost startCost) in
      let deltaTokens := clamp_delta (js_sub endTokens startTokens) in
      let deltaRequests := clamp_delta (js_sub endRequests startRequests) in
      Some {| r_id := if is_me meId id then id else "";
              r_name := name_or_default (u_name endU);
              r_cost := toFixed6 delta;
              r_share := JNum 0;
              r_isMe := is_me meId id;
              r_rawStart := map_get start id;
              r_rawEnd := Some endU;
              r_periodTokens := deltaTokens;
              r_periodRequests := deltaRequests |}
  end.

Fixpoint collect_users (start end_ : JSMap) (meId : option string) (ids : list string)
  : list UserRanking :=
  match ids with
  | [] => []
  | id :: ids' =>
      match rank_user start end_ meId id with
      | Some u => u :: collect_users start end_ meId ids'
      | None => collect_users start end_ meId ids'
      end
  end.


(** [users.reduce((s, u) => s + u.cost, 0)] *)
Definition sum_costs (users : list UserRanking) : jsnum :=
  fold_left (fun s u => dbl_add s (cost_value u)) users (JNum 0).

Definition with_share (u : UserRanking) (share : jsnum) : UserRanking :=
  {| r_id := r_id u; r_name := r_name u; r_cost := r_cost u; r_share := share;
     r_isMe := r_isMe u; r_rawStart := r_rawStart u; r_rawEnd := r_rawEnd u;
     r_periodTokens := r_periodTokens u; r_periodRequests := r_periodRequests u |}.

(** [u.share = totalCost > 0 ? u.cost / totalCost : 0] *)
Definition set_share (totalCost : jsnum) (u : UserRanking) : UserRanking :=
  with_share u (if js_pos totalCost then dbl_div (cost_value u) totalCost else JNum 0).

(** [users.sort((a, b) => b.cost - a.cost)]: stable, so [x] goes after
    every earlier element whose cost is not below its own. *)
Fixpoint insert_by_cost (x : UserRanking) (l : list UserRanking) : list UserRanking :=
  match l with
  | [] => [x]
  | y :: l' =>
      if negb (Qle_bool (r_cost x) (r_cost y)) then x :: l
      else y :: insert_by_cost x l'
  end.

Definition sort_by_cost_desc (l : list UserRanking) : list UserRanking :=
  fold_left (fun acc x => insert_by_cost x acc) l [].

Record DeltaResult := mkDeltaResult {
  dr_users : list UserRanking;
  dr_totalCost : jsnum;
  dr_me : option UserRanking
}.

Definition computePeriodDelta (startData endData : list UserData) (meId : option string)
  : DeltaResult :=
  let start := mapFromDataArray startData in
  let end_ := mapFromDataArray endData in
  let ids := set_of_list (map_keys start ++ map_keys end_) in
  let users0 := collect_users start end_ meId ids in
  let totalCost := sum_costs users0 in
  let users := sort_by_cost_desc (map (set_share totalCost) users0) in
  let me := match meId with
            | Some m => if String.eqb m "" then None
                        else find (fun u => String.eqb (r_id u) m) users
            | None => None
            end in
  {| dr_users := users; dr_totalCost := toFixed6_num totalCost; dr_me := me |}.


(* ------------------------------------------------------------------ *)
(** ** [getPeriods] *)

(** The loop body for [i] in [1 .. snapshots.length - 1]. *)
Definition between_period (snapshots : list BillingSnapshot) (i : nat) : option PeriodInfo :=
  match nth_error snapshots (i - 1), nth_error snapshots i with
  | Some startSnapshot, Some endSnapshot =>
      Some {| p_index := Z.of_nat i;
              p_startSnapshotId := Some (s_id startSnapshot);
              p_startAt := Some (s_created_at startSnapshot);
              p_endAt := Some (s_created_at endSnapshot);
              p_isCurrent := false |}
  | _, _ => None
  end.

Definition opt_to_list {A} (o : option A) : list A :=
  match o with Some a => [a] | None => [] end.

Definition periodsOf (snapshots : list BillingSnapshot) : list PeriodInfo :=
  match snapshots with
  | [] =>
      [ {| p_index := 0; p_startSnapshotId := None; p_startAt := None;
           p_endAt := None; p_isCurrent := true |} ]
  | firstSnapshot :: _ =>
      let lastSnapshot := List.last snapshots firstSnapshot in
      {| p_index := Z.of_nat (List.length snapshots);
         p_startSnapshotId := Some (s_id lastSnapshot);
         p_startAt := Some (s_created_at lastSnapshot);
         p_endAt := None; p_isCurrent := true |}
      :: {| p_index := 0; p_startSnapshotId := None; p_startAt := None;
            p_endAt := Some (s_created_at firstSnapshot); p_isCurrent := false |}
      :: flat_map (fun i => opt_to_list (between_period snapshots i))
                  (seq 1 (List.length snapshots - 1))
  end.

(* ------------------------------------------------------------------ *)
(** ** The snapshot store, the usage source and the monad *)

(** Failures: the two "not found" errors the calculator throws, a failure
    of the usage source, propagated as it is, a failure of a store query,
    the [SyntaxError] of [JSON.parse], and the [TypeError] of iterating a
    dataset that is not iterable. *)
Inductive Err : Type :=
| PeriodNotFound (periodIndex : Z)
| UserNotFound
| UpstreamError (msg : string)
| StoreError (msg : string)
| JsonSyntaxError (msg : string)
| JsTypeError (msg : string).

(** The calculator's own "not found" errors. *)
Definition is_not_found (e : Err) : bool :=
  match e with
  | PeriodNotFound _ | UserNotFound => true
  | UpstreamError _ | StoreError _ | JsonSyntaxError _ | JsTypeError _ => false
  end.

Inductive Result (A : Type) : Type :=
| Ok (a : A)
| Throw (e : Err).
Arguments Ok {A} a.
Arguments Throw {A} e.

(** The store's two queries: [SELECT ... ORDER BY created_at] and
    [SELECT ... WHERE id = ?], each with the message it throws, if it
    throws. *)
Record Store := mkStore {
  getSnapshots : list BillingSnapshot;
  getSnapshotById : Z -> option BillingSnapshot;
  listError : option string;
  lookupError : option string
}.

(** The live dataset of the usage source, or the message of its failure. *)
Record World := mkWorld {
  db : Store;
  getCurrentCosts : list UserData + string;
  now_iso : string
}.

Definition M (A : Type) : Type := World -> Result A * World.

Definition ret {A} (a : A) : M A := fun w => (Ok a, w).

Definition bind {A B} (m : M A) (k : A -> M B) : M B :=
  fun w => match m w with
           | (Ok a, w') => k a w'
           | (Throw e, w') => (Throw e, w')
           end.

Definition throw {A} (e : Err) : M A := fun w => (Throw e, w).

Notation "x <- m ;; k" := (bind m (fun x => k))
  (at level 61, m at next level, right associativity).

Definition db_getSnapshots : M (list BillingSnapshot) :=
  fun w => (match listError (db w) with
            | Some msg => Throw (StoreError msg)
            | None => Ok (getSnapshots (db w))
            end, w).

(** [db.getSnapshotById(period.startSnapshotId!)]: with a [null] id the
    query [WHERE id = NULL] selects no row. *)
Definition db_getSnapshotById (id : option Z) : M (option BillingSnapshot) :=
  fun w => (match lookupError (db w) with
            | Some msg => Throw (StoreError msg)
            | None => Ok (match id with Some i => getSnapshotById (db w) i | None => None end)
            end, w).

Definition apiClient_getCurrentCosts : M (list UserData) :=
  fun w => (match getCurrentCosts w with
            | inl data => Ok data
            | inr msg => Throw (UpstreamError msg)
            end, w).

Definition new_date_iso : M string := fun w => (Ok (now_iso w), w).

(** [let rawData = snap.raw_json;] then, for a text starting with a double
    quote, [rawData = JSON.parse(rawData);] and in any case
    [data = JSON.parse(rawData)]: the first parse unwraps a double-encoded
    text, and either parse may throw a [SyntaxError]. *)
Definition parse_raw_json (raw : JsonText) : M JsonValue :=
  match raw with
  | JTValue v => ret v
  | JTQuoted v => ret v
  | JTQuotedInvalid msg => throw (JsonSyntaxError msg)
  | JTInvalid msg => throw (JsonSyntaxError msg)
  end.

(** [for (const u of data ?? [])] in [mapFromDataArray]: [null] reads as
    the empty array; a value that is not iterable throws. *)
Definition dataset_items (data : JsonValue) : M (list UserData) :=
  match data with
  | JVArray items => ret items
  | JVNull => ret []
  | JVNotIterable msg => throw (JsTypeError msg)
  end.

(* ------------------------------------------------------------------ *)
(** ** [BillingCalculator] *)

Definition getPeriods : M (list PeriodInfo) :=
  snapshots <- db_getSnapshots ;;
  ret (periodsOf snapshots).

(** JavaScript truthiness of a [string | null]. *)
Definition truthy (o : option string) : bool :=
  match o with
  | Some s => negb (String.eqb s "")
  | None => false
  end.

(** [s.created_at === period.endAt] *)
Definition created_at_is (endAt : option string) (s : BillingSnapshot) : bool :=
  match endAt with
  | Some e => String.eqb (s_created_at s) e
  | None => false
  end.

(** [if (snapshot) { ... data = JSON.parse(rawData); }], the data staying
    [[]] when no snapshot is found. *)
Definition data_of (o : option BillingSnapshot) : M JsonValue :=
  match o with
  | Some s => parse_raw_json (s_raw_json s)
  | None => ret (JVArray [])
  end.

(** Lines 186-241: the [(startData, endData)] of a period. *)
Definition resolvePeriodData (period : PeriodInfo) : M (JsonValue * JsonValue) :=
  if Z.eqb (p_index period) 0 then
    if truthy (p_endAt period) then
      snapshots <- db_getSnapshots ;;
      endData <- data_of (find (created_at_is (p_endAt period)) snapshots) ;;
      ret (JVArray [], endData)
    else
      endData <- apiClient_getCurrentCosts ;;
      ret (JVArray [], JVArray endData)
  else if p_isCurrent period then
    startSnapshot <- db_getSnapshotById (p_startSnapshotId period) ;;
    startData <- data_of startSnapshot ;;
    endData <- apiClient_getCurrentCosts ;;
    ret (startData, JVArray endData)
  else
    startSnapshot <- db_getSnapshotById (p_startSnapshotId period) ;;
    startData <- data_of startSnapshot ;;
    snapshots <- db_getSnapshots ;;
    endData <- data_of (find (created_at_is (p_endAt period)) snapshots) ;;
    ret (startData, endData).

Definition find_period (periods : list PeriodInfo) (periodIndex : Z) : option PeriodInfo :=
  find (fun p => Z.eqb (p_index p) periodIndex) periods.

(** [{...period, endAt: period.endAt || now}] *)
Definition with_endAt (p : PeriodInfo) (nowIso : string) : PeriodInfo :=
  {| p_index := p_index p; p_startSnapshotId := p_startSnapshotId p;
     p_startAt := p_startAt p;
     p_endAt := if truthy (p_endAt p) then p_endAt p else Some nowIso;
     p_isCurrent := p_isCurrent p |}.

Definition summarize (period : PeriodInfo) (nowIso : string) (result : DeltaResult)
  : PeriodSummary :=
  {| ps_period := with_endAt period nowIso;
     ps_totalCost := dr_totalCost result;
     ps_userCount := List.length (filter (fun u => negb (Qle_bool (r_cost u) 0)) (dr_users result));
     ps_ranking := dr_users result |}.

(** [computePeriodDelta] first iterates [startData], then [endData]
    ([dataset_items]); the rest of it is the pure [computePeriodDelta]. *)
Definition getPeriodSummary (periodIndex : Z) (meId : option string) : M PeriodSummary :=
  periods <- getPeriods ;;
  match find_period periods periodIndex with
  | None => throw (PeriodNotFound periodIndex)
  | Some period =>
      data <- resolvePeriodData period ;;
      startData <- dataset_items (fst data) ;;
      endData <- dataset_items (snd data) ;;
      nowIso <- new_date_iso ;;
      ret (summarize period nowIso (computePeriodDelta startData endData meId))
  end.

Definition getUserDetail (periodIndex : Z) (meId : string) : M UserDetail :=
  summary <- getPeriodSummary periodIndex (Some meId) ;;
  match find (fun u => String.eqb (r_id u) meId) (ps_ranking summary) with
  | None => throw UserNotFound
  | Some me =>
      ret {| d_id := r_id me; d_name := r_name me;
             d_startCost := number_or_zero (field_of (r_rawStart me) u_cost);
             d_endCost := number_or_zero (field_of (r_rawEnd me) u_cost);
             d_deltaCost := r_cost me;
             d_rawStart := r_rawStart me; d_rawEnd := r_rawEnd me |}
  end.

(* ------------------------------------------------------------------ *)
(** ** Template literals and [String.prototype.includes] *)

(** [`${n}`] for an integer [n]. *)
Definition Z_to_string (z : Z) : string := NilZero.string_of_int (Z.to_int z).

(** [s.includes(search)]. *)
Fixpoint includes (s search : string) : bool :=
  String.prefix search s ||
  match s with
  | EmptyString => false
  | String _ rest => includes rest search
  end.

(* ------------------------------------------------------------------ *)
(** ** The usage source client (src/server/api-client.ts)

    Modelling choices:
    - every request is recorded in a log, and the admin service is a set of
      functions from the log so far (and the request's parameters) to the
      response; [Date.now()] reads the clock the same way;
    - a response carries [ok], [status], [statusText] and the outcome of
      [response.json()]: an exception, or the fields the client reads (a
      missing field is [None], a missing [success] is [false]);
    - a JavaScript exception is its [name] and [message];
    - [setTimeout] only records the delay it waits;
    - the two loops bounded by the service's [totalPages] run on fuel:
      [COutOfFuel] is the loop still running when the fuel is spent;
    - [`$${cost.toFixed(2)}`] is kept as the number it prints. *)

Module ApiClient.

Record JsError := mkJsError { err_name : string; err_message : string }.

(** [new Error(message)] *)
Definition Error (message : string) : JsError := mkJsError "Error" message.

(** [String(error)], i.e. [Error.prototype.toString]. *)
Definition error_to_string (e : JsError) : string :=
  if String.eqb (err_name e) "" then err_message e
  else if String.eqb (err_message e) "" then err_name e
  else err_name e ++ ": " ++ err_message e.

(** The outcome of [await fetch(...)]. *)
Inductive HttpResp (A : Type) : Type :=
| NetworkError (e : JsError)
| HttpResponse (ok : bool) (status : Z) (statusText : string) (json : JsError + A).
Arguments NetworkError {A} e.
Arguments HttpResponse {A} ok status statusText json.

Record LoginResponse := mkLoginResponse {
  lr_success : bool;
  lr_token : option string;
  lr_expiresIn : option jsnum
}.

Record ApiKeyListItem := mkApiKeyListItem {
  it_id : string;
  it_name : string;
  it_tags : option (list string);
  it_apiKey : option string
}.

Record Pagination := mkPagination { pg_totalPages : option jsnum }.

Record ApiKeysData := mkApiKeysData {
  kd_items : option (list ApiKeyListItem);
  kd_pagination : option Pagination
}.

Record ApiKeysResponse := mkApiKeysResponse {
  kr_success : bool;
  kr_data : option ApiKeysData
}.

Record ApiKeyBatchStats := mkApiKeyBatchStats {
  st_requests : option jsnum;
  st_tokens : option jsnum;
  st_inputTokens : option jsnum;
  st_outputTokens : option jsnum;
  st_cacheCreateTokens : option jsnum;
  st_cacheReadTokens : option jsnum;
  st_cost : option jsnum;
  st_formattedCost : option string
}.

(** [data] is [Object.entries(data.data)] when [data.data] is present. *)
Record BatchStatsResponse := mkBatchStatsResponse {
  bs_success : bool;
  bs_data : option (list (string * ApiKeyBatchStats))
}.

(** [ki_id] is [data.data?.id]. *)
Record KeyIdResponse := mkKeyIdResponse {
  ki_success : bool;
  ki_id : option string
}.

(** [formattedCost]: the service's string, or [`$${cost.toFixed(2)}`]. *)
Inductive FormattedCost : Type :=
| FmtGiven (s : string)
| FmtDollarToFixed2 (cost : jsnum).

Record ApiKeyUsageTotals := mkApiKeyUsageTotals {
  ut_cost : jsnum;
  ut_tokens : jsnum;
  ut_inputTokens : jsnum;
  ut_outputTokens : jsnum;
  ut_cacheCreateTokens : jsnum;
  ut_cacheReadTokens : jsnum;
  ut_requests : jsnum;
  ut_formattedCost : FormattedCost
}.

(** [{...sanitizedItem, usage: {total}}] *)
Record ApiKeyWithUsage := mkApiKeyWithUsage {
  wu_item : ApiKeyListItem;
  wu_total : ApiKeyUsageTotals
}.

(** The requests the client sends, and its waits. *)
Inductive Event : Type :=
| EvLogin
| EvKeysPage (page pageSize : Z)
| EvBatchStats (keyIds : list string)
| EvGetKeyId (apiKey : string)
| EvSleep (ms : Z).

Record State := mkState {
  token : option string;
  expiresAt : jsnum;
  log : list Event
}.

Record Upstream := mkUpstream {
  up_now : list Event -> Z;
  up_login : list Event -> HttpResp LoginResponse;
  up_keys : list Event -> Z -> Z -> HttpResp ApiKeysResponse;
  up_batch : list Event -> list string -> HttpResp BatchStatsResponse;
  up_keyId : list Event -> string -> HttpResp KeyIdResponse
}.

Inductive CResult (A : Type) : Type :=
| COk (a : A)
| CThrow (e : JsError)
| COutOfFuel.
Arguments COk {A} a.
Arguments CThrow {A} e.
Arguments COutOfFuel {A}.

Definition CM (A : Type) : Type := Upstream -> State -> CResult A * State.

Definition cret {A} (a : A) : CM A := fun _ st => (COk a, st).

Definition cthrow {A} (e : JsError) : CM A := fun _ st => (CThrow e, st).

Definition out_of_fuel {A} : CM A := fun _ st => (COutOfFuel, st).

Definition cbind {A B} (m : CM A) (k : A -> CM B) : CM B :=
  fun u st => match m u st with
              | (COk a, st') => k a u st'
              | (CThrow e, st') => (CThrow e, st')
              | (COutOfFuel, st') => (COutOfFuel, st')
              end.

(** [try { m } catch (error) { h(error) }] *)
Definition ctry {A} (m : CM A) (h : JsError -> CM A) : CM A :=
  fun u st => match m u st with
              | (CThrow e, st') => h e u st'
              | r => r
              end.

Notation "x <-- m ;; k" := (cbind m (fun x => k))
  (at level 61, m at next level, right associativity).

Definition get_state : CM State := fun _ st => (COk st, st).

Definition log_event (ev : Event) (st : State) : State :=
  mkState (token st) (expiresAt st) (log st ++ [ev]).

Definition date_now : CM Z := fun u st => (COk (up_now u (log st)), st).

Definition fetch_login : CM (HttpResp LoginResponse) :=
  fun u st => (COk (up_login u (log st)), log_event EvLogin st).

Definition fetch_keys (page pageSize : Z) : CM (HttpResp ApiKeysResponse) :=
  fun u st => (COk (up_keys u (log st) page pageSize), log_event (EvKeysPage page pageSize) st).

Definition fetch_batch (keyIds : list string) : CM (HttpResp BatchStatsResponse) :=
  fun u st => (COk (up_batch u (log st) keyIds), log_event (EvBatchStats keyIds) st).

Definition fetch_keyId (apiKey : string) : CM (HttpResp KeyIdResponse) :=
  fun u st => (COk (up_keyId u (log st) apiKey), log_event (EvGetKeyId apiKey) st).

(** [await new Promise(resolve => setTimeout(resolve, ms))] *)
Definition sleep (ms : Z) : CM unit := fun _ st => (COk tt, log_event (EvSleep ms) st).

(** [this.token = token; this.expiresAt = expiresAt] *)
Definition set_token (t : option string) (e : jsnum) : CM unit :=
  fun _ st => (COk tt, mkState t e (log st)).

(** [a + b] and [a < b] on JavaScript numbers. *)
Definition js_add (a b : jsnum) : jsnum :=
  match a, b with
  | JNum x, JNum y => JNum (x + y)
  | JNaN, _ | _, JNaN => JNaN
  | JInf p, JInf q => if Bool.eqb p q then JInf p else JNaN
  | JInf p, JNum _ | JNum _, JInf p => JInf p
  end.

Definition js_lt (a b : jsnum) : bool :=
  match a, b with
  | JNum x, JNum y => negb (Qle_bool y x)
  | JNaN, _ | _, JNaN => false
  | JNum _, JInf q => q
  | JInf p, JNum _ => negb p
  | JInf p, JInf q => negb p && q
  end.

(** A number read as a boolean. *)
Definition js_truthy (v : jsnum) : bool :=
  match v with
  | JNum q => negb (Qeq_bool q 0)
  | JNaN => false
  | JInf _ => true
  end.

(** A field read with no default: [undefined] takes part in [+] as NaN. *)
Definition number_or_nan (f : option jsnum) : jsnum :=
  match f with
  | Some v => v
  | None => JNaN
  end.

Definition skewMs : Z := 10000.

Definition maxRetries : nat := 3.

(** The body of the [try] block of [login]. *)
Definition login_attempt : CM unit :=
  response <-- fetch_login ;;
  match response with
  | NetworkError e => cthrow e
  | HttpResponse ok status statusText json =>
      if negb ok then
        cthrow (Error ("Login failed: " ++ Z_to_string status ++ " " ++ statusText))
      else
        match json with
        | inl e => cthrow e
        | inr data =>
            if negb (lr_success data) || negb (truthy (lr_token data)) then
              cthrow (Error "Login response invalid")
            else
              now <-- date_now ;;
              set_token (lr_token data)
                        (js_add (JNum (inject_Z now)) (number_or_nan (lr_expiresIn data)))
        end
  end.

(** [while (retries < maxRetries) { try ... catch ... }]; [n] bounds the
    iterations left, [maxRetries - retries] when called from [login]. *)
Fixpoint login_loop (n : nat) (retries : nat) : CM unit :=
  match n with
  | O => cret tt
  | S n' =>
      if Nat.ltb retries maxRetries then
        ctry login_attempt (fun error =>
          let retries := S retries in
          if Nat.leb maxRetries retries then
            cthrow (Error ("Login failed after " ++ Z_to_string (Z.of_nat maxRetries)
                           ++ " retries: " ++ error_to_string error))
          else
            _ <-- sleep (2 ^ (Z.of_nat retries - 1) * 1000) ;;
            login_loop n' retries)
      else cret tt
  end.

Definition login : CM unit := login_loop maxRetries 0.

Definition ensureValidToken : CM unit :=
  st <-- get_state ;;
  if truthy (token st) then
    now <-- date_now ;;
    if js_lt (JNum (inject_Z (now + skewMs))) (expiresAt st) then cret tt else login
  else login.

(** Returns [data.data] as its [items] and its [pagination]. *)
Definition fetchApiKeysPage (page pageSize : Z) : CM (list ApiKeyListItem * Pagination) :=
  _ <-- ensureValidToken ;;
  response <-- fetch_keys page pageSize ;;
  match response with
  | NetworkError e => cthrow e
  | HttpResponse ok status statusText json =>
      if negb ok then
        cthrow (Error ("Failed to fetch api keys: " ++ Z_to_string status ++ " " ++ statusText))
      else
        match json with
        | inl e => cthrow e
        | inr data =>
            match kr_success data, kr_data data with
            | true, Some {| kd_items := Some items; kd_pagination := Some pagination |} =>
                cret (items, pagination)
            | _, _ => cthrow (Error "Invalid response format from admin/api-keys")
            end
        end
  end.

(** [const { apiKey, ...rest } = item; return rest] *)
Definition sanitizeApiKeyItem (item : ApiKeyListItem) : ApiKeyListItem :=
  mkApiKeyListItem (it_id item) (it_name item) (it_tags item) None.

Definition fetchUsageBatch (keyIds : list string)
  : CM (list (string * ApiKeyBatchStats)) :=
  _ <-- ensureValidToken ;;
  response <-- fetch_batch keyIds ;;
  match response with
  | NetworkError e => cthrow e
  | HttpResponse ok status statusText json =>
      if negb ok then
        cthrow (Error ("Failed to fetch usage stats: " ++ Z_to_string status ++ " " ++ statusText))
      else
        match json with
        | inl e => cthrow e
        | inr data =>
            match bs_success data, bs_data data with
            | true, Some entries => cret entries
            | _, _ => cthrow (Error "Invalid response format from admin/api-keys/batch-stats")
            end
        end
  end.

(** [Map<string, ApiKeyBatchStats>] in insertion order. *)
Definition StatsMap := list (string * ApiKeyBatchStats).

Fixpoint stats_set (m : StatsMap) (k : string) (v : ApiKeyBatchStats) : StatsMap :=
  match m with
  | [] => [(k, v)]
  | (k', v') :: m' =>
      if String.eqb k' k then (k', v) :: m' else (k', v') :: stats_set m' k v
  end.

Fixpoint stats_get (m : StatsMap) (k : string) : option ApiKeyBatchStats :=
  match m with
  | [] => None
  | (k', v') :: m' => if String.eqb k' k then Some v' else stats_get m' k
  end.

Definition batchSize : nat := 10.

(** [for (let i = ...; i < keyIds.length; i += batchSize)]; [n] bounds the
    iterations left. *)
Fixpoint usage_loop (n : nat) (keyIds : list string) (i : nat) (usageMap : StatsMap)
  : CM StatsMap :=
  match n with
  | O => out_of_fuel
  | S n' =>
      if Nat.ltb i (List.length keyIds) then
        let batch := firstn batchSize (skipn i keyIds) in
        if Nat.eqb (List.length batch) 0 then usage_loop n' keyIds (i + batchSize) usageMap
        else
          batchData <-- fetchUsageBatch batch ;;
          usage_loop n' keyIds (i + batchSize)
            (fold_left (fun m e => stats_set m (fst e) (snd e)) batchData usageMap)
      else cret usageMap
  end.

(** The loop runs at most [keyIds.length + 1] times. *)
Definition getUsageStats (keyIds : list string) : CM StatsMap :=
  usage_loop (S (List.length keyIds)) keyIds 0 [].

Definition pageSize : Z := 50.

(** [page <= totalPages], [page] being an integer. *)
Definition page_le (page : Z) (totalPages : jsnum) : bool :=
  match totalPages with
  | JNum q => Qle_bool (inject_Z page) q
  | JInf p => p
  | JNaN => false
  end.

(** [data.pagination.totalPages || page] *)
Definition next_totalPages (pagination : Pagination) (page : Z) : jsnum :=
  match pg_totalPages pagination with
  | Some tp => if js_truthy tp then tp else JNum (inject_Z page)
  | None => JNum (inject_Z page)
  end.

(** The pagination loop of [getCurrentCosts]. *)
Fixpoint collect_pages (fuel : nat) (page : Z) (totalPages : jsnum)
    (allItems : list ApiKeyListItem) : CM (list ApiKeyListItem) :=
  match fuel with
  | O => out_of_fuel
  | S fuel' =>
      if page_le page totalPages then
        data <-- fetchApiKeysPage page pageSize ;;
        collect_pages fuel' (page + 1) (next_totalPages (snd data) page) (allItems ++ fst data)
      else cret allItems
  end.

(** [!user.tags?.includes("noshare")] *)
Definition shareable (item : ApiKeyListItem) : bool :=
  match it_tags item with
  | Some tags => negb (existsb (String.eqb "noshare") tags)
  | None => true
  end.

Definition stat_of (stats : option ApiKeyBatchStats) (f : ApiKeyBatchStats -> option jsnum)
  : option jsnum :=
  match stats with
  | Some s => f s
  | None => None
  end.

(** The callback of [shareableItems.map]. *)
Definition withUsage (usageStats : StatsMap) (item : ApiKeyListItem) : ApiKeyWithUsage :=
  let sanitizedItem := sanitizeApiKeyItem item in
  let stats := stats_get usageStats (it_id item) in
  let cost := number_or_zero (stat_of stats st_cost) in
  let formattedCost := match stats with
                       | Some s => match st_formattedCost s with
                                   | Some f => FmtGiven f
                                   | None => FmtDollarToFixed2 cost
                                   end
                       | None => FmtDollarToFixed2 cost
                       end in
  {| wu_item := sanitizedItem;
     wu_total := {| ut_cost := cost;
                    ut_tokens := number_or_zero (stat_of stats st_tokens);
                    ut_inputTokens := number_or_zero (stat_of stats st_inputTokens);
                    ut_outputTokens := number_or_zero (stat_of stats st_outputTokens);
                    ut_cacheCreateTokens := number_or_zero (stat_of stats st_cacheCreateTokens);
                    ut_cacheReadTokens := number_or_zero (stat_of stats st_cacheReadTokens);
                    ut_requests := number_or_zero (stat_of stats st_requests);
                    ut_formattedCost := formattedCost |} |}.

Definition getCurrentCosts (fuel : nat) : CM (list ApiKeyWithUsage) :=
  allItems <-- collect_pages fuel 1 (JNum 1) [] ;;
  let shareableItems := filter shareable allItems in
  usageStats <-- getUsageStats (map it_id shareableItems) ;;
  cret (map (withUsage usageStats) shareableItems).

Definition getKeyIdFromLegacy (apiKey : string) : CM string :=
  response <-- fetch_keyId apiKey ;;
  match response with
  | NetworkError e => cthrow e
  | HttpResponse ok status statusText json =>
      if negb ok then
        cthrow (Error ("Failed to get key ID: " ++ Z_to_string status ++ " " ++ statusText))
      else
        match json with
        | inl e => cthrow e
        | inr data =>
            match ki_success data, ki_id data with
            | true, Some id => if truthy (Some id) then cret id
                               else cthrow (Error "Invalid API key or response format")
            | _, _ => cthrow (Error "Invalid API key or response format")
            end
        end
  end.

(** [item.apiKey === apiKey] *)
Definition has_apiKey (apiKey : string) (item : ApiKeyListItem) : bool :=
  match it_apiKey item with
  | Some k => String.eqb k apiKey
  | None => false
  end.

(** The pagination loop of [getKeyIdFromList]. *)
Fixpoint find_key_pages (fuel : nat) (apiKey : string) (page : Z) (totalPages : jsnum)
  : CM string :=
  match fuel with
  | O => out_of_fuel
  | S fuel' =>
      if page_le page totalPages then
        data <-- fetchApiKeysPage page pageSize ;;
        match find (has_apiKey apiKey) (fst data) with
        | Some m => if truthy (Some (it_id m)) then cret (it_id m)
                    else find_key_pages fuel' apiKey (page + 1) (next_totalPages (snd data) page)
        | None => find_key_pages fuel' apiKey (page + 1) (next_totalPages (snd data) page)
        end
      else cthrow (Error "Invalid API key or response format")
  end.

Definition getKeyIdFromList (fuel : nat) (apiKey : string) : CM string :=
  find_key_pages fuel apiKey 1 (JNum 1).

Definition getKeyId (fuel : nat) (apiKey : string) : CM string :=
  ctry (getKeyIdFromLegacy apiKey) (fun _ => getKeyIdFromList fuel apiKey).

(** Reading the service's answers and the log, for the statements. *)

(** [r] is a valid page of [admin/api-keys] with [items] and [pagination]. *)
Definition listed (r : HttpResp ApiKeysResponse) (items : list ApiKeyListItem)
    (pagination : Pagination) : Prop :=
  exists status statusText,
    r = HttpResponse true status statusText
          (inr (mkApiKeysResponse true (Some (mkApiKeysData (Some items) (Some pagination))))).

(** [r] is a valid answer of [get-key-id] naming [id]. *)
Definition legacy_ok (r : HttpResp KeyIdResponse) (id : string) : Prop :=
  exists status statusText,
    r = HttpResponse true status statusText (inr (mkKeyIdResponse true (Some id))).

(** The service associates the key [apiKey] to the id [id]. *)
Definition key_owner (u : Upstream) (apiKey id : string) : Prop :=
  (exists l, legacy_ok (up_keyId u l apiKey) id) \/
  (exists l page ps items pagination item,
     listed (up_keys u l page ps) items pagination /\ In item items /\
     it_apiKey item = Some apiKey /\ it_id item = id).

(** The events of [login]: the login requests and the waits between them. *)
Definition auth_event (ev : Event) : bool :=
  match ev with
  | EvLogin | EvSleep _ => true
  | _ => false
  end.

Definition batch_requests (l : list Event) : list (list string) :=
  flat_map (fun ev => match ev with EvBatchStats ids => [ids] | _ => [] end) l.

Definition page_requests (l : list Event) : list (Z * Z) :=
  flat_map (fun ev => match ev with EvKeysPage p ps => [(p, ps)] | _ => [] end) l.

End ApiClient.

(* ------------------------------------------------------------------ *)
(** ** The HTTP routes (src/server/database.ts) *)

Record Validation := mkValidation {
  v_valid : bool;
  v_userId : option string;
  v_error : option string
}.

(** [validateApiKey]: [apiKey] is the [x-api-key] header, [None] when absent. *)
Definition validateApiKey (fuel : nat) (apiKey : option string)
  : ApiClient.CM Validation :=
  match apiKey with
  | Some key =>
      if truthy (Some key) then
        ApiClient.ctry
          (ApiClient.cbind (ApiClient.getKeyId fuel key)
             (fun userId => ApiClient.cret (mkValidation true (Some userId) None)))
          (fun _ => ApiClient.cret (mkValidation false None (Some "Invalid API key"%string)))
      else ApiClient.cret (mkValidation false None (Some "API key required"%string))
  | None => ApiClient.cret (mkValidation false None (Some "API key required"%string))
  end.

(** [error.message] of the errors the calculator throws. *)
Definition err_message (e : Err) : string :=
  match e with
  | PeriodNotFound i => "Period " ++ Z_to_string i ++ " not found"
  | UserNotFound => "User not found in this period (possibly deleted)"
  | UpstreamError msg | StoreError msg | JsonSyntaxError msg | JsTypeError msg => msg
  end.

Inductive Body : Type :=
| BError (error : string)
| BSummary (s : PeriodSummary)
| BDetail (d : UserDetail).

Record Response := mkResponse { status : Z; body : Body }.

(** The outcome of [GET /api/periods/:index/summary] once the key is
    validated and the index parsed: [r] is the result of [getPeriodSummary]. *)
Definition summaryResponse (r : Result PeriodSummary) : Response :=
  match r with
  | Ok summary => mkResponse 200 (BSummary summary)
  | Throw error =>
      if includes (err_message error) "not found"
      then mkResponse 404 (BError "Period not found")
      else mkResponse 500 (BError "Failed to get period summary")
  end.

(** The same for [GET /api/periods/:index/me] and [getUserDetail]. *)
Definition meResponse (r : Result UserDetail) : Response :=
  match r with
  | Ok userDetail => mkResponse 200 (BDetail userDetail)
  | Throw error =>
      if includes (err_message error) "not found"
      then mkResponse 404 (BError "User not found in this period (possibly deleted)")
      else mkResponse 500 (BError "Failed to get user details")
  end.

(* ------------------------------------------------------------------ *)
(** ** A concrete admin service *)

(** A valid page of [admin/api-keys]. *)
Definition keys_page (items : list ApiClient.ApiKeyListItem) (totalPages : Z)
  : ApiClient.HttpResp ApiClient.ApiKeysResponse :=
  ApiClient.HttpResponse true 200 "OK"
    (inr (ApiClient.mkApiKeysResponse true
           (Some (ApiClient.mkApiKeysData (Some items)
                   (Some (ApiClient.mkPagination (Some (JNum (inject_Z totalPages))))))))).

(** Logins succeed; two pages of keys, the second holding the key "sk-3";
    usage stats for "k1" only; the legacy key lookup answers 404. *)
Definition svc : ApiClient.Upstream :=
  ApiClient.mkUpstream
    (fun l => Z.of_nat (List.length l))
    (fun _ => ApiClient.HttpResponse true 200 "OK"
                (inr (ApiClient.mkLoginResponse true (Some "tok"%string) (Some (JNum 3600000)))))
    (fun _ page _ =>
       if Z.eqb page 1
       then keys_page [ApiClient.mkApiKeyListItem "k1" "Alice" None (Some "sk-1"%string);
                       ApiClient.mkApiKeyListItem "k2" "Bob" (Some ["noshare"%string])
                                                  (Some "sk-2"%string)] 2
       else keys_page [ApiClient.mkApiKeyListItem "k3" "Carol" (Some []) (Some "sk-3"%string)] 2)
    (fun _ _ => ApiClient.HttpResponse true 200 "OK"
                  (inr (ApiClient.mkBatchStatsResponse true
                         (Some [("k1"%string,
                                 ApiClient.mkApiKeyBatchStats None None None None None None
                                                              (Some (JNum 2)) None)]))))
    (fun _ _ => ApiClient.HttpResponse false 404 "Not Found"
                  (inr (ApiClient.mkKeyIdResponse false None))).

(** A client that has not logged in yet. *)
Definition client0 : ApiClient.State := ApiClient.mkState None (JNum 0) [].

(* ------------------------------------------------------------------ *)
(** ** Concrete stores and worlds, and accessors used in the statements *)

(** A record carrying only a cost. *)
Definition cost_record (id : string) (c : Q) : UserData :=
  mkUserData id "" (Some (JNum c)) None None.

(** A store that answers both queries from one list, as the SQLite table does. *)
Definition store_of (snaps : list BillingSnapshot) : Store :=
  mkStore snaps (fun i => find (fun s => Z.eqb (s_id s) i) snaps) None None.

Definition bob : UserData :=
  mkUserData "u2" "Bob" (Some (JNum 5)) (Some (JNum 100)) (Some (JNum 2)).

(** No snapshot yet; the usage source lists one user, [u2]. *)
Definition w_fresh : World :=
  mkWorld (store_of []) (inl [bob]) "2026-01-01T00:00:00.000Z".

Definition snap1 : BillingSnapshot :=
  mkBillingSnapshot 1 "2026-01-01T00:00:00.000Z" "Asia/Shanghai"
    (JTValue (JVArray [cost_record "u1" 50])).

(** A counter reset: [u1] had 50 at the snapshot and has 40 now. *)
Definition w_reset : World :=
  mkWorld (store_of [snap1]) (inl [cost_record "u1" 40]) "2026-02-01T00:00:00.000Z".

(** [getPeriodSummary]'s test [period.isCurrent] for the period it resolves. *)
Definition period_is_current (snaps : list BillingSnapshot) (i : Z) : bool :=
  match find_period (periodsOf snaps) i with
  | Some p => p_isCurrent p
  | None => false
  end.

Definition snap2 : BillingSnapshot :=
  mkBillingSnapshot 2 "2026-02-01T00:00:00.000Z" "Asia/Shanghai"
    (JTQuoted (JVArray [cost_record "u1" 70; bob])).

Definition w_hist_a : World :=
  mkWorld (store_of [snap1; snap2]) (inl [cost_record "u1" 90]) "2026-02-10T00:00:00.000Z".

Definition w_hist_b : World :=
  mkWorld (store_of [snap1; snap2]) (inr "fetch failed"%string) "2026-03-01T00:00:00.000Z".

(** The snapshot [getSnapshotById] returns for a period's start. *)
Definition start_lookup (w : World) (p : PeriodInfo) : option BillingSnapshot :=
  match p_startSnapshotId p with
  | Some i => getSnapshotById (db w) i
  | None => None
  end.

(** The first stored snapshot whose [created_at] is the period's [endAt]. *)
Definition end_lookup (w : World) (p : PeriodInfo) : option BillingSnapshot :=
  find (created_at_is (p_endAt p)) (getSnapshots (db w)).

(** Whether [getPeriodSummary] takes [startData] / [endData] from a snapshot. *)
Definition reads_start_snapshot (p : PeriodInfo) : bool := negb (Z.eqb (p_index p) 0).

Definition reads_end_snapshot (p : PeriodInfo) : bool :=
  if Z.eqb (p_index p) 0 then truthy (p_endAt p) else negb (p_isCurrent p).

(** A store whose id lookup misses the snapshot its listing shows. *)
Definition w_orphan : World :=
  mkWorld (mkStore [snap1] (fun _ => None) None None) (inl [cost_record "u1" 40])
          "2026-02-01T00:00:00.000Z".

Definition current_period_1 : PeriodInfo :=
  {| p_index := 1%Z; p_startSnapshotId := Some 1%Z;
     p_startAt := Some "2026-01-01T00:00:00.000Z"%string; p_endAt := None;
     p_isCurrent := true |}.

(* ------------------------------------------------------------------ *)
(** ** Auxiliary definitions for the statements *)

(** The boundary between period [i] and period [i + 1], looked up by index
    as [getPeriodSummary] looks them up. *)
Definition boundary_ok (ps : list PeriodInfo) (i : nat) : Prop :=
  match find_period ps (Z.of_nat i), find_period ps (Z.of_nat (S i)) with
  | Some p, Some q => p_endAt p <> None /\ p_endAt p = p_startAt q
  | _, _ => False
  end.

(** What the two parses of a [raw_json] text give, when they give a value. *)
Definition payload_value (raw : JsonText) : option JsonValue :=
  match raw with
  | JTValue v | JTQuoted v => Some v
  | JTQuotedInvalid _ | JTInvalid _ => None
  end.

(** The error reading a stored payload raises: the [SyntaxError] of a
    parse, or the [TypeError] of iterating the value. *)
Definition payload_error (raw : JsonText) : option Err :=
  match raw with
  | JTQuotedInvalid msg | JTInvalid msg => Some (JsonSyntaxError msg)
  | JTValue (JVNotIterable msg) | JTQuoted (JVNotIterable msg) => Some (JsTypeError msg)
  | JTValue _ | JTQuoted _ => None
  end.

(** A snapshot one of the store's queries returns. *)
Definition stored (w : World) (s : BillingSnapshot) : Prop :=
  In s (getSnapshots (db w)) \/ exists i, getSnapshotById (db w) i = Some s.

(** Where an error of [getPeriodSummary] or [getUserDetail] comes from:
    the calculator's own "not found" errors, the usage source, a store
    query, or a stored payload. *)
Definition error_source (w : World) (e : Err) : Prop :=
  match e with
  | PeriodNotFound _ | UserNotFound => True
  | UpstreamError msg => getCurrentCosts w = inr msg
  | StoreError msg => listError (db w) = Some msg \/ lookupError (db w) = Some msg
  | JsonSyntaxError _ | JsTypeError _ =>
      exists s, stored w s /\ payload_error (s_raw_json s) = Some e
  end.

(** Two results in sequence: the first failure wins. *)
Definition result_pair {A B} (a : Result A) (b : Result B) : Result (A * B) :=
  match a with
  | Throw e => Throw e
  | Ok x => match b with
            | Throw e => Throw e
            | Ok y => Ok (x, y)
            end
  end.

(* ------------------------------------------------------------------ *)
(** ** Lemmas on [getPeriods] *)

Lemma nth_error_last {A} (l : list A) (d : A) :
  l <> [] -> nth_error l (List.length l - 1) = Some (List.last l d).
Proof.
  induction l as [|a l IH]; intros H; [congruence|].
  destruct l as [|b l]; [reflexivity|].
  replace (List.length (a :: b :: l) - 1)%nat with (S (List.length (b :: l) - 1))
    by (simpl; lia).
  change (nth_error (b :: l) (List.length (b :: l) - 1) = Some (List.last (b :: l) d)).
  apply IH. discriminate.
Qed.

Lemma between_period_some (snaps : list BillingSnapshot) (i : nat) :
  (1 <= i < List.length snaps)%nat ->
  exists s e, nth_error snaps (i - 1) = Some s /\ nth_error snaps i = Some e /\
    between_period snaps i =
      Some {| p_index := Z.of_nat i; p_startSnapshotId := Some (s_id s);
              p_startAt := Some (s_created_at s); p_endAt := Some (s_created_at e);
              p_isCurrent := false |}.
Proof.
  intros Hi.
  destruct (nth_error snaps (i - 1)) as [s|] eqn:Hs;
    [|apply nth_error_None in Hs; lia].
  destruct (nth_error snaps i) as [e|] eqn:He;
    [|apply nth_error_None in He; lia].
  exists s, e. unfold between_period. rewrite Hs, He. auto.
Qed.

Definition historical_periods (snaps : list BillingSnapshot) (a m : nat) : list PeriodInfo :=
  flat_map (fun i => opt_to_list (between_period snaps i)) (seq a m).

Lemma historical_length snaps a m :
  (1 <= a)%nat -> (a + m <= List.length snaps)%nat ->
  List.length (historical_periods snaps a m) = m.
Proof.
  revert a. induction m as [|m IH]; intros a Ha Hm; [reflexivity|].
  unfold historical_periods. simpl.
  destruct (between_period_some snaps a) as (s & e & _ & _ & ->); [lia|].
  simpl. f_equal. apply IH; lia.
Qed.

Lemma historical_not_current snaps a m :
  (1 <= a)%nat -> (a + m <= List.length snaps)%nat ->
  filter p_isCurrent (historical_periods snaps a m) = [].
Proof.
  revert a. induction m as [|m IH]; intros a Ha Hm; [reflexivity|].
  unfold historical_periods. simpl.
  destruct (between_period_some snaps a) as (s & e & _ & _ & ->); [lia|].
  simpl. apply IH; lia.
Qed.

Lemma Z_of_nat_eqb (i k : nat) : Z.eqb (Z.of_nat i) (Z.of_nat k) = Nat.eqb i k.
Proof.
  destruct (Nat.eqb i k) eqn:E.
  - apply Nat.eqb_eq in E. subst. apply Z.eqb_refl.
  - apply Nat.eqb_neq in E. apply Z.eqb_neq. lia.
Qed.

Lemma historical_find snaps a m k :
  (1 <= a)%nat -> (a <= k < a + m)%nat -> (a + m <= List.length snaps)%nat ->
  find_period (historical_periods snaps a m) (Z.of_nat k) = between_period snaps k.
Proof.
  revert a. induction m as [|m IH]; intros a Ha Hk Hm; [lia|].
  unfold historical_periods. simpl.
  destruct (between_period_some snaps a) as (s & e & _ & _ & Hb); [lia|].
  rewrite Hb. simpl. rewrite Z_of_nat_eqb.
  destruct (Nat.eqb a k) eqn:E.
  - apply Nat.eqb_eq in E. subst. now rewrite Hb.
  - apply Nat.eqb_neq in E. apply (IH (S a)); lia.
Qed.

(** Start and end boundaries of period [k] over [n] snapshots. *)
Definition start_boundary (snaps : list BillingSnapshot) (k : nat) : option string :=
  match k with
  | O => None
  | S j => option_map s_created_at (nth_error snaps j)
  end.

Definition end_boundary (snaps : list BillingSnapshot) (k : nat) : option string :=
  if Nat.eqb k (List.length snaps) then None
  else option_map s_created_at (nth_error snaps k).

(** The period of index [k] that [getPeriods] lists for [snaps], [k <= n]. *)
Definition period_at (snaps : list BillingSnapshot) (k : nat) : PeriodInfo :=
  {| p_index := Z.of_nat k;
     p_startSnapshotId := match k with
                          | O => None
                          | S j => option_map s_id (nth_error snaps j)
                          end;
     p_startAt := start_boundary snaps k;
     p_endAt := end_boundary snaps k;
     p_isCurrent := Nat.eqb k (List.length snaps) |}.

Lemma periodsOf_cons (s0 : BillingSnapshot) (rest : list BillingSnapshot) :
  periodsOf (s0 :: rest) =
    {| p_index := Z.of_nat (List.length (s0 :: rest));
       p_startSnapshotId := Some (s_id (List.last (s0 :: rest) s0));
       p_startAt := Some (s_created_at (List.last (s0 :: rest) s0));
       p_endAt := None; p_isCurrent := true |}
    :: {| p_index := 0; p_startSnapshotId := None; p_startAt := None;
          p_endAt := Some (s_created_at s0); p_isCurrent := false |}
    :: historical_periods (s0 :: rest) 1 (List.length (s0 :: rest) - 1).
Proof. reflexivity. Qed.

Lemma periodsOf_find (snaps : list BillingSnapshot) (k : nat) :
  (k <= List.length snaps)%nat ->
  exists p, find_period (periodsOf snaps) (Z.of_nat k) = Some p /\
    p_startAt p = start_boundary snaps k /\ p_endAt p = end_boundary snaps k /\
    p_isCurrent p = Nat.eqb k (List.length snaps).
Proof.
  intros Hk. destruct snaps as [|s0 rest].
  - simpl in Hk. assert (k = 0%nat) by lia. subst k.
    eexists. split; [reflexivity|]. auto.
  - rewrite periodsOf_cons. unfold find_period. cbn [find p_index].
    rewrite Z_of_nat_eqb.
    destruct (Nat.eqb (List.length (s0 :: rest)) k) eqn:Enk.
    + apply Nat.eqb_eq in Enk. subst k.
      eexists. split; [reflexivity|]. cbn [p_startAt p_endAt p_isCurrent].
      unfold start_boundary, end_boundary. rewrite Nat.eqb_refl.
      split; [|auto].
      change (List.length (s0 :: rest)) with (S (List.length rest)). cbv iota beta.
      replace (List.length rest) with (List.length (s0 :: rest) - 1)%nat by (simpl; lia).
      rewrite (nth_error_last (s0 :: rest) s0) by discriminate.
      reflexivity.
    + apply Nat.eqb_neq in Enk.
      destruct k as [|k'].
      * cbn [Z.of_nat Z.eqb]. eexists. split; [reflexivity|].
        unfold start_boundary, end_boundary. cbn. auto.
      * assert (Hz : Z.eqb 0 (Z.of_nat (S k')) = false) by (apply Z.eqb_neq; lia).
        rewrite Hz.
        fold (find_period (historical_periods (s0 :: rest) 1 (List.length (s0 :: rest) - 1))
                (Z.of_nat (S k'))).
        rewrite historical_find by lia.
        destruct (between_period_some (s0 :: rest) (S k')) as (s & e & Hs1 & He & ->);
          [lia|].
        eexists. split; [reflexivity|]. cbn [p_startAt p_endAt p_isCurrent].
        unfold start_boundary, end_boundary.
        rewrite (proj2 (Nat.eqb_neq (S k') (List.length (s0 :: rest)))) by lia.
        cbn [Nat.sub] in Hs1. rewrite Nat.sub_0_r in Hs1. rewrite Hs1, He. auto.
Qed.

Lemma periodsOf_length snaps : List.length (periodsOf snaps) = S (List.length snaps).
Proof.
  destruct snaps as [|s0 rest]; [reflexivity|].
  rewrite periodsOf_cons. simpl List.length at 1.
  rewrite historical_length by (simpl; lia).
  simpl. lia.
Qed.

(* ------------------------------------------------------------------ *)
(** ** Lemmas on the [Map] and [Set] model *)

Lemma map_get_set m k v k' :
  map_get (map_set m k v) k' = if String.eqb k k' then Some v else map_get m k'.
Proof.
  induction m as [|[k0 v0] m IH]; simpl.
  - destruct (String.eqb k k'); reflexivity.
  - destruct (String.eqb_spec k0 k) as [->|Hne]; simpl.
    + destruct (String.eqb k k'); reflexivity.
    + rewrite IH. destruct (String.eqb_spec k0 k') as [->|];
        destruct (String.eqb_spec k k') as [->|]; congruence.
Qed.

Definition build_step (m : JSMap) (u : UserData) : JSMap := map_set m (u_id u) u.

Lemma fold_build_get data m k v :
  map_get (fold_left build_step data m) k = Some v ->
  map_get m k = Some v \/ (In v data /\ u_id v = k).
Proof.
  revert m. induction data as [|u data IH]; intros m H; [auto|].
  simpl in H. destruct (IH _ H) as [H1|[H1 H2]]; [|right; simpl; auto].
  unfold build_step in H1. rewrite map_get_set in H1.
  destruct (String.eqb_spec (u_id u) k) as [Heq|]; [|auto].
  injection H1 as <-. right. simpl. auto.
Qed.

Lemma mapFromDataArray_get data k v :
  map_get (mapFromDataArray data) k = Some v -> In v data /\ u_id v = k.
Proof.
  intros H. destruct (fold_build_get data [] k v H) as [H1|H1]; [discriminate|exact H1].
Qed.

Lemma fold_build_defined data m k :
  (map_get m k <> None \/ In k (map u_id data)) ->
  map_get (fold_left build_step data m) k <> None.
Proof.
  revert m. induction data as [|u data IH]; intros m H; simpl in *.
  - destruct H as [H|[]]; exact H.
  - apply IH. unfold build_step. rewrite map_get_set.
    destruct (String.eqb_spec (u_id u) k) as [Heq|Hne]; [left; discriminate|].
    destruct H as [H|[H|H]]; auto.
Qed.

Lemma mapFromDataArray_defined data u :
  In u data -> map_get (mapFromDataArray data) (u_id u) <> None.
Proof.
  intros H. apply fold_build_defined. right. apply in_map. exact H.
Qed.

Lemma fold_build_other data m k :
  ~ In k (map u_id data) ->
  map_get (fold_left build_step data m) k = map_get m k.
Proof.
  revert m. induction data as [|u data IH]; intros m H; [reflexivity|].
  simpl in *. rewrite IH by tauto. unfold build_step. rewrite map_get_set.
  destruct (String.eqb_spec (u_id u) k); [tauto|reflexivity].
Qed.

Lemma mapFromDataArray_unique data u :
  NoDup (map u_id data) -> In u data ->
  map_get (mapFromDataArray data) (u_id u) = Some u.
Proof.
  unfold mapFromDataArray. fold build_step. generalize (@nil (string * UserData)).
  induction data as [|x data IH]; intros m Hnd Hin; [destruct Hin|].
  simpl in Hnd. inversion Hnd as [|? ? Hx Hnd']; subst.
  destruct Hin as [->|Hin].
  - simpl. rewrite fold_build_other by exact Hx.
    unfold build_step. rewrite map_get_set, String.eqb_refl. reflexivity.
  - simpl. apply IH; assumption.
Qed.

Lemma map_keys_In m k : In k (map_keys m) <-> map_get m k <> None.
Proof.
  induction m as [|[k0 v0] m IH]; simpl.
  - split; [intros []|intros H; apply H; reflexivity].
  - destruct (String.eqb_spec k0 k) as [->|Hne].
    + split; [discriminate|auto].
    + rewrite <- IH. split; [intros [H|H]; [congruence|exact H]|auto].
Qed.

Lemma set_add_In s y x : In x (set_add s y) <-> In x s \/ x = y.
Proof.
  unfold set_add. destruct (existsb (String.eqb y) s) eqn:E.
  - apply existsb_exists in E. destruct E as (z & Hz & Ez).
    apply String.eqb_eq in Ez. subst z. split; [auto|intros [H| ->]; auto].
  - rewrite in_app_iff. simpl.
    split; intros [H|H];
      [left; exact H | right; destruct H as [H|[]]; symmetry; exact H
      | left; exact H | right; left; symmetry; exact H].
Qed.

Lemma set_of_list_In xs x : In x (set_of_list xs) <-> In x xs.
Proof.
  unfold set_of_list.
  assert (G : forall acc, In x (fold_left set_add xs acc) <-> In x acc \/ In x xs).
  { induction xs as [|y xs IH]; intros acc; simpl.
    - tauto.
    - rewrite IH, set_add_In. intuition. }
  rewrite G. simpl. tauto.
Qed.

(* ------------------------------------------------------------------ *)
(** ** Lemmas on [computePeriodDelta] *)

Definition ids_of (startData endData : list UserData) : list string :=
  set_of_list (map_keys (mapFromDataArray startData) ++ map_keys (mapFromDataArray endData)).

Definition users_before_sort (startData endData : list UserData) (meId : option string)
  : list UserRanking :=
  collect_users (mapFromDataArray startData) (mapFromDataArray endData) meId
                (ids_of startData endData).

Lemma dr_users_eq s e me :
  dr_users (computePeriodDelta s e me) =
  sort_by_cost_desc (map (set_share (sum_costs (users_before_sort s e me)))
                         (users_before_sort s e me)).
Proof. reflexivity. Qed.

Lemma dr_totalCost_eq s e me :
  dr_totalCost (computePeriodDelta s e me) = toFixed6_num (sum_costs (users_before_sort s e me)).
Proof. reflexivity. Qed.

Lemma collect_users_In st en me ids r :
  In r (collect_users st en me ids) <-> exists id, In id ids /\ rank_user st en me id = Some r.
Proof.
  induction ids as [|id ids IH]; simpl.
  - split; [intros []|intros (? & [] & _)].
  - destruct (rank_user st en me id) as [u|] eqn:E; simpl; rewrite IH.
    + split.
      * intros [<-|(i & Hi & Hr)]; eauto.
      * intros (i & [<-|Hi] & Hr); [left; congruence|eauto].
    + split.
      * intros (i & Hi & Hr); eauto.
      * intros (i & [<-|Hi] & Hr); [congruence|eauto].
Qed.

Lemma insert_by_cost_perm x l : Permutation (x :: l) (insert_by_cost x l).
Proof.
  induction l as [|y l IH]; simpl; [reflexivity|].
  destruct (negb (Qle_bool (r_cost x) (r_cost y))); [reflexivity|].
  transitivity (y :: x :: l); [apply perm_swap|]. constructor. exact IH.
Qed.

Lemma sort_by_cost_desc_perm l : Permutation l (sort_by_cost_desc l).
Proof.
  unfold sort_by_cost_desc.
  assert (G : forall acc, Permutation (acc ++ l)
                (fold_left (fun acc x => insert_by_cost x acc) l acc)).
  { induction l as [|x l IH]; intros acc; simpl.
    - rewrite app_nil_r. reflexivity.
    - rewrite <- IH. rewrite <- Permutation_middle.
      apply (Permutation_app_tail l (insert_by_cost_perm x acc)). }
  apply (G []).
Qed.

Definition cost_desc (a b : UserRanking) : Prop := r_cost b <= r_cost a.

Lemma insert_by_cost_sorted x l :
  Sorted cost_desc l -> Sorted cost_desc (insert_by_cost x l).
Proof.
  induction 1 as [|y l Hs IH Hhd]; simpl; [auto|].
  destruct (Qle_bool (r_cost x) (r_cost y)) eqn:E; simpl.
  - apply Qle_bool_iff in E. constructor; [exact IH|].
    destruct l as [|z l]; simpl; [constructor; exact E|].
    inversion Hhd; subst.
    destruct (negb (Qle_bool (r_cost x) (r_cost z))); constructor; assumption.
  - constructor; [constructor; assumption|]. constructor.
    unfold cost_desc. apply Qlt_le_weak, Qnot_le_lt. intros H.
    apply Qle_bool_iff in H. congruence.
Qed.

Lemma sort_by_cost_desc_sorted l : Sorted cost_desc (sort_by_cost_desc l).
Proof.
  unfold sort_by_cost_desc.
  assert (G : forall acc, Sorted cost_desc acc ->
                Sorted cost_desc (fold_left (fun acc x => insert_by_cost x acc) l acc)).
  { induction l as [|x l IH]; intros acc H; simpl; [exact H|].
    apply IH, insert_by_cost_sorted, H. }
  apply G. constructor.
Qed.

Lemma dr_users_In s e me r :
  In r (dr_users (computePeriodDelta s e me)) <->
  exists id r0, In id (ids_of s e) /\
    rank_user (mapFromDataArray s) (mapFromDataArray e) me id = Some r0 /\
    r = set_share (sum_costs (users_before_sort s e me)) r0.
Proof.
  rewrite dr_users_eq. split.
  - intros H. apply (Permutation_in _ (Permutation_sym (sort_by_cost_desc_perm _))) in H.
    apply in_map_iff in H. destruct H as (r0 & <- & H).
    apply collect_users_In in H. destruct H as (id & Hid & Hr). eauto.
  - intros (id & r0 & Hid & Hr & ->).
    apply (Permutation_in _ (sort_by_cost_desc_perm _)).
    apply in_map. apply collect_users_In. eauto.
Qed.

(* ------------------------------------------------------------------ *)
(** ** Lemmas on the numbers *)

Lemma Qmake_nonneg (z : Z) (d : positive) : (0 <= z)%Z -> 0 <= Qmake z d.
Proof. intros H. unfold Qle. simpl. lia. Qed.

Lemma clamp_delta_nonneg d : 0 <= clamp_delta d.
Proof.
  destruct d as [q| |b]; simpl; try apply Qle_refl.
  destruct (Qle_bool 0 q) eqn:E; [apply Qle_bool_iff; exact E|apply Qle_refl].
Qed.

Lemma Qfloor_nonneg q : 0 <= q -> (0 <= Qfloor q)%Z.
Proof.
  intros H. change 0%Z with (Qfloor 0). apply Qfloor_resp_le. exact H.
Qed.

Lemma toFixed6_shape q :
  0 <= q ->
  0 <= toFixed6 q /\
  (inject_Z (10 ^ 21) <= toFixed6 q \/ exists z, (0 <= z)%Z /\ toFixed6 q = Qmake z 1000000).
Proof.
  intros H. unfold toFixed6. rewrite (proj2 (Qle_bool_iff 0 q) H).
  unfold toFixed6_abs. destruct (Qle_bool (inject_Z (10 ^ 21)) q) eqn:E.
  - apply Qle_bool_iff in E. auto.
  - assert (Hz : (0 <= Qfloor (q * inject_Z 1000000 + (1 # 2)))%Z).
    { apply Qfloor_nonneg.
      apply (Qle_trans _ (q * inject_Z 1000000 + 0)).
      - rewrite Qplus_0_r. apply Qmult_le_0_compat; [exact H|discriminate].
      - apply Qplus_le_compat; [apply Qle_refl|discriminate]. }
    split; [apply Qmake_nonneg, Hz|]. right. eauto.
Qed.

Lemma toFixed6_nonneg q : 0 <= q -> 0 <= toFixed6 q.
Proof. intros H. apply (toFixed6_shape q H). Qed.

Lemma Qle_bool_compat_l x y z : x == y -> Qle_bool x z = Qle_bool y z.
Proof.
  intros H. destruct (Qle_bool y z) eqn:E.
  - apply Qle_bool_iff. apply Qle_bool_iff in E. rewrite H. exact E.
  - destruct (Qle_bool x z) eqn:E'; [|reflexivity].
    apply Qle_bool_iff in E'. rewrite H in E'. apply Qle_bool_iff in E'. congruence.
Qed.

Lemma Qle_bool_compat_r x y z : x == y -> Qle_bool z x = Qle_bool z y.
Proof.
  intros H. destruct (Qle_bool z y) eqn:E.
  - apply Qle_bool_iff. apply Qle_bool_iff in E. rewrite H. exact E.
  - destruct (Qle_bool z x) eqn:E'; [|reflexivity].
    apply Qle_bool_iff in E'. rewrite H in E'. apply Qle_bool_iff in E'. congruence.
Qed.

Lemma toFixed6_abs_compat x y : x == y -> toFixed6_abs x == toFixed6_abs y.
Proof.
  intros H. unfold toFixed6_abs. rewrite (Qle_bool_compat_r _ _ _ H).
  destruct (Qle_bool (inject_Z (10 ^ 21)) y); [exact H|].
  rewrite H. reflexivity.
Qed.

Lemma toFixed6_compat x y : x == y -> toFixed6 x == toFixed6 y.
Proof.
  intros H. unfold toFixed6. rewrite (Qle_bool_compat_r _ _ _ H).
  destruct (Qle_bool 0 y).
  - apply toFixed6_abs_compat, H.
  - apply Qopp_comp, toFixed6_abs_compat. rewrite H. reflexivity.
Qed.

(** A sum of values already printed with six decimals prints as itself. *)
Lemma toFixed6_fixed z : (0 <= z)%Z -> Qmake z 1000000 < inject_Z (10 ^ 21) ->
  toFixed6 (Qmake z 1000000) == Qmake z 1000000.
Proof.
  intros Hz Hlt. unfold toFixed6.
  rewrite (proj2 (Qle_bool_iff 0 _) (Qmake_nonneg z _ Hz)).
  unfold toFixed6_abs.
  destruct (Qle_bool (inject_Z (10 ^ 21)) (Qmake z 1000000)) eqn:E.
  - apply Qle_bool_iff in E. exfalso. apply (Qlt_not_le _ _ Hlt E).
  - assert (Hf : Qfloor (Qmake z 1000000 * inject_Z 1000000 + (1 # 2)) = z).
    { unfold Qfloor, Qmult, Qplus, inject_Z. simpl.
      symmetry. apply Z.div_unique with (r := 1000000%Z); lia. }
    rewrite Hf. reflexivity.
Qed.

Definition fixed6_cost (r : UserRanking) : Prop :=
  0 <= r_cost r /\
  (inject_Z (10 ^ 21) <= r_cost r \/ exists z, (0 <= z)%Z /\ r_cost r = Qmake z 1000000).

(* ------------------------------------------------------------------ *)
(** ** Lemmas on binary64 rounding *)

(** *** powers of two *)

Lemma pow2_pos k : 0 < pow2 k.
Proof. unfold pow2. apply Qpower_0_lt. reflexivity. Qed.

Lemma pow2_add a b : pow2 (a + b) == pow2 a * pow2 b.
Proof. unfold pow2. apply Qpower_plus. discriminate. Qed.

Lemma pow2_le a b : (a <= b)%Z -> pow2 a <= pow2 b.
Proof. intros H. unfold pow2. apply Qpower_le_compat_l; [exact H | discriminate]. Qed.

Lemma pow2_lt a b : (a < b)%Z -> pow2 a < pow2 b.
Proof. intros H. unfold pow2. apply Qpower_lt_compat_l; [exact H | reflexivity]. Qed.

Lemma pow2_Z k : (0 <= k)%Z -> pow2 k == inject_Z (2 ^ k).
Proof. intros H. unfold pow2. rewrite Zpower_Qpower by exact H. reflexivity. Qed.

Lemma pow2_succ k : pow2 (k + 1) == 2 * pow2 k.
Proof. rewrite pow2_add. unfold pow2 at 2. simpl. ring. Qed.

Lemma pow2_pred k : pow2 (k - 1) == pow2 k * (1 # 2).
Proof.
  replace k with ((k - 1) + 1)%Z at 2 by ring. rewrite pow2_succ. ring.
Qed.

(** *** exponent *)

Lemma exponent_of_spec x :
  0 < x -> pow2 (exponent_of x) <= x /\ x < pow2 (exponent_of x + 1).
Proof.
  intros Hx. destruct x as [a b]. unfold exponent_of. simpl Qnum; simpl Qden.
  assert (Ha : (0 < a)%Z).
  { unfold Qlt in Hx. simpl in Hx. lia. }
  pose proof (Z.log2_spec a Ha) as [Ha1 Ha2].
  assert (Hb : (0 < Z.pos b)%Z) by lia.
  pose proof (Z.log2_spec (Z.pos b) Hb) as [Hb1 Hb2].
  pose proof (Z.log2_nonneg a) as Hla. pose proof (Z.log2_nonneg (Z.pos b)) as Hlb.
  set (la := Z.log2 a) in *. set (lb := Z.log2 (Z.pos b)) in *.
  assert (HA : inject_Z (2 ^ la) <= inject_Z a) by (rewrite <- Zle_Qle; exact Ha1).
  assert (HA' : inject_Z a < inject_Z (2 ^ Z.succ la)) by (rewrite <- Zlt_Qlt; exact Ha2).
  assert (HB : inject_Z (2 ^ lb) <= inject_Z (Z.pos b)) by (rewrite <- Zle_Qle; exact Hb1).
  assert (HB' : inject_Z (Z.pos b) < inject_Z (2 ^ Z.succ lb)) by (rewrite <- Zlt_Qlt; exact Hb2).
  rewrite <- !pow2_Z in HA, HA', HB, HB' by lia.
  assert (Hxb : (a # b) * inject_Z (Z.pos b) == inject_Z a).
  { rewrite Qmake_Qdiv. field. intro Hd. discriminate Hd. }
  assert (Hxpos : 0 < a # b) by exact Hx.
  assert (E1 : pow2 (la - lb) * pow2 lb == pow2 la).
  { rewrite <- pow2_add. replace (la - lb + lb)%Z with la by ring. reflexivity. }
  assert (E2 : pow2 (Z.succ la) == 2 * pow2 la) by (unfold Z.succ; apply pow2_succ).
  assert (E3 : pow2 (Z.succ lb) == 2 * pow2 lb) by (unfold Z.succ; apply pow2_succ).
  pose proof (pow2_pos lb). pose proof (pow2_pos la). pose proof (pow2_pos (la - lb)).
  (* (la - lb) - 1 < log2 x < (la - lb) + 1 *)
  assert (Hup : (a # b) < 2 * pow2 (la - lb)).
  { assert (H2 : (a # b) * inject_Z (Z.pos b) < 2 * pow2 (la - lb) * inject_Z (Z.pos b)).
    { rewrite Hxb. nra. }
    nra. }
  assert (Hlow : pow2 (la - lb) < 2 * (a # b)).
  { nra. }
  destruct (Qle_bool (pow2 (la - lb)) (a # b)) eqn:Hc.
  - apply Qle_bool_iff in Hc. split; [exact Hc|]. rewrite pow2_succ. exact Hup.
  - assert (Hc' : (a # b) < pow2 (la - lb)).
    { apply Qnot_le_lt. intro Hn. apply Qle_bool_iff in Hn. congruence. }
    split.
    + rewrite pow2_pred. nra.
    + replace (la - lb - 1 + 1)%Z with (la - lb)%Z by ring. exact Hc'.
Qed.

(** *** rounding to an integer, ties to even *)

Lemma Qcompare_Lt_iff p q : (p ?= q) = Lt <-> p < q.
Proof. rewrite Qlt_alt. reflexivity. Qed.

Lemma round_half_even_spec r :
  r - (1 # 2) <= inject_Z (round_half_even r) <= r + (1 # 2) /\
  (Qfloor r <= round_half_even r <= Qfloor r + 1)%Z.
Proof.
  unfold round_half_even.
  pose proof (Qfloor_le r) as H1. pose proof (Qlt_floor r) as H2.
  rewrite inject_Z_plus in H2. change (inject_Z 1) with 1 in H2. set (f := Qfloor r) in *.
  destruct (Qcompare (r - inject_Z f) (1 # 2)) eqn:Hc.
  - apply Qeq_alt in Hc.
    destruct (Z.even f).
    + split; [|lia]. lra.
    + rewrite inject_Z_plus. split; [|lia]. change (inject_Z 1) with 1. lra.
  - apply Qlt_alt in Hc. split; [|lia]. lra.
  - apply Qgt_alt in Hc. rewrite inject_Z_plus. split; [|lia]. change (inject_Z 1) with 1. lra.
Qed.

Lemma round_half_even_comp r r' : r == r' -> round_half_even r = round_half_even r'.
Proof.
  intros H. unfold round_half_even. rewrite (Qfloor_comp r r' H).
  assert (E : r - inject_Z (Qfloor r') == r' - inject_Z (Qfloor r')) by (rewrite H; reflexivity).
  rewrite (Qcompare_comp _ _ E (1 # 2) (1 # 2) (Qeq_refl _)). reflexivity.
Qed.

Lemma round_half_even_Z z : round_half_even (inject_Z z) = z.
Proof.
  unfold round_half_even. rewrite Qfloor_Z.
  assert (E : inject_Z z - inject_Z z == 0) by ring.
  rewrite (Qcompare_comp _ _ E (1 # 2) (1 # 2) (Qeq_refl _)). reflexivity.
Qed.

Lemma floor_ge_Z (n : Z) r : inject_Z n <= r -> (n <= Qfloor r)%Z.
Proof.
  intros H. apply Qfloor_resp_le in H. rewrite Qfloor_Z in H. exact H.
Qed.

Lemma floor_lt_Z (n : Z) r : r < inject_Z n -> (Qfloor r < n)%Z.
Proof.
  intros H. pose proof (Qfloor_le r). assert (inject_Z (Qfloor r) < inject_Z n) by lra.
  rewrite <- Zlt_Qlt in H1. exact H1.
Qed.

(** *** the rounded value *)

Lemma quantum_of_le x : (exponent_of x - 52 <= quantum_of x)%Z /\ (-1074 <= quantum_of x)%Z.
Proof. unfold quantum_of. lia. Qed.

Lemma round_pos_value_err x :
  0 < x ->
  x - pow2 (quantum_of x - 1) <= round_pos_value x <= x + pow2 (quantum_of x - 1).
Proof.
  intros Hx. unfold round_pos_value. set (q := quantum_of x).
  pose proof (pow2_pos q) as Hq.
  destruct (round_half_even_spec (x / pow2 q)) as [[H1 H2] _].
  set (m := inject_Z (round_half_even (x / pow2 q))) in *.
  assert (E : x / pow2 q * pow2 q == x) by (field; lra).
  rewrite pow2_pred.
  split; nra.
Qed.

Lemma quantum_err_bound x :
  0 < x -> pow2 (quantum_of x - 1) <= ulp53 * x + eta.
Proof.
  intros Hx. destruct (exponent_of_spec x Hx) as [He _].
  unfold ulp53, eta, quantum_of. set (e := exponent_of x) in *.
  pose proof (pow2_pos (-53)). pose proof (pow2_pos (-1075)).
  destruct (Z.max_spec (e - 52) (-1074)) as [[Hm Heq] | [Hm Heq]]; rewrite Heq.
  - replace (-1074 - 1)%Z with (-1075)%Z by reflexivity. nra.
  - replace (e - 52 - 1)%Z with (e + -53)%Z by ring. rewrite pow2_add. nra.
Qed.

Definition multiple_1074 (a : Q) : Prop := exists z, a == inject_Z z * pow2 (-1074).

Lemma round_pos_value_err_mult x :
  0 < x -> multiple_1074 x ->
  x - ulp53 * x <= round_pos_value x <= x + ulp53 * x.
Proof.
  intros Hx [z Hz].
  destruct (exponent_of_spec x Hx) as [He _].
  pose proof (pow2_pos (-53)) as Hu. fold ulp53 in Hu.
  unfold quantum_of in *. set (e := exponent_of x) in *.
  destruct (Z.max_spec (e - 52) (-1074)) as [[Hm Heq] | [Hm Heq]].
  - unfold round_pos_value, quantum_of. fold e. rewrite Heq.
    assert (E : x / pow2 (-1074) == inject_Z z).
    { rewrite Hz. field. pose proof (pow2_pos (-1074)). lra. }
    rewrite (round_half_even_comp _ _ E), round_half_even_Z, <- Hz. nra.
  - pose proof (round_pos_value_err x Hx) as [H1 H2].
    unfold quantum_of in H1, H2. fold e in H1, H2. rewrite Heq in H1, H2.
    replace (e - 52 - 1)%Z with (e + -53)%Z in H1, H2 by ring.
    rewrite pow2_add in H1, H2. fold ulp53 in H1, H2. nra.
Qed.

Lemma round_pos_value_bounds x :
  0 < x ->
  x - (ulp53 * x + eta) <= round_pos_value x <= x + (ulp53 * x + eta).
Proof.
  intros Hx. pose proof (round_pos_value_err x Hx). pose proof (quantum_err_bound x Hx). lra.
Qed.

Lemma round_pos_value_ge_binade x :
  0 < x -> (-1074 <= exponent_of x)%Z -> pow2 (exponent_of x) <= round_pos_value x.
Proof.
  intros Hx He. destruct (exponent_of_spec x Hx) as [H1 _].
  unfold round_pos_value. set (q := quantum_of x). set (e := exponent_of x) in *.
  assert (Hqe : (q <= e)%Z) by (unfold q, quantum_of; fold e; lia).
  pose proof (pow2_pos q) as Hq.
  assert (Hr : inject_Z (2 ^ (e - q)) <= x / pow2 q).
  { rewrite <- pow2_Z by lia. apply Qle_shift_div_l; [exact Hq|].
    rewrite <- pow2_add. replace (e - q + q)%Z with e by ring. exact H1. }
  apply floor_ge_Z in Hr.
  destruct (round_half_even_spec (x / pow2 q)) as [_ [Hf _]].
  assert (Hm : inject_Z (2 ^ (e - q)) <= inject_Z (round_half_even (x / pow2 q))).
  { rewrite <- Zle_Qle. lia. }
  rewrite <- pow2_Z in Hm by lia.
  assert (E : pow2 e == pow2 (e - q) * pow2 q).
  { rewrite <- pow2_add. replace (e - q + q)%Z with e by ring. reflexivity. }
  rewrite E. apply Qmult_le_compat_r; [exact Hm | lra].
Qed.

Lemma pow2_lt_inv a b : pow2 a < pow2 b -> (a < b)%Z.
Proof. intros H. unfold pow2 in H. apply Qpower_lt_compat_l_inv in H; [exact H | reflexivity]. Qed.

Lemma round_pos_value_nonneg_int x :
  0 < x -> (0 <= round_half_even (x / pow2 (quantum_of x)))%Z.
Proof.
  intros Hx. pose proof (pow2_pos (quantum_of x)).
  assert (H0 : inject_Z 0 <= x / pow2 (quantum_of x)).
  { change (inject_Z 0) with 0. apply Qle_shift_div_l; [assumption|]. lra. }
  apply floor_ge_Z in H0.
  destruct (round_half_even_spec (x / pow2 (quantum_of x))) as [_ [Hf _]]. lia.
Qed.

Lemma round_pos_value_nonneg x : 0 < x -> 0 <= round_pos_value x.
Proof.
  intros Hx. unfold round_pos_value. pose proof (round_pos_value_nonneg_int x Hx).
  pose proof (pow2_pos (quantum_of x)).
  assert (0 <= inject_Z (round_half_even (x / pow2 (quantum_of x)))).
  { change 0 with (inject_Z 0). rewrite <- Zle_Qle. exact H. }
  nra.
Qed.

Lemma round_pos_value_lower x a :
  0 < x -> is_double a -> a <= x -> a <= round_pos_value x.
Proof.
  intros Hx [m [k [Hm [Hk Ha]]]] Hax.
  destruct (Z.eq_dec m 0) as [Hm0 | Hm0].
  { rewrite Ha, Hm0. pose proof (round_pos_value_nonneg x Hx).
    change (inject_Z 0) with 0. lra. }
  pose proof (pow2_pos k) as Hpk.
  assert (Ha1 : pow2 k <= a).
  { rewrite Ha. assert (1 <= inject_Z m) by (change 1 with (inject_Z 1); rewrite <- Zle_Qle; lia).
    nra. }
  destruct (exponent_of_spec x Hx) as [He1 He2].
  set (e := exponent_of x) in *.
  assert (HeL : (-1074 <= e)%Z).
  { destruct (Z_lt_le_dec e (-1074)) as [Hlt|]; [|assumption].
    exfalso. assert (pow2 (e + 1) <= pow2 k) by (apply pow2_le; lia). lra. }
  destruct (Qlt_le_dec (pow2 e) a) as [Hbig | Hsmall].
  2: { pose proof (round_pos_value_ge_binade x Hx HeL). fold e in H. lra. }
  (* [a] lies in the binade of [x]: it is a multiple of the quantum *)
  assert (Hke : (e < k + 53)%Z).
  { apply pow2_lt_inv. rewrite pow2_add, (pow2_Z 53) by lia.
    assert (inject_Z m < inject_Z (2 ^ 53)) by (rewrite <- Zlt_Qlt; lia).
    nra. }
  set (q := quantum_of x).
  assert (Hqk : (q <= k)%Z) by (unfold q, quantum_of; fold e; lia).
  pose proof (pow2_pos q) as Hq.
  assert (Ha' : a == inject_Z (m * 2 ^ (k - q)) * pow2 q).
  { rewrite Ha, inject_Z_mult, <- pow2_Z by lia.
    rewrite <- Qmult_assoc, <- pow2_add. replace (k - q + q)%Z with k by ring. reflexivity. }
  assert (HN : inject_Z (m * 2 ^ (k - q)) <= x / pow2 q).
  { apply Qle_shift_div_l; [exact Hq|]. rewrite <- Ha'. exact Hax. }
  apply floor_ge_Z in HN.
  unfold round_pos_value. fold q.
  destruct (round_half_even_spec (x / pow2 q)) as [_ [Hf _]].
  assert (HM : inject_Z (m * 2 ^ (k - q)) <= inject_Z (round_half_even (x / pow2 q)))
    by (rewrite <- Zle_Qle; lia).
  rewrite Ha'. apply Qmult_le_compat_r; [exact HM | lra].
Qed.

Lemma round_pos_value_double x : 0 < x -> is_double (round_pos_value x).
Proof.
  intros Hx. destruct (exponent_of_spec x Hx) as [_ He2].
  set (e := exponent_of x) in *. set (q := quantum_of x).
  pose proof (pow2_pos q) as Hq.
  assert (Hqe : (e - 52 <= q /\ -1074 <= q)%Z) by (unfold q, quantum_of; fold e; lia).
  assert (Hr : x / pow2 q < inject_Z (2 ^ 53)).
  { rewrite <- pow2_Z by lia. apply Qlt_shift_div_r; [exact Hq|].
    rewrite <- pow2_add. eapply Qlt_le_trans; [exact He2|]. apply pow2_le. lia. }
  apply floor_lt_Z in Hr.
  pose proof (round_pos_value_nonneg_int x Hx) as H0. fold q in H0.
  destruct (round_half_even_spec (x / pow2 q)) as [_ [_ Hf]].
  unfold round_pos_value. fold q.
  set (M := round_half_even (x / pow2 q)) in *.
  destruct (Z.eq_dec M (2 ^ 53)) as [HM | HM].
  - exists (2 ^ 52)%Z, (q + 1)%Z. split; [lia|]. split; [lia|].
    rewrite HM, pow2_succ. change (inject_Z (2 ^ 53)) with (inject_Z (2 ^ 52) * 2). ring.
  - exists M, q. split; [lia|]. split; [lia|]. reflexivity.
Qed.

Definition rounds_to (x y : Q) : Prop :=
  0 <= y /\ is_double y /\
  x - (ulp53 * x + eta) <= y /\ y <= x + (ulp53 * x + eta) /\
  (multiple_1074 x -> x - ulp53 * x <= y /\ y <= x + ulp53 * x) /\
  (forall a, is_double a -> a <= x -> a <= y).

Lemma is_double_0 : is_double 0.
Proof. exists 0%Z, 0%Z. split; [lia|]. split; [lia|]. reflexivity. Qed.

Lemma round_double_nonneg x :
  0 <= x ->
  (round_double x = JInf true /\ pow2 1024 <= x + (ulp53 * x + eta)) \/
  exists y, round_double x = JNum y /\ rounds_to x y.
Proof.
  intros Hx. unfold round_double.
  pose proof (pow2_pos (-53)) as Hu. pose proof (pow2_pos (-1075)) as Heta.
  fold ulp53 in Hu. fold eta in Heta.
  destruct (Qcompare x 0) eqn:Hc.
  - apply Qeq_alt in Hc. right. exists 0. split; [reflexivity|].
    repeat split; try (rewrite Hc; lra).
    + lra.
    + apply is_double_0.
    + intros a _ Ha. rewrite Hc in Ha. exact Ha.
  - apply Qlt_alt in Hc. lra.
  - apply Qgt_alt in Hc. unfold round_pos.
    pose proof (round_pos_value_bounds x Hc) as [Hb1 Hb2].
    destruct (Qle_bool (pow2 1024) (round_pos_value x)) eqn:Ho.
    + left. split; [reflexivity|]. apply Qle_bool_iff in Ho. lra.
    + right. exists (round_pos_value x). split; [reflexivity|].
      split; [apply round_pos_value_nonneg; exact Hc|].
      split; [apply round_pos_value_double; exact Hc|].
      split; [lra|]. split; [lra|]. split.
      * intros Hm. apply round_pos_value_err_mult; assumption.
      * intros a Ha Hax. apply round_pos_value_lower; assumption.
Qed.

Lemma is_double_multiple a : is_double a -> multiple_1074 a.
Proof.
  intros [m [k [_ [Hk Ha]]]]. exists (m * 2 ^ (k + 1074))%Z.
  rewrite Ha, inject_Z_mult, <- pow2_Z by lia.
  rewrite <- Qmult_assoc, <- pow2_add. replace (k + 1074 + -1074)%Z with k by ring. reflexivity.
Qed.

Lemma multiple_add a b : multiple_1074 a -> multiple_1074 b -> multiple_1074 (a + b).
Proof.
  intros [z1 H1] [z2 H2]. exists (z1 + z2)%Z. rewrite H1, H2, inject_Z_plus. ring.
Qed.

Definition is_num (v : jsnum) : bool := match v with JNum _ => true | _ => false end.

Lemma fold_dbl_add_not_num ds acc :
  is_num acc = false -> is_num (fold_left dbl_add ds acc) = false.
Proof.
  revert acc. induction ds as [|d ds IH]; intros acc H; simpl; [exact H|].
  apply IH. destruct acc, d; simpl in *; try discriminate; try reflexivity.
  destruct (Bool.eqb _ _); reflexivity.
Qed.

Lemma qpow_nonneg x n : 0 <= x -> 0 <= qpow x n.
Proof. intros H. induction n; simpl; [lra | nra]. Qed.

Lemma qpow_ge1 x n : 1 <= x -> 1 <= qpow x n.
Proof. intros H. induction n; simpl; [lra | nra]. Qed.

Lemma qpow_le1 x n : 0 <= x -> x <= 1 -> qpow x n <= 1.
Proof. intros H0 H1. induction n; simpl; [lra|]. pose proof (qpow_nonneg x n H0). nra. Qed.

Lemma ulp53_bounds : 0 < ulp53 /\ ulp53 < 1 # 2.
Proof. split; [apply pow2_pos | reflexivity]. Qed.

Lemma eta_pos : 0 < eta.
Proof. apply pow2_pos. Qed.

(** The sum of doubles [fold_left dbl_add] from a double [a]. *)
Lemma fold_dbl_add_bounds ds a t :
  0 <= a -> is_double a ->
  Forall (fun d => 0 <= d /\ is_double d) ds ->
  fold_left dbl_add (map JNum ds) (JNum a) = JNum t ->
  qpow (1 - ulp53) (List.length ds) * (a + sum_Q ds) <= t /\
  t <= qpow (1 + ulp53) (List.length ds) * (a + sum_Q ds) /\
  a <= t /\ Forall (fun d => d <= t) ds /\ is_double t.
Proof.
  revert a. induction ds as [|d ds IH]; intros a Ha Hda Hds Hf.
  - simpl in Hf. injection Hf as <-. simpl. repeat split; try lra; auto.
  - inversion Hds as [|? ? [Hd Hdd] Hds']; subst.
    simpl in Hf.
    destruct (ulp53_bounds) as [Hu Hu2].
    assert (Hs : 0 <= a + d) by lra.
    destruct (round_double_nonneg (a + d) Hs) as [[Hinf _] | [a' [Hr Hrt]]].
    + rewrite Hinf in Hf. exfalso.
      pose proof (fold_dbl_add_not_num (map JNum ds) (JInf true) eq_refl) as Hn.
      rewrite Hf in Hn. discriminate.
    + rewrite Hr in Hf.
      destruct Hrt as [Ha'0 [Ha'd [_ [_ [Hm Hlow]]]]].
      destruct (Hm (multiple_add _ _ (is_double_multiple _ Hda) (is_double_multiple _ Hdd)))
        as [Hm1 Hm2].
      assert (Haa' : a <= a') by (apply Hlow; [exact Hda | lra]).
      assert (Hda' : d <= a') by (apply Hlow; [exact Hdd | lra]).
      destruct (IH a' Ha'0 Ha'd Hds' Hf) as [H1 [H2 [H3 [H4 H5]]]].
      assert (HT : 0 <= sum_Q ds).
      { clear -Hds'. induction ds; simpl; [lra|]. inversion Hds'; subst. destruct H1.
        specialize (IHds H2). lra. }
      pose proof (qpow_nonneg (1 - ulp53) (List.length ds) ltac:(lra)) as P1.
      pose proof (qpow_le1 (1 - ulp53) (List.length ds) ltac:(lra) ltac:(lra)) as P2.
      pose proof (qpow_ge1 (1 + ulp53) (List.length ds) ltac:(lra)) as P3.
      simpl List.length. simpl qpow. simpl sum_Q.
      set (P := qpow (1 - ulp53) (List.length ds)) in *.
      set (R := qpow (1 + ulp53) (List.length ds)) in *.
      set (T := sum_Q ds) in *.
      split; [|split; [|split; [|split]]].
      * assert (0 <= P * (a' - (1 - ulp53) * (a + d))) by (apply Qmult_le_0_compat; lra).
        assert (0 <= P * T * ulp53) by (apply Qmult_le_0_compat; [apply Qmult_le_0_compat|]; lra).
        nra.
      * assert (0 <= R * ((1 + ulp53) * (a + d) - a')) by (apply Qmult_le_0_compat; lra).
        assert (0 <= R * T * ulp53) by (apply Qmult_le_0_compat; [apply Qmult_le_0_compat|]; lra).
        nra.
      * lra.
      * constructor; [lra | exact H4].
      * exact H5.
Qed.

Lemma qpow_pos x n : 0 < x -> 0 < qpow x n.
Proof. intros H. induction n; simpl; [lra | nra]. Qed.

Lemma pow2_1024_big : 2 <= pow2 1024.
Proof. rewrite pow2_Z by lia. unfold Qle. simpl. lia. Qed.

Lemma share_bounds d t :
  0 <= d -> d <= t -> 0 < t ->
  exists s, dbl_div (JNum d) (JNum t) = JNum s /\
    (1 - ulp53) * (d / t) - eta <= s /\ s <= (1 + ulp53) * (d / t) + eta.
Proof.
  intros Hd Hdt Ht. unfold dbl_div.
  assert (Hq : Qeq_bool t 0 = false).
  { destruct (Qeq_bool t 0) eqn:E; [|reflexivity]. apply Qeq_bool_eq in E. lra. }
  rewrite Hq.
  assert (Hx0 : 0 <= d / t) by (apply Qle_shift_div_l; lra).
  assert (Hx1 : d / t <= 1) by (apply Qle_shift_div_r; lra).
  destruct ulp53_bounds as [Hu Hu2]. pose proof eta_pos as He.
  assert (Heta : eta <= 1 # 2) by (unfold eta; rewrite <- (pow2_pred 0); apply pow2_le; lia).
  destruct (round_double_nonneg (d / t) Hx0) as [[_ Hinf] | [s [Hs Hst]]].
  - pose proof pow2_1024_big. nra.
  - exists s. split; [exact Hs|]. destruct Hst as [_ [_ [H1 [H2 _]]]]. split; lra.
Qed.

Lemma shares_sum ds t :
  0 < t -> Forall (fun d => 0 <= d /\ d <= t) ds ->
  exists ss, map (fun d => dbl_div (JNum d) (JNum t)) ds = map JNum ss /\
    (1 - ulp53) * (sum_Q ds / t) - inject_Z (Z.of_nat (List.length ds)) * eta <= sum_Q ss /\
    sum_Q ss <= (1 + ulp53) * (sum_Q ds / t) + inject_Z (Z.of_nat (List.length ds)) * eta.
Proof.
  intros Ht. induction ds as [|d ds IH]; intros Hds.
  - exists []. split; [reflexivity|]. simpl sum_Q. simpl List.length.
    change (inject_Z (Z.of_nat 0)) with 0. unfold Qdiv. rewrite Qmult_0_l. split; lra.
  - inversion Hds as [|? ? [Hd Hdt] Hds']; subst.
    destruct (IH Hds') as [ss [Hm [H1 H2]]].
    destruct (share_bounds d t Hd Hdt Ht) as [s [Hs [Hs1 Hs2]]].
    exists (s :: ss). cbn [map sum_Q List.length]. rewrite Hs, Hm. split; [reflexivity|].
    rewrite Nat2Z.inj_succ, <- Z.add_1_l, inject_Z_plus.
    assert (E : (d + sum_Q ds) / t == d / t + sum_Q ds / t) by (field; lra).
    rewrite E. change (inject_Z 1) with 1. split; lra.
Qed.

Lemma shares_sum_total ds t :
  Forall (fun d => 0 <= d /\ is_double d) ds ->
  fold_left dbl_add (map JNum ds) (JNum 0) = JNum t -> 0 < t ->
  exists ss, map (fun d => dbl_div (JNum d) (JNum t)) ds = map JNum ss /\
    (1 - ulp53) / qpow (1 + ulp53) (List.length ds) - inject_Z (Z.of_nat (List.length ds)) * eta
      <= sum_Q ss /\
    sum_Q ss <=
      (1 + ulp53) / qpow (1 - ulp53) (List.length ds) + inject_Z (Z.of_nat (List.length ds)) * eta.
Proof.
  intros Hds Hf Ht.
  destruct (fold_dbl_add_bounds ds 0 t (Qle_refl 0) is_double_0 Hds Hf)
    as [Hlo [Hhi [_ [Hle _]]]].
  assert (Hds' : Forall (fun d => 0 <= d /\ d <= t) ds).
  { apply Forall_forall. intros d Hin.
    pose proof (proj1 (Forall_forall _ _) Hds d Hin) as [Hd _].
    pose proof (proj1 (Forall_forall _ _) Hle d Hin). split; assumption. }
  destruct (shares_sum ds t Ht Hds') as [ss [Hm [H1 H2]]].
  exists ss. split; [exact Hm|].
  destruct ulp53_bounds as [Hu Hu2].
  set (n := List.length ds) in *. set (T := sum_Q ds) in *.
  set (P := qpow (1 - ulp53) n) in *. set (R := qpow (1 + ulp53) n) in *.
  assert (HP : 0 < P) by (apply qpow_pos; lra).
  assert (HR : 0 < R) by (apply qpow_pos; lra).
  assert (HX : T / t * t == T) by (field; lra).
  set (X := T / t) in *.
  assert (HRX : 1 <= R * X) by nra.
  assert (HPX : P * X <= 1) by nra.
  split.
  - assert ((1 - ulp53) / R <= (1 - ulp53) * X).
    { apply Qle_shift_div_r; [exact HR|]. nra. }
    lra.
  - assert ((1 + ulp53) * X <= (1 + ulp53) / P).
    { apply Qle_shift_div_l; [exact HP|]. nra. }
    lra.
Qed.

(* ------------------------------------------------------------------ *)
(** ** The entries of the ranking *)

Lemma rank_user_spec st en me id r :
  rank_user st en me id = Some r ->
  exists endU,
    map_get en id = Some endU /\
    r_rawEnd r = Some endU /\ r_rawStart r = map_get st id /\
    r_id r = (if is_me me id then id else ""%string) /\ r_isMe r = is_me me id /\
    r_cost r = toFixed6 (clamp_delta (js_sub (number_or_zero (u_cost endU))
                                             (number_or_zero (field_of (map_get st id) u_cost)))) /\
    0 <= r_periodTokens r /\ 0 <= r_periodRequests r.
Proof.
  unfold rank_user. destruct (map_get en id) as [endU|] eqn:E; [|discriminate].
  intros H. injection H as <-. exists endU. simpl.
  repeat split; try reflexivity; apply clamp_delta_nonneg.
Qed.

Lemma rank_user_fixed6 st en me id r :
  rank_user st en me id = Some r -> fixed6_cost r.
Proof.
  intros H. destruct (rank_user_spec st en me id r H) as (endU & _ & _ & _ & _ & _ & Hc & _).
  unfold fixed6_cost. rewrite Hc. apply toFixed6_shape, clamp_delta_nonneg.
Qed.

Lemma users_before_sort_fixed6 s e me : Forall fixed6_cost (users_before_sort s e me).
Proof.
  apply Forall_forall. intros r Hr. apply collect_users_In in Hr.
  destruct Hr as (id & _ & Hr). exact (rank_user_fixed6 _ _ _ _ _ Hr).
Qed.

Lemma set_share_fields T r :
  r_id (set_share T r) = r_id r /\ r_cost (set_share T r) = r_cost r /\
  r_isMe (set_share T r) = r_isMe r /\ r_rawStart (set_share T r) = r_rawStart r /\
  r_rawEnd (set_share T r) = r_rawEnd r /\
  r_periodTokens (set_share T r) = r_periodTokens r /\
  r_periodRequests (set_share T r) = r_periodRequests r /\
  r_share (set_share T r) = (if js_pos T then dbl_div (cost_value r) T else JNum 0).
Proof. repeat split. Qed.

(** The id of the user an entry ranks, as carried by its [rawEnd] record
    (the entry's own [id] field is redacted). *)
Definition ranked_user_id (r : UserRanking) : string :=
  match r_rawEnd r with
  | Some u => u_id u
  | None => r_id r
  end.

Lemma dr_users_ranked_ids (s e : list UserData) (me : option string) :
  forall x, In x (map ranked_user_id (dr_users (computePeriodDelta s e me))) <->
            In x (map u_id e).
Proof.
  intros x. rewrite in_map_iff, in_map_iff. split.
  + intros (r & <- & Hr). apply dr_users_In in Hr.
    destruct Hr as (id & r0 & _ & Hr0 & ->).
    destruct (rank_user_spec _ _ _ _ _ Hr0) as (eu & Hget & Hend & _).
    apply mapFromDataArray_get in Hget. destruct Hget as [Hin Hid].
    exists eu. unfold ranked_user_id. simpl. rewrite Hend. auto.
  + intros (u & <- & Hu).
    pose proof (mapFromDataArray_defined e u Hu) as Hdef.
    destruct (map_get (mapFromDataArray e) (u_id u)) as [eu|] eqn:Hget; [|congruence].
    destruct (rank_user (mapFromDataArray s) (mapFromDataArray e) me (u_id u)) as [r0|] eqn:Hr0;
      [|unfold rank_user in Hr0; rewrite Hget in Hr0; discriminate].
    exists (set_share (sum_costs (users_before_sort s e me)) r0). split.
    * destruct (rank_user_spec _ _ _ _ _ Hr0) as (eu' & Hget' & Hend & _).
      rewrite Hget in Hget'. injection Hget' as <-.
      apply mapFromDataArray_get in Hget. destruct Hget as [_ Hid].
      unfold ranked_user_id. simpl. rewrite Hend. exact Hid.
    * apply dr_users_In. exists (u_id u), r0. repeat split; [|exact Hr0].
      unfold ids_of. apply set_of_list_In, in_or_app. right.
      apply map_keys_In. congruence.
Qed.

Lemma dr_users_redacted (s e : list UserData) (me : option string) :
  Forall (fun r => r_isMe r = is_me me (ranked_user_id r) /\
                   r_id r = (if r_isMe r then ranked_user_id r else ""%string))
         (dr_users (computePeriodDelta s e me)).
Proof.
  apply Forall_forall. intros r Hr. apply dr_users_In in Hr.
  destruct Hr as (id & r0 & _ & Hr0 & ->).
  destruct (rank_user_spec _ _ _ _ _ Hr0) as (eu & Hget & Hend & _ & Hid & Hme & _).
  apply mapFromDataArray_get in Hget. destruct Hget as [_ Heu].
  unfold ranked_user_id. simpl. rewrite Hend, Hid, Hme, Heu. auto.
Qed.

(* ------------------------------------------------------------------ *)
(** ** The total and the shares *)

Lemma sum_Q_perm l l' : Permutation l l' -> sum_Q l == sum_Q l'.
Proof.
  induction 1 as [|x l l' _ IH|x y l|l l' l'' _ IH1 _ IH2]; simpl.
  - reflexivity.
  - rewrite IH. reflexivity.
  - ring.
  - rewrite IH1, IH2. reflexivity.
Qed.

Lemma sum_Q_pos ds :
  Forall (fun d => 0 <= d) ds -> 0 < sum_Q ds -> exists d, In d ds /\ 0 < d.
Proof.
  induction ds as [|d ds IH]; simpl; intros Hds Hs; [lra|].
  inversion Hds as [|? ? Hd Hds']; subst.
  destruct (Qlt_le_dec 0 d) as [Hlt|Hle].
  - exists d. auto.
  - destruct IH as (d' & Hin & Hd'); [exact Hds'|lra|]. exists d'. auto.
Qed.

Lemma fold_left_map_comm {A B C} (f : A -> B -> A) (g : C -> B) l a :
  fold_left f (map g l) a = fold_left (fun x y => f x (g y)) l a.
Proof. revert a. induction l as [|x l IH]; intros a; simpl; [reflexivity|apply IH]. Qed.

Lemma sum_costs_fold U : sum_costs U = fold_left dbl_add (map cost_value U) (JNum 0).
Proof. unfold sum_costs. rewrite fold_left_map_comm. reflexivity. Qed.

Lemma pow2_m20_double : is_double (pow2 (-20)).
Proof. exists 1%Z, (-20)%Z. split; [lia|]. split; [lia|]. reflexivity. Qed.

Lemma pow2_m20_le : pow2 (-20) <= 1 # 1000000.
Proof. apply Qle_bool_imp_le. reflexivity. Qed.

Lemma fixed6_cost_pos r : fixed6_cost r -> 0 < r_cost r -> 1 # 1000000 <= r_cost r.
Proof.
  intros [H0 [Hbig|(z & Hz & Hr)]] Hpos.
  - apply (Qle_trans _ (inject_Z (10 ^ 21))); [apply Qle_bool_imp_le; reflexivity|exact Hbig].
  - rewrite Hr in Hpos |- *. unfold Qlt, Qle in *. simpl in *. lia.
Qed.

(** A cost the code adds is [+0], a positive double of at least [2^-20]
    (the least positive cost is [0.000001]), or [Infinity]. *)
Lemma cost_value_cases r :
  fixed6_cost r ->
  cost_value r = JInf true \/
  exists d, cost_value r = JNum d /\ 0 <= d /\ is_double d /\ (0 < d -> pow2 (-20) <= d).
Proof.
  intros Hf. unfold cost_value.
  destruct (round_double_nonneg (r_cost r) (proj1 Hf)) as [[Hinf _]|(y & Hy & Hr)];
    [left; exact Hinf|right].
  exists y. destruct Hr as (Hy0 & Hyd & _ & _ & _ & Hmono). repeat split; try assumption.
  intros Hypos. apply Hmono; [exact pow2_m20_double|].
  apply (Qle_trans _ (1 # 1000000)); [exact pow2_m20_le|].
  apply fixed6_cost_pos; [exact Hf|].
  destruct (Qlt_le_dec 0 (r_cost r)) as [Hlt|Hle]; [exact Hlt|exfalso].
  assert (Hz : r_cost r == 0) by (pose proof (proj1 Hf); lra).
  unfold round_double in Hy. apply Qeq_alt in Hz. rewrite Hz in Hy.
  injection Hy as <-. lra.
Qed.

(** The reduce of line 110 gives [+0], a positive double, or [Infinity]. *)
Lemma sum_costs_sign U :
  Forall fixed6_cost U ->
  (exists t, sum_costs U = JNum t /\ 0 <= t) \/ sum_costs U = JInf true.
Proof.
  intros HU. unfold sum_costs.
  assert (G : forall acc, (exists a, acc = JNum a /\ 0 <= a) \/ acc = JInf true ->
            (exists t, fold_left (fun s u => dbl_add s (cost_value u)) U acc = JNum t /\ 0 <= t) \/
            fold_left (fun s u => dbl_add s (cost_value u)) U acc = JInf true).
  { induction HU as [|u U Hu HU IH]; intros acc Hacc; simpl; [exact Hacc|].
    apply IH.
    destruct (cost_value_cases u Hu) as [Hc|(d & Hc & Hd & _)]; rewrite Hc;
      destruct Hacc as [(a & -> & Ha)| ->]; cbn [dbl_add Bool.eqb]; try (right; reflexivity).
    - assert (Had : 0 <= a + d) by lra.
      destruct (round_double_nonneg (a + d) Had) as [[Hinf _]|(y & Hy & Hr)]; [right; exact Hinf|].
      left. exists y. split; [exact Hy|exact (proj1 Hr)]. }
  apply G. left. exists 0. split; [reflexivity|lra].
Qed.

(** When the reduce ends on a number, every term was a number. *)
Lemma fold_cost_num U acc t :
  fold_left (fun s u => dbl_add s (cost_value u)) U acc = JNum t ->
  is_num acc = true /\ Forall (fun u => is_num (cost_value u) = true) U.
Proof.
  revert acc. induction U as [|u U IH]; intros acc H; simpl in H.
  - subst acc. split; [reflexivity|constructor].
  - destruct (IH _ H) as [Hn HU]. split; [|constructor; [|exact HU]];
      destruct acc, (cost_value u); simpl in Hn |- *;
      try reflexivity; try discriminate; destruct (Bool.eqb _ _); discriminate.
Qed.

Lemma sum_costs_num U t :
  Forall fixed6_cost U -> sum_costs U = JNum t ->
  exists ds, map cost_value U = map JNum ds /\
    Forall (fun d => 0 <= d /\ is_double d /\ (0 < d -> pow2 (-20) <= d)) ds.
Proof.
  intros HU Ht. unfold sum_costs in Ht. apply fold_cost_num in Ht. destruct Ht as [_ Hn].
  induction U as [|u U IH]; [exists []; split; constructor|].
  inversion HU as [|? ? Hu HU']; subst. inversion Hn as [|? ? Hnu Hn']; subst.
  destruct (IH HU' Hn') as (ds & Hds & Hall).
  destruct (cost_value_cases u Hu) as [Hc|(d & Hc & Hd)]; [rewrite Hc in Hnu; discriminate|].
  exists (d :: ds). simpl. rewrite Hc, Hds. split; [reflexivity|constructor; assumption].
Qed.

(** A positive finite total is at least [2^-20], so [toFixed(6)] keeps it
    positive. *)
Lemma sum_costs_pos_min U t :
  Forall fixed6_cost U -> sum_costs U = JNum t -> 0 < t -> pow2 (-20) <= t.
Proof.
  intros HU Ht Hpos.
  destruct (sum_costs_num U t HU Ht) as (ds & Hds & Hall).
  rewrite sum_costs_fold, Hds in Ht.
  assert (Hall' : Forall (fun d => 0 <= d /\ is_double d) ds)
    by (eapply Forall_impl; [|exact Hall]; intros d (H1 & H2 & _); auto).
  destruct (fold_dbl_add_bounds ds 0 t (Qle_refl 0) is_double_0 Hall' Ht)
    as (_ & Hhi & _ & Hle & _).
  assert (Hs : 0 < sum_Q ds).
  { destruct (Qlt_le_dec 0 (sum_Q ds)) as [H|H]; [exact H|exfalso].
    assert (Hq : 0 <= qpow (1 + ulp53) (List.length ds))
      by (apply qpow_nonneg; pose proof ulp53_bounds; lra).
    assert (H0 : 0 <= sum_Q ds).
    { clear -Hall'. induction Hall' as [|d ds [Hd _] _ IH]; simpl; lra. }
    assert (Hz : sum_Q ds == 0) by lra. rewrite Hz in Hhi. lra. }
  destruct (sum_Q_pos ds) as (d & Hin & Hd);
    [eapply Forall_impl; [|exact Hall]; intros x (H1 & _); exact H1|exact Hs|].
  rewrite Forall_forall in Hall, Hle.
  destruct (Hall d Hin) as (_ & _ & Hmin).
  apply (Qle_trans _ d); [exact (Hmin Hd)|exact (Hle d Hin)].
Qed.

Lemma toFixed6_pos t : pow2 (-20) <= t -> 0 < toFixed6 t.
Proof.
  intros Ht. assert (Ht0 : 0 <= t) by (pose proof (pow2_pos (-20)); lra).
  unfold toFixed6. rewrite (proj2 (Qle_bool_iff 0 t) Ht0). unfold toFixed6_abs.
  destruct (Qle_bool (inject_Z (10 ^ 21)) t) eqn:E.
  - apply Qle_bool_iff in E. apply (Qlt_le_trans _ (inject_Z (10 ^ 21))); [reflexivity|exact E].
  - assert (Hf : (1 <= Qfloor (t * inject_Z 1000000 + (1 # 2)))%Z).
    { change 1%Z with (Qfloor (inject_Z 1)). apply Qfloor_resp_le.
      apply (Qle_trans _ (pow2 (-20) * inject_Z 1000000 + (1 # 2)));
        [apply Qle_bool_imp_le; reflexivity|].
      apply Qplus_le_l. apply Qmult_le_compat_r; [exact Ht|discriminate]. }
    revert Hf. generalize (Qfloor (t * inject_Z 1000000 + (1 # 2))). intros z Hz.
    unfold Qlt. simpl. lia.
Qed.

Lemma js_pos_toFixed6_sum U :
  Forall fixed6_cost U -> js_pos (toFixed6_num (sum_costs U)) = js_pos (sum_costs U).
Proof.
  intros HU. destruct (sum_costs_sign U HU) as [(t & Ht & Ht0)|Hinf]; [|rewrite Hinf; reflexivity].
  rewrite Ht. cbn [toFixed6_num js_pos].
  destruct (Qlt_le_dec 0 t) as [Hpos|Hle].
  - pose proof (toFixed6_pos t (sum_costs_pos_min U t HU Ht Hpos)) as Hf.
    destruct (Qle_bool (toFixed6 t) 0) eqn:E1; [apply Qle_bool_iff in E1; lra|].
    destruct (Qle_bool t 0) eqn:E2; [apply Qle_bool_iff in E2; lra|reflexivity].
  - assert (Hz : t == 0) by lra.
    assert (Hf : toFixed6 t == 0) by (rewrite (toFixed6_compat _ _ Hz); reflexivity).
    rewrite (proj2 (Qle_bool_iff (toFixed6 t) 0)) by lra.
    rewrite (proj2 (Qle_bool_iff t 0)) by lra. reflexivity.
Qed.

(* ------------------------------------------------------------------ *)

(* ------------------------------------------------------------------ *)
(** ** Lemmas on [getPeriodSummary] and [getUserDetail] *)

(** The results of the store queries, of the live fetch and of reading a
    snapshot's data; none of them changes the world. *)
Definition list_result (w : World) : Result (list BillingSnapshot) :=
  match listError (db w) with
  | Some msg => Throw (StoreError msg)
  | None => Ok (getSnapshots (db w))
  end.

Definition lookup_result (w : World) (id : option Z) : Result (option BillingSnapshot) :=
  match lookupError (db w) with
  | Some msg => Throw (StoreError msg)
  | None => Ok (match id with Some i => getSnapshotById (db w) i | None => None end)
  end.

Definition live_result (w : World) : Result JsonValue :=
  match getCurrentCosts w with
  | inl data => Ok (JVArray data)
  | inr msg => Throw (UpstreamError msg)
  end.

Definition read_data (o : option BillingSnapshot) : Result JsonValue :=
  match o with
  | None => Ok (JVArray [])
  | Some s =>
      match s_raw_json s with
      | JTValue v | JTQuoted v => Ok v
      | JTQuotedInvalid msg | JTInvalid msg => Throw (JsonSyntaxError msg)
      end
  end.

Definition items_of (data : JsonValue) : Result (list UserData) :=
  match data with
  | JVArray items => Ok items
  | JVNull => Ok []
  | JVNotIterable msg => Throw (JsTypeError msg)
  end.

Definition rthen {A B} (r : Result A) (k : A -> Result B) : Result B :=
  match r with
  | Ok a => k a
  | Throw e => Throw e
  end.

(** [resolvePeriodData] and [getPeriodSummary] as functions of the world. *)
Definition resolved (p : PeriodInfo) (w : World) : Result (JsonValue * JsonValue) :=
  if Z.eqb (p_index p) 0 then
    if truthy (p_endAt p) then
      rthen (list_result w) (fun snaps =>
        result_pair (Ok (JVArray [])) (read_data (find (created_at_is (p_endAt p)) snaps)))
    else result_pair (Ok (JVArray [])) (live_result w)
  else if p_isCurrent p then
    rthen (lookup_result w (p_startSnapshotId p)) (fun o =>
      result_pair (read_data o) (live_result w))
  else
    rthen (lookup_result w (p_startSnapshotId p)) (fun o =>
      rthen (read_data o) (fun sd =>
        rthen (list_result w) (fun snaps =>
          result_pair (Ok sd) (read_data (find (created_at_is (p_endAt p)) snaps))))).

Definition summary_result (i : Z) (me : option string) (w : World) : Result PeriodSummary :=
  rthen (list_result w) (fun snaps =>
    match find_period (periodsOf snaps) i with
    | None => Throw (PeriodNotFound i)
    | Some p =>
        rthen (resolved p w) (fun d =>
          rthen (result_pair (items_of (fst d)) (items_of (snd d))) (fun sded =>
            Ok (summarize p (now_iso w) (computePeriodDelta (fst sded) (snd sded) me))))
    end).

Lemma data_of_eq o w : data_of o w = (read_data o, w).
Proof.
  destruct o as [s|]; [|reflexivity].
  unfold data_of, read_data, parse_raw_json. destruct (s_raw_json s); reflexivity.
Qed.

Lemma dataset_items_eq v w : dataset_items v w = (items_of v, w).
Proof. destruct v; reflexivity. Qed.

Lemma bind_pure {A B} (m : M A) (k : A -> M B) w r :
  m w = (r, w) -> bind m k w = match r with Ok a => k a w | Throw e => (Throw e, w) end.
Proof. intros H. unfold bind. rewrite H. destruct r; reflexivity. Qed.

Lemma resolvePeriodData_eq p w : resolvePeriodData p w = (resolved p w, w).
Proof.
  unfold resolvePeriodData, resolved.
  destruct (Z.eqb (p_index p) 0); [destruct (truthy (p_endAt p))|destruct (p_isCurrent p)].
  - unfold bind at 1, db_getSnapshots. fold (list_result w).
    destruct (list_result w) as [snaps|e]; cbn [rthen]; [|reflexivity].
    rewrite (bind_pure _ _ _ _ (data_of_eq _ _)).
    destruct (read_data _); reflexivity.
  - unfold bind, apiClient_getCurrentCosts, live_result, ret.
    destruct (getCurrentCosts w); reflexivity.
  - unfold bind at 1, db_getSnapshotById. fold (lookup_result w (p_startSnapshotId p)).
    destruct (lookup_result w _) as [o|e]; cbn [rthen]; [|reflexivity].
    rewrite (bind_pure _ _ _ _ (data_of_eq _ _)).
    destruct (read_data o); [|reflexivity].
    unfold bind, apiClient_getCurrentCosts, live_result, ret.
    destruct (getCurrentCosts w); reflexivity.
  - unfold bind at 1, db_getSnapshotById. fold (lookup_result w (p_startSnapshotId p)).
    destruct (lookup_result w _) as [o|e]; cbn [rthen]; [|reflexivity].
    rewrite (bind_pure _ _ _ _ (data_of_eq _ _)).
    destruct (read_data o) as [sd|e]; cbn [rthen]; [|reflexivity].
    unfold bind at 1, db_getSnapshots. fold (list_result w).
    destruct (list_result w) as [snaps|e]; cbn [rthen]; [|reflexivity].
    rewrite (bind_pure _ _ _ _ (data_of_eq _ _)).
    destruct (read_data _); reflexivity.
Qed.

Lemma getPeriodSummary_eq i me w : getPeriodSummary i me w = (summary_result i me w, w).
Proof.
  unfold getPeriodSummary, summary_result, getPeriods.
  unfold bind at 1. unfold bind at 1, db_getSnapshots. fold (list_result w).
  destruct (list_result w) as [snaps|e]; cbn [rthen]; [|reflexivity].
  unfold ret at 1.
  destruct (find_period (periodsOf snaps) i) as [p|]; [|reflexivity].
  rewrite (bind_pure _ _ _ _ (resolvePeriodData_eq _ _)).
  destruct (resolved p w) as [d|e]; cbn [rthen]; [|reflexivity].
  rewrite (bind_pure _ _ _ _ (dataset_items_eq _ _)).
  destruct (items_of (fst d)) as [sd|e]; cbn [result_pair rthen]; [|reflexivity].
  rewrite (bind_pure _ _ _ _ (dataset_items_eq _ _)).
  destruct (items_of (snd d)) as [ed|e]; cbn [result_pair rthen]; [|reflexivity].
  reflexivity.
Qed.

Lemma getPeriodSummary_world i me w : snd (getPeriodSummary i me w) = w.
Proof. rewrite getPeriodSummary_eq. reflexivity. Qed.

Lemma resolvePeriodData_world p w : snd (resolvePeriodData p w) = w.
Proof. rewrite resolvePeriodData_eq. reflexivity. Qed.

Lemma result_pair_ok {A B} (a : Result A) (b : Result B) x y :
  result_pair a b = Ok (x, y) <-> a = Ok x /\ b = Ok y.
Proof.
  destruct a as [a|e]; [destruct b as [b|e]|]; cbn; split; try discriminate;
    try (intros [H1 H2]; discriminate).
  - intros H. injection H as -> ->. auto.
  - intros [H1 H2]. injection H1 as ->. injection H2 as ->. reflexivity.
Qed.

Lemma result_pair_throw {A B} (a : Result A) (b : Result B) e :
  result_pair a b = Throw e -> a = Throw e \/ exists x, a = Ok x /\ b = Throw e.
Proof.
  destruct a as [x|e']; cbn; intros H; [|injection H as ->; left; reflexivity].
  destruct b as [y|e'']; [discriminate|]. injection H as ->. right. exists x. auto.
Qed.

Lemma rthen_throw {A B} (r : Result A) (k : A -> Result B) e :
  rthen r k = Throw e -> r = Throw e \/ exists a, r = Ok a /\ k a = Throw e.
Proof. destruct r as [a|e']; cbn; intros H; [right; eauto|injection H as ->; left; reflexivity]. Qed.

Lemma rthen_ok {A B} (r : Result A) (k : A -> Result B) b :
  rthen r k = Ok b -> exists a, r = Ok a /\ k a = Ok b.
Proof. destruct r as [a|e']; cbn; intros H; [eauto|discriminate]. Qed.

(** A dataset comes from the usage source, from a lookup miss, or from a
    stored payload. *)
Definition value_from (w : World) (v : JsonValue) : Prop :=
  (exists l, v = JVArray l) \/ exists s, stored w s /\ payload_value (s_raw_json s) = Some v.

Lemma read_data_ok w o v :
  (forall s, o = Some s -> stored w s) -> read_data o = Ok v -> value_from w v.
Proof.
  intros Hs. destruct o as [s|]; cbn; intros H.
  - right. exists s. split; [apply Hs; reflexivity|].
    destruct (s_raw_json s); cbn; congruence.
  - injection H as <-. left. eauto.
Qed.

Lemma read_data_error w o e :
  (forall s, o = Some s -> stored w s) -> read_data o = Throw e ->
  error_source w e /\ is_not_found e = false.
Proof.
  intros Hs. destruct o as [s|]; cbn; intros H; [|discriminate].
  destruct (s_raw_json s) eqn:R; try discriminate; injection H as <-;
    (split; [exists s; split; [apply Hs; reflexivity|rewrite R; reflexivity]|reflexivity]).
Qed.

(** The records of a found snapshot whose payload is an array. *)
Definition data_items (o : option BillingSnapshot) : list UserData :=
  match o with
  | Some s => match payload_value (s_raw_json s) with Some (JVArray l) => l | _ => [] end
  | None => []
  end.

Lemma read_data_items o :
  (forall s, o = Some s -> exists items, payload_value (s_raw_json s) = Some (JVArray items)) ->
  read_data o = Ok (JVArray (data_items o)).
Proof.
  destruct o as [s|]; [|reflexivity]. intros H. destruct (H s eq_refl) as (items & Hv).
  cbn [read_data data_items]. rewrite Hv.
  destruct (s_raw_json s); cbn in Hv |- *; try discriminate; injection Hv as ->; reflexivity.
Qed.

Lemma items_of_error w v e :
  value_from w v -> items_of v = Throw e -> error_source w e /\ is_not_found e = false.
Proof.
  intros [(l & ->)|(s & Hs & Hv)] H; [discriminate|].
  destruct v as [l| |msg]; try discriminate. injection H as <-.
  split; [|reflexivity]. exists s. split; [exact Hs|].
  destruct (s_raw_json s); cbn in Hv |- *; try discriminate; injection Hv as ->; reflexivity.
Qed.

Lemma list_result_ok w snaps : list_result w = Ok snaps -> snaps = getSnapshots (db w).
Proof. unfold list_result. destruct (listError (db w)); intros H; congruence. Qed.

Lemma list_result_error w e :
  list_result w = Throw e -> error_source w e /\ is_not_found e = false.
Proof.
  unfold list_result. destruct (listError (db w)) eqn:E; intros H; [|discriminate].
  injection H as <-. cbn. auto.
Qed.

Lemma lookup_result_error w id e :
  lookup_result w id = Throw e -> error_source w e /\ is_not_found e = false.
Proof.
  unfold lookup_result. destruct (lookupError (db w)) eqn:E; intros H; [|discriminate].
  injection H as <-. cbn. auto.
Qed.

Lemma lookup_result_stored w id o s :
  lookup_result w id = Ok o -> o = Some s -> stored w s.
Proof.
  unfold lookup_result. destruct (lookupError (db w)); intros H; [discriminate|].
  injection H as <-. intros Ho. right. destruct id as [i|]; [exists i; exact Ho|discriminate].
Qed.

Lemma find_stored w f s : find f (getSnapshots (db w)) = Some s -> stored w s.
Proof. intros H. left. exact (proj1 (find_some _ _ H)). Qed.

Lemma live_result_error w e :
  live_result w = Throw e -> error_source w e /\ is_not_found e = false.
Proof.
  unfold live_result. destruct (getCurrentCosts w) eqn:E; intros H; [discriminate|].
  injection H as <-. cbn. auto.
Qed.

Lemma live_result_ok w v : live_result w = Ok v -> value_from w v.
Proof.
  unfold live_result. destruct (getCurrentCosts w); intros H; [|discriminate].
  injection H as <-. left. eauto.
Qed.

(** Every failure of [resolvePeriodData] comes from the store, the usage
    source or a stored payload; every dataset it resolves comes from one
    of them too. *)
Lemma resolved_error p w e :
  resolved p w = Throw e -> error_source w e /\ is_not_found e = false.
Proof.
  unfold resolved.
  destruct (Z.eqb (p_index p) 0); [destruct (truthy (p_endAt p))|destruct (p_isCurrent p)];
    intros H.
  - apply rthen_throw in H. destruct H as [H|(snaps & Hl & H)]; [apply list_result_error, H|].
    apply list_result_ok in Hl. subst snaps.
    apply result_pair_throw in H. destruct H as [H|(x & _ & H)]; [discriminate|].
    refine (read_data_error w _ e _ H). intros s Hs. apply (find_stored w _ s Hs).
  - apply result_pair_throw in H. destruct H as [H|(x & _ & H)]; [discriminate|].
    apply live_result_error, H.
  - apply rthen_throw in H. destruct H as [H|(o & Hl & H)]; [apply (lookup_result_error w _ e H)|].
    apply result_pair_throw in H. destruct H as [H|(x & _ & H)].
    + refine (read_data_error w o e _ H). intros s Hs. apply (lookup_result_stored w _ o s Hl Hs).
    + apply live_result_error, H.
  - apply rthen_throw in H. destruct H as [H|(o & Hl & H)]; [apply (lookup_result_error w _ e H)|].
    apply rthen_throw in H. destruct H as [H|(sd & _ & H)].
    + refine (read_data_error w o e _ H). intros s Hs. apply (lookup_result_stored w _ o s Hl Hs).
    + apply rthen_throw in H. destruct H as [H|(snaps & Hs & H)]; [apply list_result_error, H|].
      apply list_result_ok in Hs. subst snaps.
      apply result_pair_throw in H. destruct H as [H|(x & _ & H)]; [discriminate|].
      refine (read_data_error w _ e _ H). intros s Hs. apply (find_stored w _ s Hs).
Qed.

Lemma resolved_ok p w d :
  resolved p w = Ok d -> value_from w (fst d) /\ value_from w (snd d).
Proof.
  destruct d as [sd ed]. unfold resolved.
  assert (Hnil : value_from w (JVArray [])) by (left; eauto).
  destruct (Z.eqb (p_index p) 0); [destruct (truthy (p_endAt p))|destruct (p_isCurrent p)];
    intros H.
  - apply rthen_ok in H. destruct H as (snaps & Hl & H). apply list_result_ok in Hl. subst snaps.
    apply result_pair_ok in H. destruct H as [H1 H2]. injection H1 as <-.
    split; [exact Hnil|]. refine (read_data_ok w _ _ _ H2).
    intros s Hs. apply (find_stored w _ s Hs).
  - apply result_pair_ok in H. destruct H as [H1 H2]. injection H1 as <-.
    split; [exact Hnil|apply live_result_ok, H2].
  - apply rthen_ok in H. destruct H as (o & Hl & H). apply result_pair_ok in H.
    destruct H as [H1 H2]. split; [|apply live_result_ok, H2].
    refine (read_data_ok w o _ _ H1). intros s Hs. apply (lookup_result_stored w _ o s Hl Hs).
  - apply rthen_ok in H. destruct H as (o & Hl & H). apply rthen_ok in H.
    destruct H as (sd' & Hsd & H). apply rthen_ok in H. destruct H as (snaps & Hs & H).
    apply list_result_ok in Hs. subst snaps. apply result_pair_ok in H.
    destruct H as [H1 H2]. injection H1 as <-. split.
    + refine (read_data_ok w o _ _ Hsd). intros s Hs. apply (lookup_result_stored w _ o s Hl Hs).
    + refine (read_data_ok w _ _ _ H2). intros s Hs. apply (find_stored w _ s Hs).
Qed.

Lemma summary_result_ok i me w s :
  summary_result i me w = Ok s ->
  exists p d sd ed, listError (db w) = None /\
    find_period (periodsOf (getSnapshots (db w))) i = Some p /\
    resolved p w = Ok d /\ items_of (fst d) = Ok sd /\ items_of (snd d) = Ok ed /\
    s = summarize p (now_iso w) (computePeriodDelta sd ed me).
Proof.
  unfold summary_result. intros H. apply rthen_ok in H. destruct H as (snaps & Hl & H).
  assert (HE : listError (db w) = None)
    by (unfold list_result in Hl; destruct (listError (db w)); [discriminate|reflexivity]).
  apply list_result_ok in Hl. subst snaps.
  destruct (find_period _ i) as [p|] eqn:F; [|discriminate].
  apply rthen_ok in H. destruct H as (d & Hd & H). apply rthen_ok in H.
  destruct H as ([sd ed] & Hi & H). apply result_pair_ok in Hi. destruct Hi as [H1 H2].
  injection H as <-. exists p, d, sd, ed. auto 7.
Qed.

Lemma getPeriodSummary_ok i me w s :
  fst (getPeriodSummary i me w) = Ok s ->
  exists p d sd ed, listError (db w) = None /\
    find_period (periodsOf (getSnapshots (db w))) i = Some p /\
    resolved p w = Ok d /\ items_of (fst d) = Ok sd /\ items_of (snd d) = Ok ed /\
    s = summarize p (now_iso w) (computePeriodDelta sd ed me).
Proof. rewrite getPeriodSummary_eq. apply summary_result_ok. Qed.

(** Apart from [PeriodNotFound] (the store answers, no period has the
    index), every failure of [getPeriodSummary] comes from the store, the
    usage source or a stored payload. *)
Lemma getPeriodSummary_errors i me w e :
  fst (getPeriodSummary i me w) = Throw e ->
  (e = PeriodNotFound i /\ listError (db w) = None /\
   find_period (periodsOf (getSnapshots (db w))) i = None) \/
  (error_source w e /\ is_not_found e = false).
Proof.
  rewrite getPeriodSummary_eq. cbn [fst]. unfold summary_result. intros H.
  apply rthen_throw in H. destruct H as [H|(snaps & Hl & H)]; [right; apply list_result_error, H|].
  assert (HE : listError (db w) = None)
    by (unfold list_result in Hl; destruct (listError (db w)); [discriminate|reflexivity]).
  apply list_result_ok in Hl. subst snaps.
  destruct (find_period _ i) as [p|] eqn:F; [|injection H as <-; left; auto].
  right. apply rthen_throw in H. destruct H as [H|(d & Hd & H)]; [apply (resolved_error p w e H)|].
  apply resolved_ok in Hd. destruct Hd as [Hs He].
  apply rthen_throw in H. destruct H as [H|(x & _ & H)]; [|discriminate].
  apply result_pair_throw in H. destruct H as [H|(x & _ & H)].
  - apply (items_of_error w _ e Hs H).
  - apply (items_of_error w _ e He H).
Qed.

(** [getPeriodSummary] fails with a "not found" error exactly when the
    store answers and no period has the requested index. *)
Lemma getPeriodSummary_not_found w i me :
  (exists e, fst (getPeriodSummary i me w) = Throw e /\ is_not_found e = true) <->
  listError (db w) = None /\ find_period (periodsOf (getSnapshots (db w))) i = None.
Proof.
  split.
  - intros (e & H & Hn). destruct (getPeriodSummary_errors i me w e H) as [(_ & H1 & H2)|(_ & H1)];
      [auto|congruence].
  - intros [H1 H2]. exists (PeriodNotFound i). split; [|reflexivity].
    rewrite getPeriodSummary_eq. cbn [fst]. unfold summary_result, list_result.
    rewrite H1. cbn [rthen]. rewrite H2. reflexivity.
Qed.

Lemma getUserDetail_unfold i me w :
  fst (getUserDetail i me w) =
  match summary_result i (Some me) w with
  | Ok summary =>
      match find (fun u => String.eqb (r_id u) me) (ps_ranking summary) with
      | None => Throw UserNotFound
      | Some r =>
          Ok {| d_id := r_id r; d_name := r_name r;
                d_startCost := number_or_zero (field_of (r_rawStart r) u_cost);
                d_endCost := number_or_zero (field_of (r_rawEnd r) u_cost);
                d_deltaCost := r_cost r;
                d_rawStart := r_rawStart r; d_rawEnd := r_rawEnd r |}
      end
  | Throw e => Throw e
  end.
Proof.
  unfold getUserDetail. rewrite (bind_pure _ _ _ _ (getPeriodSummary_eq _ _ _)).
  destruct (summary_result i (Some me) w) as [s|e]; [|reflexivity].
  destruct (find _ _); reflexivity.
Qed.

Lemma getUserDetail_errors i me w e :
  fst (getUserDetail i me w) = Throw e ->
  (e = PeriodNotFound i /\ listError (db w) = None /\
   find_period (periodsOf (getSnapshots (db w))) i = None) \/
  (e = UserNotFound /\ exists s, fst (getPeriodSummary i (Some me) w) = Ok s /\
     find (fun u => String.eqb (r_id u) me) (ps_ranking s) = None) \/
  (error_source w e /\ is_not_found e = false).
Proof.
  rewrite getUserDetail_unfold.
  destruct (summary_result i (Some me) w) as [s|e'] eqn:G.
  - destruct (find _ (ps_ranking s)) eqn:F; intros H; [discriminate|].
    injection H as <-. right. left. split; [reflexivity|]. exists s.
    rewrite getPeriodSummary_eq, G. auto.
  - intros H. injection H as <-.
    assert (G' : fst (getPeriodSummary i (Some me) w) = Throw e') by (rewrite getPeriodSummary_eq, G; reflexivity).
    destruct (getPeriodSummary_errors _ _ _ _ G') as [H|H]; [left; exact H|right; right; exact H].
Qed.

Lemma periodsOf_noncurrent_endAt snaps p :
  In p (periodsOf snaps) -> p_isCurrent p = false ->
  exists s, In s snaps /\ p_endAt p = Some (s_created_at s).
Proof.
  destruct snaps as [|s0 rest].
  - intros [<-|[]]. discriminate.
  - rewrite periodsOf_cons. intros [<-|[<-|Hp]] Hc; [discriminate| |].
    + exists s0. simpl. auto.
    + unfold historical_periods in Hp. apply in_flat_map in Hp.
      destruct Hp as (i & Hi & Hp). apply in_seq in Hi.
      destruct (between_period_some (s0 :: rest) i) as (st & en & _ & He & Hb); [lia|].
      rewrite Hb in Hp. destruct Hp as [<-|[]].
      exists en. split; [apply nth_error_In with i; exact He|reflexivity].
Qed.

Lemma find_period_In ps i p : find_period ps i = Some p -> In p ps /\ p_index p = i.
Proof.
  unfold find_period. intros H. split; [apply (find_some _ _ H)|].
  apply find_some in H. apply Z.eqb_eq, H.
Qed.

Lemma resolved_noncurrent p w1 w2 :
  db w1 = db w2 -> p_isCurrent p = false -> truthy (p_endAt p) = true ->
  resolved p w1 = resolved p w2.
Proof.
  intros Hdb Hc Ht. unfold resolved, list_result, lookup_result. rewrite Hc, Ht, Hdb.
  reflexivity.
Qed.

Lemma summarize_now p n1 n2 r :
  truthy (p_endAt p) = true -> summarize p n1 r = summarize p n2 r.
Proof. intros Ht. unfold summarize, with_endAt. rewrite Ht. reflexivity. Qed.

Lemma collect_users_no_end st me ids : collect_users st [] me ids = [].
Proof. induction ids as [|id ids IH]; [reflexivity|]. exact IH. Qed.

Lemma find_self_none s e me :
  me <> ""%string ->
  (find (fun u => String.eqb (r_id u) me) (dr_users (computePeriodDelta s e (Some me))) = None
   <-> ~ In me (map u_id e)).
Proof.
  intros Hme. pose proof (dr_users_redacted s e (Some me)) as Hred.
  rewrite Forall_forall in Hred. split.
  - intros Hnone Hin. apply (proj2 (dr_users_ranked_ids s e (Some me) me)) in Hin.
    apply in_map_iff in Hin. destruct Hin as (r & Hid & Hr).
    destruct (Hred r Hr) as [Hm Hrid]. simpl in Hm. rewrite Hid, String.eqb_refl in Hm.
    rewrite Hm, Hid in Hrid.
    apply (find_none _ _ Hnone) in Hr. rewrite Hrid, String.eqb_refl in Hr. discriminate.
  - intros Hnot. destruct (find _ _) as [r|] eqn:F; [|reflexivity]. exfalso.
    apply find_some in F. destruct F as [Hr Heq]. apply String.eqb_eq in Heq.
    destruct (Hred r Hr) as [_ Hrid].
    destruct (r_isMe r); [|congruence].
    apply Hnot, (proj1 (dr_users_ranked_ids s e (Some me) me)), in_map_iff. exists r. split; [congruence|exact Hr].
Qed.

(** For a non-empty [selfId], the lookup of [getUserDetail] misses exactly
    when the caller has no entry in the ranking. *)
Lemma summary_find_self_none i me w s :
  me <> ""%string -> fst (getPeriodSummary i (Some me) w) = Ok s ->
  (find (fun u => String.eqb (r_id u) me) (ps_ranking s) = None <->
   ~ In me (map ranked_user_id (ps_ranking s))).
Proof.
  intros Hme H. destruct (getPeriodSummary_ok _ _ _ _ H) as (p & d & sd & ed & _ & _ & _ & _ & _ & ->).
  cbn [summarize ps_ranking]. rewrite (find_self_none sd ed me Hme).
  split; intros Hn Hin; apply Hn; apply (dr_users_ranked_ids sd ed (Some me) me); exact Hin.
Qed.

(* ------------------------------------------------------------------ *)

(** ** Claims *)

(** C1. For every snapshot list of length [N], [getPeriods] returns [N + 1]
    periods (when [db.getSnapshots()] answers; its failure is rethrown);
    exactly one of them is current, and it has index [N] and no end; period
    [i] ends where period [i + 1] starts, for every [i < N]; with no
    snapshots the one period is [{index 0, no start, no end, current}]. *)
Theorem getPeriods_partition (w : World) :
  let snaps := getSnapshots (db w) in
  exists ps, getPeriods w = (match listError (db w) with
                             | None => Ok ps
                             | Some msg => Throw (StoreError msg)
                             end, w) /\
    List.length ps = S (List.length snaps) /\
    (exists p, filter p_isCurrent ps = [p] /\
               p_index p = Z.of_nat (List.length snaps) /\ p_endAt p = None) /\
    Forall (boundary_ok ps) (seq 0 (List.length snaps)) /\
    match snaps with
    | [] => ps = [ {| p_index := 0; p_startSnapshotId := None; p_startAt := None;
                      p_endAt := None; p_isCurrent := true |} ]
    | _ :: _ => True
    end.
Proof.
  intros snaps. exists (periodsOf snaps).
  split; [unfold getPeriods, bind, db_getSnapshots, ret; destruct (listError (db w)); reflexivity|]. split; [apply periodsOf_length|]. split; [|split].
  - destruct snaps as [|s0 rest] eqn:Hs.
    + eexists. split; [reflexivity|]. auto.
    + rewrite periodsOf_cons. cbn [filter p_isCurrent].
      rewrite historical_not_current by (simpl; lia).
      eexists. split; [reflexivity|]. auto.
  - apply Forall_forall. intros i Hi. apply in_seq in Hi.
    destruct (periodsOf_find snaps i) as (p & Hp & _ & Hpe & _); [lia|].
    destruct (periodsOf_find snaps (S i)) as (q & Hq & Hqs & _ & _); [lia|].
    unfold boundary_ok. rewrite Hp, Hq, Hpe, Hqs.
    unfold end_boundary, start_boundary.
    rewrite (proj2 (Nat.eqb_neq i (List.length snaps))) by lia.
    destruct (nth_error snaps i) eqn:E; [|apply nth_error_None in E; lia].
    split; [discriminate|reflexivity].
  - destruct snaps; reflexivity.
Qed.

(** C2 (amended). The users ranked by [computePeriodDelta] are exactly the
    ids of [endRecords]: an id only in [startRecords] is never ranked. A
    ranked user has no start record exactly when its id is absent from
    [startRecords]; its start values are then 0, and its cost is its end
    cost clamped and rounded by [toFixed(6)]: for a finite end cost
    [c >= 0] the cost is [c] rounded to six decimals, not [c] itself. *)
Theorem computePeriodDelta_ranked_ids (s e : list UserData) (me : option string) :
  (forall x, In x (map ranked_user_id (dr_users (computePeriodDelta s e me))) <->
             In x (map u_id e)) /\
  Forall (fun r =>
    exists eu, r_rawEnd r = Some eu /\ In eu e /\
      (r_rawStart r = None <-> ~ In (u_id eu) (map u_id s)) /\
      (r_rawStart r = None ->
         forall c, u_cost eu = Some (JNum c) -> 0 <= c -> r_cost r == toFixed6 c))
    (dr_users (computePeriodDelta s e me)).
Proof.
  split; [apply dr_users_ranked_ids|].
  - apply Forall_forall. intros r Hr. apply dr_users_In in Hr.
    destruct Hr as (id & r0 & _ & Hr0 & ->).
    destruct (rank_user_spec _ _ _ _ _ Hr0) as (eu & Hget & Hend & Hstart & _ & _ & Hc & _).
    apply mapFromDataArray_get in Hget. destruct Hget as [Hin Hid]. subst id.
    exists eu. simpl. rewrite Hend, Hstart.
    split; [reflexivity|]. split; [exact Hin|]. split; [split|].
    + intros Hnone Hs. apply in_map_iff in Hs. destruct Hs as (v & Hv & Hvs).
      apply (mapFromDataArray_defined s v Hvs). rewrite Hv. exact Hnone.
    + intros Habs. destruct (map_get (mapFromDataArray s) (u_id eu)) as [v|] eqn:Hv;
        [|reflexivity].
      exfalso. apply mapFromDataArray_get in Hv. destruct Hv as [Hvs Hvid].
      apply Habs. rewrite <- Hvid. apply in_map, Hvs.
    + intros Hnone c Hcost Hc0. rewrite Hc, Hnone, Hcost. simpl.
      assert (Hq : 0 <= c - 0) by (setoid_replace (c - 0) with c by ring; exact Hc0).
      rewrite (proj2 (Qle_bool_iff 0 _) Hq). apply toFixed6_compat. ring.
Qed.

(** C2, counterexample: a user present only in [endRecords] with cost
    [0.1234567] is ranked with cost [0.123457], not with its end cost. *)
Lemma computePeriodDelta_new_user_rounded :
  match dr_users (computePeriodDelta [] [cost_record "u1"%string (1234567 # 10000000)] None) with
  | [r] => r_cost r == 123457 # 1000000 /\ ~ (r_cost r == 1234567 # 10000000)
  | _ => False
  end.
Proof.
  vm_compute. split; [reflexivity|discriminate].
Qed.

(** C3. Every entry of the ranking has a non-negative cost, token delta
    and request delta, whatever the records hold (negative, NaN, infinite
    or missing fields); a counter reset from 50 to 40 gives 0, and the
    clamp applies to the delta, not to the raw fields: from -5 to 10 the
    delta is 15. *)
Theorem computePeriodDelta_nonneg :
  (forall s e me,
     Forall (fun r => 0 <= r_cost r /\ 0 <= r_periodTokens r /\ 0 <= r_periodRequests r)
            (dr_users (computePeriodDelta s e me))) /\
  match dr_users (computePeriodDelta [cost_record "u1"%string 50] [cost_record "u1"%string 40] None) with
  | [r] => r_cost r == 0
  | _ => False
  end /\
  match dr_users (computePeriodDelta [cost_record "u1"%string (-5)] [cost_record "u1"%string 10] None) with
  | [r] => r_cost r == 15
  | _ => False
  end /\
  match dr_users (computePeriodDelta [cost_record "u1"%string 5]
                    [mkUserData "u1" "" (Some (JInf true)) (Some JNaN) None] None) with
  | [r] => r_cost r == 0 /\ r_periodTokens r == 0 /\ r_periodRequests r == 0
  | _ => False
  end.
Proof.
  split; [|split; [|split]].
  2, 3: vm_compute; reflexivity.
  2: vm_compute; repeat split.
  - intros s e me. apply Forall_forall. intros r Hr. apply dr_users_In in Hr.
    destruct Hr as (id & r0 & _ & Hr0 & ->).
    destruct (rank_user_spec _ _ _ _ _ Hr0) as (eu & _ & _ & _ & _ & _ & Hc & Ht & Hq).
    simpl. rewrite Hc. split; [apply toFixed6_nonneg, clamp_delta_nonneg|auto].
Qed.

(** C4 (amended). Let [T] be the [totalCost] of line 110, the double sum
    of the costs before [toFixed(6)]. Each ranked user's share is the double
    nearest [cost / T] when [T > 0] and 0 otherwise; the returned
    [totalCost] is [T] rounded by [toFixed(6)] and is positive exactly when
    [T] is, so all shares are 0 when it is 0; [T] is [+0], a positive
    double or [Infinity]. For a finite positive [T] the shares of the [n]
    entries sum to 1 up to the rounding of the [n] additions and the [n]
    divisions; when the costs sum past the largest double, [T] and the
    returned [totalCost] are [Infinity] and every finite cost has share 0. *)
Theorem computePeriodDelta_shares (s e : list UserData) (me : option string) :
  let res := computePeriodDelta s e me in
  let T := sum_costs (users_before_sort s e me) in
  let n := List.length (dr_users res) in
  Forall (fun r => r_share r = (if js_pos T then dbl_div (cost_value r) T else JNum 0))
         (dr_users res) /\
  dr_totalCost res = toFixed6_num T /\
  js_pos (dr_totalCost res) = js_pos T /\
  (js_pos (dr_totalCost res) = false -> Forall (fun r => r_share r = JNum 0) (dr_users res)) /\
  ((exists t, T = JNum t /\ 0 <= t) \/ T = JInf true) /\
  (forall t, T = JNum t -> 0 < t ->
     exists ss, map r_share (dr_users res) = map JNum ss /\
       (1 - ulp53) / qpow (1 + ulp53) n - inject_Z (Z.of_nat n) * eta <= sum_Q ss /\
       sum_Q ss <= (1 + ulp53) / qpow (1 - ulp53) n + inject_Z (Z.of_nat n) * eta) /\
  (T = JInf true ->
     dr_totalCost res = JInf true /\
     Forall (fun r => r_share r = match cost_value r with JNum _ => JNum 0 | _ => JNaN end)
            (dr_users res)).
Proof.
  intros res T n. subst res n.
  pose proof (users_before_sort_fixed6 s e me) as HU.
  assert (Hsh : forall r, In r (dr_users (computePeriodDelta s e me)) ->
            r_share r = (if js_pos T then dbl_div (cost_value r) T else JNum 0)).
  { intros r Hr. apply dr_users_In in Hr. destruct Hr as (id & r0 & _ & _ & ->).
    reflexivity. }
  assert (Htot : dr_totalCost (computePeriodDelta s e me) = toFixed6_num T)
    by apply dr_totalCost_eq.
  assert (Hpos : js_pos (dr_totalCost (computePeriodDelta s e me)) = js_pos T)
    by (rewrite Htot; apply js_pos_toFixed6_sum, HU).
  split; [apply Forall_forall; exact Hsh|].
  split; [exact Htot|]. split; [exact Hpos|].
  split.
  { rewrite Hpos. intros HF. apply Forall_forall. intros r Hr. rewrite (Hsh r Hr), HF. reflexivity. }
  split; [apply sum_costs_sign, HU|].
  split.
  - intros t Ht Ht0.
    destruct (sum_costs_num _ t HU Ht) as (ds & Hds & Hall).
    assert (Hall' : Forall (fun d => 0 <= d /\ is_double d) ds)
      by (eapply Forall_impl; [|exact Hall]; intros d (H1 & H2 & _); auto).
    assert (Hf : fold_left dbl_add (map JNum ds) (JNum 0) = JNum t)
      by (rewrite <- Hds, <- sum_costs_fold; exact Ht).
    destruct (shares_sum_total ds t Hall' Hf Ht0) as (ss & Hss & Hlo & Hhi).
    assert (HTp : js_pos T = true).
    { rewrite Ht. cbn [js_pos].
      destruct (Qle_bool t 0) eqn:E; [apply Qle_bool_iff in E; lra|reflexivity]. }
    assert (Hmap : map r_share (map (set_share T) (users_before_sort s e me)) = map JNum ss).
    { rewrite <- Hss, map_map. unfold set_share. rewrite HTp. cbn [r_share with_share].
      transitivity (map (fun v => dbl_div v (JNum t)) (map cost_value (users_before_sort s e me))).
      - rewrite map_map. rewrite Ht. reflexivity.
      - rewrite Hds, map_map. reflexivity. }
    assert (Hperm : Permutation (map r_share (dr_users (computePeriodDelta s e me))) (map JNum ss)).
    { rewrite <- Hmap, dr_users_eq. apply Permutation_map. symmetry. apply sort_by_cost_desc_perm. }
    assert (Hlen : List.length (dr_users (computePeriodDelta s e me)) = List.length ds).
    { rewrite <- (length_map r_share (dr_users _)), (Permutation_length Hperm), <- Hss, !length_map.
      reflexivity. }
    pose proof Hperm as Hinv. apply Permutation_map_inv in Hinv.
    destruct Hinv as (ss' & Hss' & Hp).
    exists ss'. split; [exact Hss'|]. rewrite Hlen, <- (sum_Q_perm _ _ Hp). split; assumption.
  - intros Hinf. split; [rewrite Htot, Hinf; reflexivity|].
    apply Forall_forall. intros r Hr. rewrite (Hsh r Hr), Hinf. cbn [js_pos].
    destruct (cost_value r); reflexivity.
Qed.

(** C4, counterexample to the original wording. Two users of cost
    [1e308] each: the double sum overflows, [totalCost] is [Infinity] and
    both shares are 0, which sum to 0, not 1. *)
Theorem computePeriodDelta_shares_overflow :
  let res := computePeriodDelta []
               [cost_record "u1"%string (inject_Z (10 ^ 308));
                cost_record "u2"%string (inject_Z (10 ^ 308))] None in
  dr_totalCost res = JInf true /\ map r_share (dr_users res) = [JNum 0; JNum 0].
Proof. vm_compute. split; reflexivity. Qed.

Global Instance cost_desc_trans : Transitive cost_desc.
Proof. intros a b c Hab Hbc. unfold cost_desc in *. apply (Qle_trans _ (r_cost b)); assumption. Qed.

(** C5. The ranking is sorted by non-increasing cost: every entry costs at
    least as much as every entry after it. *)
Theorem computePeriodDelta_sorted (s e : list UserData) (me : option string) :
  StronglySorted cost_desc (dr_users (computePeriodDelta s e me)).
Proof.
  apply Sorted_StronglySorted; [exact cost_desc_trans|].
  rewrite dr_users_eq. apply sort_by_cost_desc_sorted.
Qed.

(** C6 (code bug). [computePeriodDelta] blanks the [id] field of every
    entry but the caller's, yet each entry carries its user's full end
    record in [rawEnd]: the caller [u1] reads the id [u2] of another user
    from the period summary. *)
Theorem getPeriodSummary_rawEnd_exposes_id :
  match fst (getPeriodSummary 0 (Some "u1"%string) w_fresh) with
  | Ok s =>
      match ps_ranking s with
      | [r] => r_id r = ""%string /\ r_isMe r = false /\
               option_map u_id (r_rawEnd r) = Some "u2"%string
      | _ => False
      end
  | Throw _ => False
  end.
Proof. vm_compute. auto. Qed.

(** C7 (code bug). [getUserDetail] looks the caller up by the redacted
    [id] field of the ranking; with the empty [selfId], which no end record
    carries, it returns the detail of the first ranked user ([u2]) instead
    of failing with "not found" (the sibling lookup in [computePeriodDelta]
    guards [meId]). *)
Theorem getUserDetail_empty_selfId :
  ~ In ""%string (map u_id [bob]) /\
  match fst (getUserDetail 0 "" w_fresh) with
  | Ok d => d_id d = ""%string /\ option_map u_id (d_rawEnd d) = Some "u2"%string
  | Throw _ => False
  end.
Proof.
  split.
  - simpl. intros [H|[]]. discriminate.
  - vm_compute. auto.
Qed.

(** C8. In every period summary, [userCount] is the number of ranking
    entries whose cost is positive. *)
Theorem getPeriodSummary_userCount (i : Z) (me : option string) (w : World)
  (s : PeriodSummary) (H : fst (getPeriodSummary i me w) = Ok s) :
  ps_userCount s = List.length (filter (fun r => negb (Qle_bool (r_cost r) 0)) (ps_ranking s)).
Proof.
  destruct (getPeriodSummary_ok i me w s H) as (p & d & sd & ed & _ & _ & _ & _ & _ & ->).
  reflexivity.
Qed.

Lemma getPeriodSummary_userCount_witness :
  match fst (getPeriodSummary 1 None w_reset) with
  | Ok s => ps_userCount s =
              List.length (filter (fun r => negb (Qle_bool (r_cost r) 0)) (ps_ranking s)) /\
            ps_userCount s = 0%nat /\ List.length (ps_ranking s) = 1%nat
  | Throw _ => False
  end.
Proof.
  destruct (fst (getPeriodSummary 1 None w_reset)) as [s|e] eqn:E.
  - split; [apply (getPeriodSummary_userCount 1 None w_reset s E)|].
    vm_compute in E. injection E as <-. split; reflexivity.
  - vm_compute in E. discriminate.
Defined.

(** C9. Two calls of [getPeriodSummary] with the same index and [selfId]
    over the same snapshot store (whose timestamps are non-empty, as
    [insertSnapshot] writes them) give the same result when the period is
    not the current one, whatever the usage source and the clock say; no
    call changes the world. *)
Theorem getPeriodSummary_deterministic (w1 w2 : World) (i : Z) (me : option string)
  (Hdb : db w1 = db w2)
  (Hwf : Forall (fun s => s_created_at s <> ""%string) (getSnapshots (db w1)))
  (Hnc : period_is_current (getSnapshots (db w1)) i = false) :
  fst (getPeriodSummary i me w1) = fst (getPeriodSummary i me w2) /\
  snd (getPeriodSummary i me w1) = w1 /\ snd (getPeriodSummary i me w2) = w2.
Proof.
  split; [|split; apply getPeriodSummary_world].
  rewrite !getPeriodSummary_eq. cbn [fst]. unfold summary_result, list_result. rewrite <- Hdb.
  destruct (listError (db w1)); cbn [rthen]; [reflexivity|].
  unfold period_is_current in Hnc.
  destruct (find_period (periodsOf (getSnapshots (db w1))) i) as [p|] eqn:F; [|reflexivity].
  apply find_period_In in F. destruct F as [Hin _].
  destruct (periodsOf_noncurrent_endAt _ _ Hin Hnc) as (sn & Hsn & Hend).
  assert (Ht : truthy (p_endAt p) = true).
  { rewrite Hend. simpl. rewrite Forall_forall in Hwf.
    destruct (String.eqb_spec (s_created_at sn) ""); [|reflexivity].
    exfalso. exact (Hwf sn Hsn e). }
  rewrite (resolved_noncurrent p w1 w2 Hdb Hnc Ht).
  destruct (resolved p w2) as [d|e]; cbn [rthen]; [|reflexivity].
  destruct (result_pair _ _) as [[sd ed]|e]; cbn [rthen]; [|reflexivity].
  f_equal. apply summarize_now, Ht.
Qed.

Lemma getPeriodSummary_deterministic_witness :
  fst (getPeriodSummary 1 None w_hist_a) = fst (getPeriodSummary 1 None w_hist_b) /\
  snd (getPeriodSummary 1 None w_hist_a) = w_hist_a /\
  snd (getPeriodSummary 1 None w_hist_b) = w_hist_b.
Proof.
  apply (getPeriodSummary_deterministic w_hist_a w_hist_b 1 None).
  - reflexivity.
  - repeat constructor; simpl; discriminate.
  - vm_compute. reflexivity.
Defined.

(** C10. When a period's start snapshot is not returned by
    [getSnapshotById], or no stored snapshot has its [endAt] as
    [created_at], the data resolved for the period is the empty dataset,
    without any error; the summary is then computed from it: with no start
    data every ranked user has no start record, with no end data the
    ranking is empty. (The other failures of the resolution are kept
    apart: the store queries answer, the snapshots that are found hold an
    array, and the live fetch succeeds.) *)
Theorem resolvePeriodData_missing_snapshot (w : World) (p : PeriodInfo)
  (live : list UserData) (Hlive : getCurrentCosts w = inl live)
  (Hstore : listError (db w) = None /\ lookupError (db w) = None)
  (Hpay : forall s, start_lookup w p = Some s \/ end_lookup w p = Some s ->
            exists items, payload_value (s_raw_json s) = Some (JVArray items)) :
  exists sd ed, resolvePeriodData p w = (Ok (JVArray sd, JVArray ed), w) /\
    (reads_start_snapshot p = true -> start_lookup w p = None -> sd = []) /\
    (reads_end_snapshot p = true -> end_lookup w p = None -> ed = []) /\
    (forall i me, find_period (periodsOf (getSnapshots (db w))) i = Some p ->
       getPeriodSummary i me w =
         (Ok (summarize p (now_iso w) (computePeriodDelta sd ed me)), w)) /\
    (forall me, sd = [] ->
       Forall (fun r => r_rawStart r = None) (dr_users (computePeriodDelta sd ed me))) /\
    (forall me, ed = [] -> dr_users (computePeriodDelta sd ed me) = []).
Proof.
  destruct Hstore as [HL HK].
  assert (Hgen : forall sd ed,
    resolvePeriodData p w = (Ok (JVArray sd, JVArray ed), w) ->
    (forall i me, find_period (periodsOf (getSnapshots (db w))) i = Some p ->
       getPeriodSummary i me w =
         (Ok (summarize p (now_iso w) (computePeriodDelta sd ed me)), w)) /\
    (forall me, sd = [] ->
       Forall (fun r => r_rawStart r = None) (dr_users (computePeriodDelta sd ed me))) /\
    (forall me, ed = [] -> dr_users (computePeriodDelta sd ed me) = [])).
  { intros sd ed R. rewrite resolvePeriodData_eq in R. injection R as R.
    split; [|split].
    - intros i me F. rewrite getPeriodSummary_eq. unfold summary_result, list_result.
      rewrite HL. cbn [rthen]. rewrite F, R. reflexivity.
    - intros me ->. apply Forall_forall. intros r Hr. apply dr_users_In in Hr.
      destruct Hr as (id & r0 & _ & Hr0 & ->).
      destruct (rank_user_spec _ _ _ _ _ Hr0) as (eu & _ & _ & Hs & _). exact Hs.
    - intros me ->. rewrite dr_users_eq. unfold users_before_sort.
      rewrite collect_users_no_end. reflexivity. }
  assert (Hs : read_data (start_lookup w p) = Ok (JVArray (data_items (start_lookup w p))))
    by (apply read_data_items; intros s Hs; apply Hpay; left; exact Hs).
  assert (He : read_data (end_lookup w p) = Ok (JVArray (data_items (end_lookup w p))))
    by (apply read_data_items; intros s He; apply Hpay; right; exact He).
  assert (HlookS : lookup_result w (p_startSnapshotId p) = Ok (start_lookup w p))
    by (unfold lookup_result; rewrite HK; reflexivity).
  assert (HlistE : list_result w = Ok (getSnapshots (db w)))
    by (unfold list_result; rewrite HL; reflexivity).
  assert (Hl : live_result w = Ok (JVArray live)) by (unfold live_result; rewrite Hlive; reflexivity).
  unfold reads_start_snapshot, reads_end_snapshot.
  destruct (Z.eqb (p_index p) 0) eqn:E0; [destruct (truthy (p_endAt p)) eqn:Et|
                                          destruct (p_isCurrent p) eqn:Ec].
  - assert (R : resolvePeriodData p w = (Ok (JVArray [], JVArray (data_items (end_lookup w p))), w)).
    { rewrite resolvePeriodData_eq. unfold resolved. rewrite E0, Et, HlistE. cbn [rthen].
      change (find (created_at_is (p_endAt p)) (getSnapshots (db w))) with (end_lookup w p).
      rewrite He. reflexivity. }
    exists [], (data_items (end_lookup w p)). split; [exact R|].
    split; [discriminate|]. split; [intros _ Hn; rewrite Hn; reflexivity|].
    apply Hgen, R.
  - assert (R : resolvePeriodData p w = (Ok (JVArray [], JVArray live), w)).
    { rewrite resolvePeriodData_eq. unfold resolved. rewrite E0, Et, Hl. reflexivity. }
    exists [], live. split; [exact R|].
    split; [discriminate|]. split; [discriminate|]. apply Hgen, R.
  - assert (R : resolvePeriodData p w =
                (Ok (JVArray (data_items (start_lookup w p)), JVArray live), w)).
    { rewrite resolvePeriodData_eq. unfold resolved. rewrite E0, Ec, HlookS. cbn [rthen].
      rewrite Hs, Hl. reflexivity. }
    exists (data_items (start_lookup w p)), live. split; [exact R|].
    split; [intros _ Hn; rewrite Hn; reflexivity|]. split; [discriminate|].
    apply Hgen, R.
  - assert (R : resolvePeriodData p w =
                (Ok (JVArray (data_items (start_lookup w p)),
                     JVArray (data_items (end_lookup w p))), w)).
    { rewrite resolvePeriodData_eq. unfold resolved. rewrite E0, Ec, HlookS. cbn [rthen].
      rewrite Hs. cbn [rthen]. rewrite HlistE. cbn [rthen].
      change (find (created_at_is (p_endAt p)) (getSnapshots (db w))) with (end_lookup w p).
      rewrite He. reflexivity. }
    exists (data_items (start_lookup w p)), (data_items (end_lookup w p)). split; [exact R|].
    split; [intros _ Hn; rewrite Hn; reflexivity|].
    split; [intros _ Hn; rewrite Hn; reflexivity|].
    apply Hgen, R.
Qed.

Lemma resolvePeriodData_missing_snapshot_witness :
  exists sd ed, resolvePeriodData current_period_1 w_orphan =
                  (Ok (JVArray sd, JVArray ed), w_orphan) /\
    sd = [] /\
    getPeriodSummary 1 None w_orphan =
      (Ok (summarize current_period_1 (now_iso w_orphan) (computePeriodDelta sd ed None)),
       w_orphan).
Proof.
  assert (Hpay : forall s, start_lookup w_orphan current_period_1 = Some s \/
                           end_lookup w_orphan current_period_1 = Some s ->
                   exists items, payload_value (s_raw_json s) = Some (JVArray items))
    by (intros s [H|H]; vm_compute in H; discriminate).
  destruct (resolvePeriodData_missing_snapshot w_orphan current_period_1
              [cost_record "u1" 40] eq_refl (conj eq_refl eq_refl) Hpay)
    as (sd & ed & R & Hs & _ & Hsum & _).
  exists sd, ed. split; [exact R|]. split.
  - apply Hs; reflexivity.
  - apply Hsum. reflexivity.
Defined.

(* ------------------------------------------------------------------ *)
(** ** Further properties: periods and snapshots *)

Lemma periodsOf_find_exact (snaps : list BillingSnapshot) (k : nat) :
  (k <= List.length snaps)%nat ->
  find_period (periodsOf snaps) (Z.of_nat k) = Some (period_at snaps k).
Proof.
  intros Hk. destruct snaps as [|s0 rest].
  - simpl in Hk. assert (k = 0%nat) by lia. subst k. reflexivity.
  - rewrite periodsOf_cons. unfold find_period. cbn [find p_index].
    rewrite Z_of_nat_eqb.
    destruct (Nat.eqb (List.length (s0 :: rest)) k) eqn:Enk.
    + apply Nat.eqb_eq in Enk. subst k.
      unfold period_at, start_boundary, end_boundary. rewrite Nat.eqb_refl.
      change (List.length (s0 :: rest)) with (S (List.length rest)). cbv iota beta.
      replace (List.length rest) with (List.length (s0 :: rest) - 1)%nat by (simpl; lia).
      rewrite (nth_error_last (s0 :: rest) s0) by discriminate.
      reflexivity.
    + apply Nat.eqb_neq in Enk.
      destruct k as [|k'].
      * reflexivity.
      * assert (Hz : Z.eqb 0 (Z.of_nat (S k')) = false) by (apply Z.eqb_neq; lia).
        rewrite Hz.
        fold (find_period (historical_periods (s0 :: rest) 1 (List.length (s0 :: rest) - 1))
                (Z.of_nat (S k'))).
        rewrite historical_find by lia.
        destruct (between_period_some (s0 :: rest) (S k')) as (s & e & Hs1 & He & ->);
          [lia|].
        unfold period_at, start_boundary, end_boundary.
        rewrite (proj2 (Nat.eqb_neq (S k') (List.length (s0 :: rest)))) by lia.
        cbn [Nat.sub] in Hs1. rewrite Nat.sub_0_r in Hs1. rewrite Hs1, He. reflexivity.
Qed.

Lemma periodsOf_index_range snaps p :
  In p (periodsOf snaps) -> (0 <= p_index p <= Z.of_nat (List.length snaps))%Z.
Proof.
  destruct snaps as [|s0 rest].
  - intros [<-|[]]. cbn [p_index]. lia.
  - rewrite periodsOf_cons. intros [<-|[<-|H]]; [cbn [p_index]; lia|cbn [p_index]; lia|].
    unfold historical_periods in H. apply in_flat_map in H.
    destruct H as (i & Hi & Hp). apply in_seq in Hi.
    destruct (between_period_some (s0 :: rest) i) as (s & e & _ & _ & Hb); [lia|].
    rewrite Hb in Hp. destruct Hp as [<-|[]]. cbn [p_index]. lia.
Qed.

Lemma periodsOf_find_out snaps i :
  (i < 0 \/ Z.of_nat (List.length snaps) < i)%Z -> find_period (periodsOf snaps) i = None.
Proof.
  intros H. destruct (find_period (periodsOf snaps) i) as [p|] eqn:F; [|reflexivity].
  apply find_period_In in F. destruct F as [Hin Hi].
  apply periodsOf_index_range in Hin. lia.
Qed.

Lemma period_at_app_hist snaps s k :
  (k < List.length snaps)%nat -> period_at (snaps ++ [s]) k = period_at snaps k.
Proof.
  intros Hk. unfold period_at, start_boundary, end_boundary.
  rewrite length_app. cbn [List.length].
  replace (Nat.eqb k (List.length snaps + 1)) with false by (symmetry; apply Nat.eqb_neq; lia).
  replace (Nat.eqb k (List.length snaps)) with false by (symmetry; apply Nat.eqb_neq; lia).
  rewrite (nth_error_app1 snaps [s] Hk).
  destruct k as [|j]; [reflexivity|]. rewrite nth_error_app1 by lia. reflexivity.
Qed.

Lemma period_at_app_last snaps s :
  period_at (snaps ++ [s]) (List.length snaps) =
    {| p_index := Z.of_nat (List.length snaps);
       p_startSnapshotId := p_startSnapshotId (period_at snaps (List.length snaps));
       p_startAt := p_startAt (period_at snaps (List.length snaps));
       p_endAt := Some (s_created_at s); p_isCurrent := false |}.
Proof.
  unfold period_at, start_boundary, end_boundary. cbn [p_startSnapshotId p_startAt].
  rewrite length_app. cbn [List.length].
  replace (Nat.eqb (List.length snaps) (List.length snaps + 1)) with false
    by (symmetry; apply Nat.eqb_neq; lia).
  rewrite nth_error_app2, Nat.sub_diag by lia. cbn [nth_error option_map].
  destruct (List.length snaps) as [|j] eqn:E; [reflexivity|].
  rewrite !nth_error_app1 by lia. reflexivity.
Qed.

Lemma period_at_app_new snaps s :
  period_at (snaps ++ [s]) (S (List.length snaps)) =
    {| p_index := Z.of_nat (S (List.length snaps)); p_startSnapshotId := Some (s_id s);
       p_startAt := Some (s_created_at s); p_endAt := None; p_isCurrent := true |}.
Proof.
  unfold period_at, start_boundary, end_boundary.
  rewrite length_app. cbn [List.length].
  replace (Nat.eqb (S (List.length snaps)) (List.length snaps + 1)) with true
    by (symmetry; apply Nat.eqb_eq; lia).
  cbv iota beta.
  rewrite nth_error_app2, Nat.sub_diag by lia. reflexivity.
Qed.

Lemma find_app_some {A} (f : A -> bool) (l l' : list A) (x : A) :
  In x l -> f x = true -> find f (l ++ l') = find f l.
Proof.
  intros Hin Hf. induction l as [|a l IH]; [destruct Hin|].
  simpl. destruct (f a) eqn:E; [reflexivity|].
  destruct Hin as [<-|Hin]; [congruence|]. apply IH, Hin.
Qed.

Lemma find_created_at_nth snaps k t :
  NoDup (map s_created_at snaps) -> nth_error snaps k = Some t ->
  find (created_at_is (Some (s_created_at t))) snaps = Some t.
Proof.
  revert k. induction snaps as [|a l IH]; intros k Hnd Hn; [destruct k; discriminate|].
  simpl in Hnd. inversion Hnd as [|? ? Hnotin Hnd']; subst.
  cbn [find created_at_is]. destruct k as [|k].
  - simpl in Hn. injection Hn as ->. rewrite String.eqb_refl. reflexivity.
  - simpl in Hn. destruct (String.eqb_spec (s_created_at a) (s_created_at t)) as [E|E].
    + exfalso. apply Hnotin. rewrite E. apply in_map. apply nth_error_In with k. exact Hn.
    + apply (IH k); assumption.
Qed.

Lemma truthy_created_at snaps t :
  Forall (fun s => s_created_at s <> ""%string) snaps -> In t snaps ->
  truthy (Some (s_created_at t)) = true.
Proof.
  intros Hwf Hin. rewrite Forall_forall in Hwf. simpl.
  destruct (String.eqb_spec (s_created_at t) ""); [|reflexivity].
  exfalso. exact (Hwf t Hin e).
Qed.

Lemma period_at_hist_fields snaps k t :
  nth_error snaps k = Some t ->
  p_endAt (period_at snaps k) = Some (s_created_at t) /\
  p_isCurrent (period_at snaps k) = false.
Proof.
  intros Ek. assert (Hk : (k < List.length snaps)%nat)
    by (apply nth_error_Some; congruence).
  unfold period_at, end_boundary. cbn [p_endAt p_isCurrent].
  rewrite (proj2 (Nat.eqb_neq k (List.length snaps))) by lia. rewrite Ek. auto.
Qed.

Lemma resolved_append (w w' : World) (s : BillingSnapshot) (k : nat) :
  getSnapshots (db w') = getSnapshots (db w) ++ [s] ->
  (forall t, In t (getSnapshots (db w)) ->
     getSnapshotById (db w') (s_id t) = getSnapshotById (db w) (s_id t)) ->
  listError (db w') = listError (db w) -> lookupError (db w') = lookupError (db w) ->
  Forall (fun t => s_created_at t <> ""%string) (getSnapshots (db w)) ->
  (k < List.length (getSnapshots (db w)))%nat ->
  resolved (period_at (getSnapshots (db w)) k) w' =
  resolved (period_at (getSnapshots (db w)) k) w.
Proof.
  intros Hsn Hid HL HK Hwf Hk.
  assert (Hfind : forall tk, In tk (getSnapshots (db w)) ->
            find (created_at_is (Some (s_created_at tk))) (getSnapshots (db w')) =
            find (created_at_is (Some (s_created_at tk))) (getSnapshots (db w))).
  { intros tk Htk. rewrite Hsn. apply find_app_some with tk; [exact Htk|].
    cbn [created_at_is]. apply String.eqb_refl. }
  unfold resolved, list_result, lookup_result.
  remember (getSnapshots (db w)) as snaps eqn:Hs.
  destruct (nth_error snaps k) as [tk|] eqn:Ek; [|apply nth_error_None in Ek; lia].
  destruct (period_at_hist_fields snaps k tk Ek) as [Hend Hcur].
  pose proof (truthy_created_at snaps tk Hwf (nth_error_In _ _ Ek)) as Ht.
  specialize (Hfind tk (nth_error_In _ _ Ek)).
  rewrite Hend, Hcur, Ht, HL, HK.
  destruct (Z.eqb (p_index (period_at snaps k)) 0) eqn:E0.
  - destruct (listError (db w)); cbn [rthen]; [reflexivity|]. rewrite Hfind. reflexivity.
  - destruct k as [|j]; [discriminate|]. cbn [period_at p_startSnapshotId].
    destruct (nth_error snaps j) as [tj|] eqn:Ej; [|apply nth_error_None in Ej; lia].
    cbn [option_map]. rewrite Hid by (apply nth_error_In with j; exact Ej).
    destruct (lookupError (db w)); cbn [rthen]; [reflexivity|].
    destruct (read_data _); cbn [rthen]; [|reflexivity].
    destruct (listError (db w)); cbn [rthen]; [reflexivity|].
    rewrite Hfind. reflexivity.
Qed.

(** X1. Appending a snapshot [s] to a store of [n] snapshots leaves every
    period of index below [n] as it was; period [n], the current one before,
    keeps its start and becomes historical with [s]'s timestamp as end; and
    the new current period [n + 1] starts at [s]. *)
Theorem getPeriods_append_snapshot (snaps : list BillingSnapshot) (s : BillingSnapshot) :
  let n := Z.of_nat (List.length snaps) in
  (forall k, (k < n)%Z ->
     find_period (periodsOf (snaps ++ [s])) k = find_period (periodsOf snaps) k) /\
  (exists p, find_period (periodsOf snaps) n = Some p /\ p_isCurrent p = true /\
     find_period (periodsOf (snaps ++ [s])) n =
       Some {| p_index := n; p_startSnapshotId := p_startSnapshotId p;
               p_startAt := p_startAt p; p_endAt := Some (s_created_at s);
               p_isCurrent := false |}) /\
  find_period (periodsOf (snaps ++ [s])) (n + 1) =
    Some {| p_index := n + 1; p_startSnapshotId := Some (s_id s);
            p_startAt := Some (s_created_at s); p_endAt := None; p_isCurrent := true |}.
Proof.
  intros n. assert (Hlen : List.length (snaps ++ [s]) = S (List.length snaps))
    by (rewrite length_app; simpl; lia).
  split; [|split].
  - intros k Hk. destruct (Z_lt_le_dec k 0) as [Hneg|Hpos].
    + rewrite !periodsOf_find_out by lia. reflexivity.
    + rewrite <- (Z2Nat.id k Hpos).
      rewrite !periodsOf_find_exact by lia.
      rewrite period_at_app_hist by lia. reflexivity.
  - exists (period_at snaps (List.length snaps)).
    split; [apply periodsOf_find_exact; lia|].
    split; [apply Nat.eqb_refl|].
    unfold n. rewrite periodsOf_find_exact by lia.
    rewrite period_at_app_last. reflexivity.
  - unfold n. replace (Z.of_nat (List.length snaps) + 1)%Z
      with (Z.of_nat (S (List.length snaps))) by lia.
    rewrite periodsOf_find_exact by lia. rewrite period_at_app_new. reflexivity.
Qed.

(** X2. Beginning a new period (one snapshot appended to the store, the id
    lookup unchanged on the old snapshots, the store failing or answering
    as before) leaves the summary of every period of index below the former
    snapshot count unchanged, whatever the live data and the clock;
    snapshot timestamps are non-empty. *)
Theorem getPeriodSummary_after_new_snapshot (w w' : World) (s : BillingSnapshot)
  (k : Z) (me : option string)
  (Hsn : getSnapshots (db w') = getSnapshots (db w) ++ [s])
  (Hid : forall t, In t (getSnapshots (db w)) ->
           getSnapshotById (db w') (s_id t) = getSnapshotById (db w) (s_id t))
  (Herr : listError (db w') = listError (db w) /\ lookupError (db w') = lookupError (db w))
  (Hwf : Forall (fun t => s_created_at t <> ""%string) (getSnapshots (db w)))
  (Hk : (k < Z.of_nat (List.length (getSnapshots (db w))))%Z) :
  fst (getPeriodSummary k me w') = fst (getPeriodSummary k me w).
Proof.
  destruct Herr as [HL HK].
  rewrite !getPeriodSummary_eq. cbn [fst]. unfold summary_result, list_result.
  rewrite HL, Hsn. destruct (listError (db w)) eqn:EL; cbn [rthen]; [reflexivity|].
  rewrite <- EL in HL.
  destruct (Z_lt_le_dec k 0) as [Hneg|Hpos].
  - rewrite !periodsOf_find_out by lia. reflexivity.
  - rewrite <- (Z2Nat.id k Hpos).
    assert (Hk' : (Z.to_nat k < List.length (getSnapshots (db w)))%nat) by lia.
    rewrite !periodsOf_find_exact by (rewrite ?length_app; simpl; lia).
    rewrite period_at_app_hist by exact Hk'.
    rewrite (resolved_append w w' s (Z.to_nat k) Hsn Hid HL HK Hwf Hk').
    destruct (nth_error (getSnapshots (db w)) (Z.to_nat k)) as [tk|] eqn:Ek;
      [|apply nth_error_None in Ek; lia].
    destruct (period_at_hist_fields _ _ _ Ek) as [Hend _].
    pose proof (truthy_created_at _ tk Hwf (nth_error_In _ _ Ek)) as Ht.
    rewrite <- Hend in Ht.
    destruct (resolved _ w) as [d|e]; cbn [rthen]; [|reflexivity].
    destruct (result_pair _ _) as [[sd ed]|e]; cbn [rthen]; [|reflexivity].
    f_equal. apply summarize_now, Ht.
Qed.

Lemma getPeriodSummary_after_new_snapshot_witness :
  fst (getPeriodSummary 0 None w_hist_a) =
  fst (getPeriodSummary 0 None (mkWorld (store_of [snap1]) (inl []) "2026-01-15T00:00:00.000Z")).
Proof.
  apply (getPeriodSummary_after_new_snapshot
           (mkWorld (store_of [snap1]) (inl []) "2026-01-15T00:00:00.000Z") w_hist_a snap2 0 None).
  - reflexivity.
  - intros t [<-|[]]. reflexivity.
  - split; reflexivity.
  - repeat constructor. simpl. discriminate.
  - simpl. lia.
Defined.

(** X3. For a store that answers, whose id lookup returns each stored
    snapshot and whose timestamps are distinct and non-empty, the data
    [getPeriodSummary] compares for period [k] of [n] is: from nothing
    (k = 0) or from the decoded payload of snapshot [k - 1], to the decoded
    payload of snapshot [k] when [k < n], and to the live data of the usage
    source for the current period [k = n]; the first failure among these
    (a payload that does not parse, in the order start then end, or the
    failed live fetch) is the error raised. *)
Theorem resolvePeriodData_snapshot_data (w : World) (k : nat) (p : PeriodInfo)
  (Hp : find_period (periodsOf (getSnapshots (db w))) (Z.of_nat k) = Some p)
  (Hid : forall t, In t (getSnapshots (db w)) -> getSnapshotById (db w) (s_id t) = Some t)
  (Hnd : NoDup (map s_created_at (getSnapshots (db w))))
  (Hwf : Forall (fun t => s_created_at t <> ""%string) (getSnapshots (db w)))
  (Hstore : listError (db w) = None /\ lookupError (db w) = None) :
  let snaps := getSnapshots (db w) in
  let startData := match k with
                   | O => Ok (JVArray [])
                   | S j => fst (data_of (nth_error snaps j) w)
                   end in
  fst (resolvePeriodData p w) =
    if Nat.ltb k (List.length snaps)
    then result_pair startData (fst (data_of (nth_error snaps k) w))
    else result_pair startData
           (match getCurrentCosts w with
            | inl live => Ok (JVArray live)
            | inr msg => Throw (UpstreamError msg)
            end).
Proof.
  intros snaps startData. destruct Hstore as [HL HK].
  subst startData. rewrite resolvePeriodData_eq, !data_of_eq. cbn [fst].
  assert (Hs : snaps = getSnapshots (db w)) by reflexivity.
  assert (HlistE : list_result w = Ok snaps) by (unfold list_result; rewrite HL; reflexivity).
  rewrite <- Hs in Hp, Hid, Hnd, Hwf. clearbody snaps.
  assert (Hk : (k <= List.length snaps)%nat).
  { destruct (Nat.le_gt_cases k (List.length snaps)) as [H|H]; [exact H|].
    rewrite periodsOf_find_out in Hp by lia. discriminate. }
  rewrite periodsOf_find_exact in Hp by exact Hk. injection Hp as <-.
  assert (Hstart : forall j t, k = S j -> nth_error snaps j = Some t ->
            lookup_result w (p_startSnapshotId (period_at snaps k)) = Ok (Some t)).
  { intros j t -> Ej. cbn [period_at p_startSnapshotId]. rewrite Ej. cbn [option_map].
    unfold lookup_result. rewrite HK, Hid by (apply nth_error_In with j; exact Ej).
    reflexivity. }
  unfold resolved.
  destruct (Nat.ltb k (List.length snaps)) eqn:Lt.
  - apply Nat.ltb_lt in Lt.
    destruct (nth_error snaps k) as [tk|] eqn:Ek; [|apply nth_error_None in Ek; lia].
    destruct (period_at_hist_fields snaps k tk Ek) as [Hend Hcur].
    pose proof (truthy_created_at snaps tk Hwf (nth_error_In _ _ Ek)) as Ht.
    rewrite Hend, Hcur, Ht, HlistE. cbn [rthen].
    rewrite (find_created_at_nth snaps k tk Hnd Ek).
    destruct k as [|j].
    + reflexivity.
    + assert (Hz : Z.eqb (p_index (period_at snaps (S j))) 0 = false)
        by (cbn [period_at p_index]; apply Z.eqb_neq; lia).
      rewrite Hz.
      destruct (nth_error snaps j) as [tj|] eqn:Ej; [|apply nth_error_None in Ej; lia].
      rewrite (Hstart j tj eq_refl Ej), data_of_eq. cbn [rthen fst].
      destruct (read_data (Some tj)); reflexivity.
  - apply Nat.ltb_ge in Lt. assert (k = List.length snaps) by lia. subst k.
    assert (Hcur : p_isCurrent (period_at snaps (List.length snaps)) = true)
      by apply Nat.eqb_refl.
    assert (Hend : p_endAt (period_at snaps (List.length snaps)) = None)
      by (unfold period_at, end_boundary; cbn [p_endAt]; rewrite Nat.eqb_refl; reflexivity).
    rewrite Hcur, Hend. cbn [truthy]. unfold live_result.
    destruct (List.length snaps) as [|j] eqn:Ln.
    + reflexivity.
    + assert (Hz : Z.eqb (p_index (period_at snaps (S j))) 0 = false)
        by (cbn [period_at p_index]; apply Z.eqb_neq; lia).
      rewrite Hz.
      destruct (nth_error snaps j) as [tj|] eqn:Ej; [|apply nth_error_None in Ej; lia].
      rewrite (Hstart j tj eq_refl Ej), data_of_eq. reflexivity.
Qed.

Lemma resolvePeriodData_snapshot_data_witness :
  exists p, find_period (periodsOf (getSnapshots (db w_hist_a))) 1 = Some p /\
    fst (resolvePeriodData p w_hist_a) =
      Ok (JVArray [cost_record "u1" 50], JVArray [cost_record "u1" 70; bob]).
Proof.
  eexists. split; [reflexivity|].
  rewrite (resolvePeriodData_snapshot_data w_hist_a 1 _ eq_refl).
  - reflexivity.
  - intros t [<-|[<-|[]]]; reflexivity.
  - repeat constructor; simpl; intuition discriminate.
  - repeat constructor; simpl; discriminate.
  - split; reflexivity.
Defined.

(* ------------------------------------------------------------------ *)
(** ** Further properties: the usage source client and the HTTP routes *)

Module ApiClientProps.
Import ApiClient.
Local Open Scope nat_scope.

Lemma login_attempt_cases u st :
  (exists e, login_attempt u st = (CThrow e, log_event EvLogin st)) \/
  (exists st', login_attempt u st = (COk tt, st') /\ truthy (token st') = true /\
               log st' = log st ++ [EvLogin]).
Proof.
  unfold login_attempt, cbind, fetch_login.
  destruct (up_login u (log st)) as [e|ok status text [e|data]];
    [left; eexists; reflexivity| |].
  - destruct ok; left; eexists; reflexivity.
  - destruct ok; [|left; eexists; reflexivity]. cbn -[log_event].
    destruct (lr_success data) eqn:Hs; [|left; eexists; reflexivity].
    destruct (truthy (lr_token data)) eqn:Ht; [|left; eexists; reflexivity].
    right. eexists. split; [reflexivity|]. split; [exact Ht|reflexivity].
Qed.

Lemma login_cases u st :
  (fst (login u st) = COk tt /\ truthy (token (snd (login u st))) = true /\
   (log (snd (login u st)) = log st ++ [EvLogin] \/
    log (snd (login u st)) = log st ++ [EvLogin; EvSleep 1000; EvLogin] \/
    log (snd (login u st)) = log st ++ [EvLogin; EvSleep 1000; EvLogin; EvSleep 2000; EvLogin])) \/
  (exists e, login u st =
     (CThrow (Error ("Login failed after 3 retries: " ++ error_to_string e)),
      mkState (token st) (expiresAt st)
              (log st ++ [EvLogin; EvSleep 1000; EvLogin; EvSleep 2000; EvLogin]))).
Proof.
  destruct (login u st) as [r st'] eqn:L. cbn [fst snd].
  unfold login, maxRetries in L. cbn -[login_attempt Error error_to_string] in L.
  unfold ctry at 1 in L.
  destruct (login_attempt_cases u st) as [(e1 & E1)|(s1 & E1 & T1 & L1)]; rewrite E1 in L;
    [|injection L as <- <-; left; auto].
  unfold cbind at 1, sleep at 1, ctry at 1 in L.
  destruct (login_attempt_cases u (log_event (EvSleep 1000) (log_event EvLogin st)))
    as [(e2 & E2)|(s2 & E2 & T2 & L2)]; rewrite E2 in L;
    [|injection L as <- <-; left; split; [reflexivity|]; split; [exact T2|];
      right; left; rewrite L2; simpl; rewrite <- !app_assoc; reflexivity].
  unfold cbind at 1, sleep at 1, ctry at 1 in L.
  match type of L with context [login_attempt u ?s] =>
    destruct (login_attempt_cases u s) as [(e3 & E3)|(s3 & E3 & T3 & L3)]; rewrite E3 in L end.
  - right. exists e3. unfold cthrow in L. injection L as <- <-.
    unfold log_event; cbn [log token expiresAt]. rewrite <- !app_assoc. reflexivity.
  - injection L as <- <-. left. split; [reflexivity|]. split; [exact T3|].
    right; right. rewrite L3. simpl. rewrite <- !app_assoc. reflexivity.
Qed.

Lemma login_trace u st :
  fst (login u st) <> COutOfFuel /\
  exists evs, forallb auth_event evs = true /\ log (snd (login u st)) = log st ++ evs.
Proof.
  destruct (login_cases u st) as [(H1 & _ & H3)|(e & H)].
  - split; [rewrite H1; discriminate|].
    destruct H3 as [H|[H|H]];
      match type of H with _ = log st ++ ?l => exists l; split; [reflexivity|exact H] end.
  - rewrite H. split; [discriminate|]. eexists; split; [|reflexivity]; reflexivity.
Qed.

Lemma ensureValidToken_cases u st :
  (truthy (token st) = true /\
   js_lt (JNum (inject_Z (up_now u (log st) + skewMs))) (expiresAt st) = true /\
   ensureValidToken u st = (COk tt, st)) \/
  ensureValidToken u st = login u st.
Proof.
  cbv beta iota delta [ensureValidToken cbind get_state date_now cret].
  destruct (truthy (token st)) eqn:T; [|right; reflexivity].
  destruct (js_lt _ _) eqn:J; [left; auto|right; reflexivity].
Qed.

Lemma ensureValidToken_trace u st :
  fst (ensureValidToken u st) <> COutOfFuel /\
  (forall st', ensureValidToken u st = (COk tt, st') -> truthy (token st') = true) /\
  exists evs, forallb auth_event evs = true /\
              log (snd (ensureValidToken u st)) = log st ++ evs.
Proof.
  destruct (ensureValidToken_cases u st) as [(T & _ & H)|H]; rewrite H.
  - split; [discriminate|]. split; [intros st' E; injection E as <-; exact T|].
    exists []. rewrite app_nil_r. auto.
  - destruct (login_trace u st) as [NF Tr]. split; [exact NF|]. split; [|exact Tr].
    intros st' E. destruct (login_cases u st) as [(_ & T & _)|(e & E')].
    + rewrite E in T. exact T.
    + rewrite E in E'. discriminate.
Qed.

Lemma fetchApiKeysPage_trace page ps u st :
  fst (fetchApiKeysPage page ps u st) <> COutOfFuel /\
  exists evs, forallb auth_event evs = true /\
   (log (snd (fetchApiKeysPage page ps u st)) = log st ++ evs \/
    log (snd (fetchApiKeysPage page ps u st)) = log st ++ evs ++ [EvKeysPage page ps]) /\
   (forall items pg, fst (fetchApiKeysPage page ps u st) = COk (items, pg) ->
      log (snd (fetchApiKeysPage page ps u st)) = log st ++ evs ++ [EvKeysPage page ps] /\
      listed (up_keys u (log st ++ evs) page ps) items pg).
Proof.
  destruct (ensureValidToken_trace u st) as (NF & _ & evs & A & Le).
  destruct (fetchApiKeysPage page ps u st) as [r st'] eqn:F; cbn [fst snd].
  unfold fetchApiKeysPage, cbind at 1 in F.
  destruct (ensureValidToken u st) as [[[]|e|] st1] eqn:E; cbn [fst snd] in NF, Le;
    [|injection F as <- <-; split; [discriminate|]; exists evs; split; [exact A|];
      split; [left; exact Le|intros ? ? H; discriminate]|congruence].
  unfold cbind, fetch_keys in F. rewrite Le in F.
  split; [|exists evs; split; [exact A|]];
  destruct (up_keys u (log st ++ evs) page ps)
    as [e|ok s t [e|[succ [[[items'|] [pg'|]]|]]]] eqn:U;
  try destruct ok; try destruct succ; cbn in F; injection F as <- <-; try discriminate;
  try (split; [right; unfold log_event; cbn; rewrite Le, <- app_assoc; reflexivity
              |intros ? ? H; discriminate]).
  split; [right; unfold log_event; cbn; rewrite Le, <- app_assoc; reflexivity|].
  intros items pg H. injection H as <- <-.
  split; [unfold log_event; cbn; rewrite Le, <- app_assoc; reflexivity|]. exists s, t. reflexivity.
Qed.

Lemma fetchUsageBatch_trace keyIds u st :
  fst (fetchUsageBatch keyIds u st) <> COutOfFuel /\
  exists evs, forallb auth_event evs = true /\
   (log (snd (fetchUsageBatch keyIds u st)) = log st ++ evs \/
    log (snd (fetchUsageBatch keyIds u st)) = log st ++ evs ++ [EvBatchStats keyIds]) /\
   (forall m, fst (fetchUsageBatch keyIds u st) = COk m ->
      log (snd (fetchUsageBatch keyIds u st)) = log st ++ evs ++ [EvBatchStats keyIds]).
Proof.
  destruct (ensureValidToken_trace u st) as (NF & _ & evs & A & Le).
  destruct (fetchUsageBatch keyIds u st) as [r st'] eqn:F; cbn [fst snd].
  unfold fetchUsageBatch, cbind at 1 in F.
  destruct (ensureValidToken u st) as [[[]|e|] st1] eqn:E; cbn [fst snd] in NF, Le;
    [|injection F as <- <-; split; [discriminate|]; exists evs; split; [exact A|];
      split; [left; exact Le|intros ? H; discriminate]|congruence].
  unfold cbind, fetch_batch in F. rewrite Le in F.
  split; [|exists evs; split; [exact A|]];
  destruct (up_batch u (log st ++ evs) keyIds)
    as [e|ok s t [e|[succ [entries|]]]] eqn:U;
  try destruct ok; try destruct succ; cbn in F; injection F as <- <-; try discriminate;
  (split; [right; unfold log_event; cbn; rewrite Le, <- app_assoc; reflexivity
          |intros ? H; try discriminate; unfold log_event; cbn; rewrite Le, <- app_assoc; reflexivity]).
Qed.

Lemma auth_no_requests evs :
  forallb auth_event evs = true -> batch_requests evs = [] /\ page_requests evs = [].
Proof.
  induction evs as [|ev evs IH]; [auto|]. cbn [forallb].
  intros H. apply andb_true_iff in H. destruct H as [H1 H2].
  destruct ev; try discriminate; exact (IH H2).
Qed.

Lemma batch_requests_app l1 l2 :
  batch_requests (l1 ++ l2) = batch_requests l1 ++ batch_requests l2.
Proof. apply flat_map_app. Qed.

Lemma page_requests_app l1 l2 :
  page_requests (l1 ++ l2) = page_requests l1 ++ page_requests l2.
Proof. apply flat_map_app. Qed.

Lemma ceil10 len : 10 * ((len + 9) / 10) <= len + 9 < 10 * ((len + 9) / 10) + 10.
Proof. pose proof (Nat.div_mod (len + 9) 10). pose proof (Nat.mod_upper_bound (len + 9) 10). lia. Qed.

Lemma usage_loop_trace n keyIds k m u st :
  (List.length keyIds + 9) / 10 - k < n ->
  fst (usage_loop n keyIds (10 * k) m u st) <> COutOfFuel /\
  page_requests (log (snd (usage_loop n keyIds (10 * k) m u st))) = page_requests (log st) /\
  (forall m', fst (usage_loop n keyIds (10 * k) m u st) = COk m' ->
    batch_requests (log (snd (usage_loop n keyIds (10 * k) m u st))) =
    batch_requests (log st) ++
      map (fun j => firstn 10 (skipn (10 * j) keyIds))
          (seq k ((List.length keyIds + 9) / 10 - k))).
Proof.
  revert k m st. induction n as [|n IH]; intros k m st Hn; [lia|].
  pose proof (ceil10 (List.length keyIds)) as Hc.
  destruct (usage_loop (S n) keyIds (10 * k) m u st) as [r st'] eqn:F; cbn [fst snd].
  cbn [usage_loop] in F. unfold batchSize in F.
  destruct (Nat.ltb (10 * k) (List.length keyIds)) eqn:L.
  - apply Nat.ltb_lt in L.
    replace (Nat.eqb (List.length (firstn 10 (skipn (10 * k) keyIds))) 0) with false in F
      by (symmetry; apply Nat.eqb_neq; rewrite length_firstn, length_skipn; lia).
    unfold cbind in F.
    destruct (fetchUsageBatch_trace (firstn 10 (skipn (10 * k) keyIds)) u st)
      as (NFb & evs & A & Lg & Okb).
    destruct (auth_no_requests evs A) as [Ab Ap].
    destruct (fetchUsageBatch (firstn 10 (skipn (10 * k) keyIds)) u st) as [[bd|e|] st1] eqn:B;
      cbn [fst snd] in NFb, Lg, Okb; [|injection F as <- <-|congruence].
    + replace (10 * k + 10) with (10 * S k) in F by lia.
      destruct (IH (S k) (fold_left (fun m0 e => stats_set m0 (fst e) (snd e)) bd m) st1)
        as (NF' & P' & B'); [lia|].
      rewrite F in NF', P', B'. cbn [fst snd] in NF', P', B'.
      specialize (Okb bd eq_refl).
      split; [exact NF'|]. split.
      * rewrite P', Okb, !page_requests_app, Ap. simpl. rewrite !app_nil_r. reflexivity.
      * intros m' Hm. rewrite (B' m' Hm), Okb, !batch_requests_app, Ab.
        replace ((List.length keyIds + 9) / 10 - k) with (S ((List.length keyIds + 9) / 10 - S k)) by lia.
        cbn [seq map]. rewrite <- !app_assoc. reflexivity.
    + split; [discriminate|]. split; [|intros ? H; discriminate].
      destruct Lg as [Lg|Lg]; rewrite Lg, !page_requests_app, Ap; simpl; rewrite !app_nil_r; reflexivity.
  - apply Nat.ltb_ge in L. unfold cret in F. injection F as <- <-.
    split; [discriminate|]. split; [reflexivity|].
    intros m' _. replace ((List.length keyIds + 9) / 10 - k) with 0 by lia.
    cbn [seq map]. rewrite app_nil_r. reflexivity.
Qed.

(** X10: [getUsageStats] never exceeds its bound of rounds, and on success
    it has sent one
    [batch-stats] request per slice of 10 consecutive ids, in order
    ([ceil(n / 10)] requests for [n] ids, none for no id). *)
Theorem getUsageStats_batches keyIds u st :
  fst (getUsageStats keyIds u st) <> COutOfFuel /\
  (forall m, fst (getUsageStats keyIds u st) = COk m ->
   batch_requests (log (snd (getUsageStats keyIds u st))) =
   batch_requests (log st) ++
     map (fun j => firstn 10 (skipn (10 * j) keyIds))
         (seq 0 ((List.length keyIds + 9) / 10))).
Proof.
  pose proof (ceil10 (List.length keyIds)) as Hc.
  destruct (usage_loop_trace (S (List.length keyIds)) keyIds 0 [] u st) as (NF & _ & B); [lia|].
  change (10 * 0) with 0 in NF, B. unfold getUsageStats.
  split; [exact NF|]. intros m Hm. rewrite (B m Hm), Nat.sub_0_r. reflexivity.
Qed.

Lemma collect_pages_items fuel page tp acc u st all st' :
  collect_pages fuel page tp acc u st = (COk all, st') ->
  forall it, In it all -> In it acc \/
    exists l p ps items pg, listed (up_keys u l p ps) items pg /\ In it items.
Proof.
  revert page tp acc st. induction fuel as [|fuel IH]; intros page tp acc st F it Hit;
    [discriminate|].
  cbn [collect_pages] in F.
  destruct (page_le page tp); [|injection F as <- <-; left; exact Hit].
  unfold cbind in F.
  destruct (fetchApiKeysPage_trace page pageSize u st) as (_ & evs & _ & _ & Ok).
  destruct (fetchApiKeysPage page pageSize u st) as [[[items pg]|e|] st1];
    cbn [fst snd] in Ok; try discriminate.
  destruct (Ok items pg eq_refl) as [_ Hl].
  destruct (IH _ _ _ _ F it Hit) as [H|H]; [|right; exact H].
  apply in_app_or in H. destruct H as [H|H]; [left; exact H|].
  right. exists (log st ++ evs), page, pageSize, items, pg. auto.
Qed.

Lemma Qle_bool_inject_Z a b : Qle_bool (inject_Z a) (inject_Z b) = Z.leb a b.
Proof.
  destruct (Qle_bool _ _) eqn:H; symmetry.
  - apply Qle_bool_iff in H. rewrite <- Zle_Qle in H. apply Z.leb_le, H.
  - apply Z.leb_gt. apply Z.nle_gt. intros H'. rewrite Zle_Qle, <- Qle_bool_iff in H'. congruence.
Qed.

Lemma next_totalPages_const T pg page :
  pg_totalPages pg = Some (JNum (inject_Z T)) -> (1 <= page)%Z ->
  page_le (page + 1) (next_totalPages pg page) = (page + 1 <=? Z.max 1 T)%Z.
Proof.
  intros Hpg Hp. unfold next_totalPages. rewrite Hpg. cbn [js_truthy].
  destruct (Qeq_bool (inject_Z T) 0) eqn:E; cbn [negb page_le]; rewrite Qle_bool_inject_Z.
  - assert (T = 0)%Z by (unfold Qeq_bool in E; cbn in E; apply Z.eqb_eq in E; lia).
    subst T. destruct (Z.leb_spec (page + 1) page); destruct (Z.leb_spec (page + 1) (Z.max 1 0)); lia.
  - destruct (Z.leb_spec (page + 1) T); destruct (Z.leb_spec (page + 1) (Z.max 1 T)); try reflexivity; lia.
Qed.

Lemma collect_pages_pages T fuel page tp acc u st :
  (forall l p ps items pg, listed (up_keys u l p ps) items pg ->
     pg_totalPages pg = Some (JNum (inject_Z T))) ->
  (1 <= page)%Z -> page_le page tp = (page <=? Z.max 1 T)%Z ->
  (Z.to_nat (Z.max 1 T - page + 1) < fuel ->
     fst (collect_pages fuel page tp acc u st) <> COutOfFuel) /\
  (forall all, fst (collect_pages fuel page tp acc u st) = COk all ->
     page_requests (log (snd (collect_pages fuel page tp acc u st))) =
     page_requests (log st) ++
       map (fun k => (Z.of_nat k, pageSize))
           (seq (Z.to_nat page) (Z.to_nat (Z.max 1 T - page + 1)))).
Proof.
  intros HT. revert page tp acc st.
  induction fuel as [|fuel IH]; intros page tp acc st Hp Hle;
    [split; [lia|intros all H; discriminate]|].
  destruct (collect_pages (S fuel) page tp acc u st) as [r st'] eqn:F; cbn [fst snd].
  cbn [collect_pages] in F. rewrite Hle in F.
  destruct (Z.leb_spec page (Z.max 1 T)) as [Hpm|Hpm].
  - unfold cbind in F.
    destruct (fetchApiKeysPage_trace page pageSize u st) as (NF & evs & A & _ & Ok).
    destruct (auth_no_requests evs A) as [_ Ap].
    destruct (fetchApiKeysPage page pageSize u st) as [[[items pg]|e|] st1];
      cbn [fst snd] in NF, Ok; [|injection F as <- <-; split; [discriminate|intros ? H; discriminate]|congruence].
    destruct (Ok items pg eq_refl) as [Hl Hlist].
    cbn [fst snd] in F.
    destruct (IH (page + 1)%Z (next_totalPages pg page) (acc ++ items) st1) as [IH1 IH2];
      [lia|apply next_totalPages_const; [exact (HT _ _ _ _ _ Hlist)|exact Hp]|].
    rewrite F in IH1, IH2. cbn [fst snd] in IH1, IH2. split.
    + intros Hf. apply IH1. lia.
    + intros all Ha. rewrite (IH2 all Ha), Hl, !page_requests_app, Ap.
      replace (Z.to_nat (Z.max 1 T - page + 1)) with (S (Z.to_nat (Z.max 1 T - (page + 1) + 1))) by lia.
      replace (Z.to_nat (page + 1)) with (S (Z.to_nat page)) by lia.
      cbn [seq map]. rewrite Z2Nat.id by lia. simpl. rewrite <- !app_assoc. reflexivity.
  - unfold cret in F. injection F as <- <-. split; [discriminate|].
    intros all _. replace (Z.to_nat (Z.max 1 T - page + 1)) with 0 by lia.
    cbn [seq map]. rewrite app_nil_r. reflexivity.
Qed.

Lemma truthy_some_neq s : truthy (Some s) = true -> s <> ""%string.
Proof. cbn. intros H E. subst s. discriminate. Qed.

Lemma find_key_pages_sound fuel key page tp u st id st' :
  find_key_pages fuel key page tp u st = (COk id, st') ->
  id <> ""%string /\
  exists l p ps items pg item, listed (up_keys u l p ps) items pg /\ In item items /\
    it_apiKey item = Some key /\ it_id item = id.
Proof.
  revert page tp st. induction fuel as [|fuel IH]; intros page tp st F; [discriminate|].
  cbn [find_key_pages] in F.
  destruct (page_le page tp); [|discriminate].
  unfold cbind in F.
  destruct (fetchApiKeysPage_trace page pageSize u st) as (_ & evs & _ & _ & Ok).
  destruct (fetchApiKeysPage page pageSize u st) as [[[items pg]|e|] st1];
    cbn [fst snd] in Ok, F; try discriminate.
  destruct (Ok items pg eq_refl) as [_ Hl].
  destruct (find (has_apiKey key) items) as [m|] eqn:Fm; [|exact (IH _ _ _ F)].
  destruct (truthy (Some (it_id m))) eqn:Tm; [|exact (IH _ _ _ F)].
  injection F as <- <-. split; [exact (truthy_some_neq _ Tm)|].
  apply find_some in Fm. destruct Fm as [Hin Hk].
  exists (log st ++ evs), page, pageSize, items, pg, m. split; [exact Hl|]. split; [exact Hin|].
  split; [|reflexivity]. unfold has_apiKey in Hk.
  destruct (it_apiKey m) as [k|]; [apply String.eqb_eq in Hk; congruence|discriminate].
Qed.

Lemma getKeyIdFromLegacy_sound key u st id st' :
  getKeyIdFromLegacy key u st = (COk id, st') ->
  id <> ""%string /\ exists l, legacy_ok (up_keyId u l key) id.
Proof.
  unfold getKeyIdFromLegacy, cbind, fetch_keyId.
  destruct (up_keyId u (log st) key) as [e|ok s t [e|[succ [id'|]]]] eqn:U;
    try destruct ok; try destruct succ; cbn; try discriminate.
  destruct (String.eqb id' "") eqn:E; cbn; [discriminate|].
  intros H. injection H as <- _. split.
  - apply String.eqb_neq, E.
  - exists (log st), s, t. exact U.
Qed.

Lemma getKeyId_sound_aux fuel key u st id st' :
  getKeyId fuel key u st = (COk id, st') -> id <> ""%string /\ key_owner u key id.
Proof.
  unfold getKeyId, ctry.
  destruct (getKeyIdFromLegacy key u st) as [[id'|e|] st1] eqn:L.
  - intros H. injection H as <- <-.
    destruct (getKeyIdFromLegacy_sound _ _ _ _ _ L) as [Hn Hl]. split; [exact Hn|left; exact Hl].
  - unfold getKeyIdFromList. intros H.
    destruct (find_key_pages_sound _ _ _ _ _ _ _ _ H) as [Hn Hl]. split; [exact Hn|right; exact Hl].
  - discriminate.
Qed.

Lemma getUsageStats_trace keyIds u st :
  fst (getUsageStats keyIds u st) <> COutOfFuel /\
  page_requests (log (snd (getUsageStats keyIds u st))) = page_requests (log st).
Proof.
  pose proof (ceil10 (List.length keyIds)) as Hc.
  destruct (usage_loop_trace (S (List.length keyIds)) keyIds 0 [] u st) as (NF & P & _); [lia|].
  change (10 * 0) with 0 in NF, P. split; [exact NF|exact P].
Qed.

(** X8: [login] makes at most three attempts, waiting 1000 ms after the
    first failure and 2000 ms after the second, and stops at the first
    success, which leaves a non-empty token; after three failures it throws
    [Login failed after 3 retries: ] followed by the text of an error, and
    leaves the token and its expiry as they were. *)
Theorem login_retries u st :
  (fst (login u st) = COk tt /\ truthy (token (snd (login u st))) = true /\
   (log (snd (login u st)) = log st ++ [EvLogin] \/
    log (snd (login u st)) = log st ++ [EvLogin; EvSleep 1000; EvLogin] \/
    log (snd (login u st)) = log st ++ [EvLogin; EvSleep 1000; EvLogin; EvSleep 2000; EvLogin])) \/
  (exists e, login u st =
     (CThrow (Error ("Login failed after 3 retries: " ++ error_to_string e)),
      mkState (token st) (expiresAt st)
              (log st ++ [EvLogin; EvSleep 1000; EvLogin; EvSleep 2000; EvLogin]))).
Proof. exact (login_cases u st). Qed.

(** X9: [ensureValidToken] sends nothing while the token is non-empty and
    expires more than [skewMs] = 10 s from now; whenever it returns normally
    the client holds a non-empty token. *)
Theorem ensureValidToken_token u st :
  (truthy (token st) = true ->
   js_lt (JNum (inject_Z (up_now u (log st) + skewMs))) (expiresAt st) = true ->
   ensureValidToken u st = (COk tt, st)) /\
  (forall st', ensureValidToken u st = (COk tt, st') -> truthy (token st') = true).
Proof.
  split.
  - intros T J. cbv beta iota delta [ensureValidToken cbind get_state date_now cret].
    rewrite T, J. reflexivity.
  - destruct (ensureValidToken_trace u st) as (_ & H & _). exact H.
Qed.

(** X7: an id returned by [getKeyId] is non-empty, and the service
    associates it to the key: the legacy [get-key-id] endpoint answered it
    for that key, or a page of [admin/api-keys] lists an item with that
    [apiKey] and that id. *)
Theorem getKeyId_sound fuel key u st id st' :
  getKeyId fuel key u st = (COk id, st') -> id <> ""%string /\ key_owner u key id.
Proof. apply getKeyId_sound_aux. Qed.

Lemma getKeyId_sound_witness :
  "k3"%string <> ""%string /\ key_owner svc "sk-3" "k3".
Proof.
  apply (getKeyId_sound 10 "sk-3" svc client0 "k3" (snd (getKeyId 10 "sk-3" svc client0))).
  vm_compute. reflexivity.
Defined.

(** X6: [validateApiKey] answers a missing or empty [x-api-key] header with
    [API key required] without any request; it accepts a key only with a
    non-empty user id that the service associates to that key, and every
    rejection carries [API key required] or [Invalid API key]. *)
Theorem validateApiKey_result fuel apiKey u st :
  (truthy apiKey = false ->
   validateApiKey fuel apiKey u st =
     (COk (mkValidation false None (Some "API key required"%string)), st)) /\
  (forall v st', validateApiKey fuel apiKey u st = (COk v, st') ->
     (v_valid v = true /\ v_error v = None /\
      exists key id, apiKey = Some key /\ v_userId v = Some id /\ id <> ""%string /\
                     key_owner u key id) \/
     (v_valid v = false /\ v_userId v = None /\
      (v_error v = Some "API key required"%string \/ v_error v = Some "Invalid API key"%string))).
Proof.
  split.
  - intros H. destruct apiKey as [key|]; [|reflexivity]. unfold validateApiKey. rewrite H. reflexivity.
  - intros v st' V. unfold validateApiKey in V. destruct apiKey as [key|];
      [|injection V as <- <-; right; auto].
    destruct (truthy (Some key)) eqn:T; [|injection V as <- <-; right; auto].
    unfold ctry, cbind at 1 in V.
    destruct (getKeyId fuel key u st) as [[id|e|] st1] eqn:G.
    + injection V as <- <-. left. split; [reflexivity|]. split; [reflexivity|].
      destruct (getKeyId_sound_aux _ _ _ _ _ _ G) as [Hn Ho]. exists key, id. auto.
    + injection V as <- <-. right. auto.
    + discriminate.
Qed.

(** X11: every entry returned by [getCurrentCosts] is an item listed by a
    page of [admin/api-keys], not tagged [noshare], returned without its
    [apiKey]. *)
Theorem getCurrentCosts_items fuel u st out st' :
  getCurrentCosts fuel u st = (COk out, st') ->
  forall o, In o out ->
    exists l page ps items pg item,
      listed (up_keys u l page ps) items pg /\ In item items /\ shareable item = true /\
      wu_item o = sanitizeApiKeyItem item /\ it_apiKey (wu_item o) = None.
Proof.
  intros F o Ho. unfold getCurrentCosts, cbind at 1 in F.
  destruct (collect_pages fuel 1 (JNum 1) [] u st) as [[all|e|] st1] eqn:C; try discriminate.
  unfold cbind in F.
  destruct (getUsageStats (map it_id (filter shareable all)) u st1) as [[m|e|] st2];
    try discriminate.
  unfold cret in F. injection F as <- <-.
  apply in_map_iff in Ho. destruct Ho as (item & <- & Hi). apply filter_In in Hi.
  destruct Hi as [Hi Hs].
  destruct (collect_pages_items _ _ _ _ _ _ _ _ C item Hi)
    as [[]|(l & p & ps & items & pg & Hl & Hin)].
  exists l, p, ps, items, pg, item. repeat split; auto.
Qed.

Lemma getCurrentCosts_items_witness :
  exists l page ps items pg item,
    listed (up_keys svc l page ps) items pg /\ In item items /\ shareable item = true /\
    wu_item (mkApiKeyWithUsage (mkApiKeyListItem "k1" "Alice" None None)
               (mkApiKeyUsageTotals (JNum 2) (JNum 0) (JNum 0) (JNum 0) (JNum 0) (JNum 0)
                                    (JNum 0) (FmtDollarToFixed2 (JNum 2))))
      = sanitizeApiKeyItem item /\
    it_apiKey (wu_item (mkApiKeyWithUsage (mkApiKeyListItem "k1" "Alice" None None)
               (mkApiKeyUsageTotals (JNum 2) (JNum 0) (JNum 0) (JNum 0) (JNum 0) (JNum 0)
                                    (JNum 0) (FmtDollarToFixed2 (JNum 2))))) = None.
Proof.
  apply (getCurrentCosts_items 10 svc client0
           (match fst (getCurrentCosts 10 svc client0) with COk out => out | _ => [] end)
           (snd (getCurrentCosts 10 svc client0))).
  - vm_compute. reflexivity.
  - vm_compute. left. reflexivity.
Defined.

(** X12: when every page of [admin/api-keys] reports the same [totalPages]
    [T], a successful [getCurrentCosts] requests the pages [1 .. max(1, T)],
    each once, in order, 50 items per page; given more than [max(1, T)]
    rounds of fuel, it never runs out of fuel. *)
Theorem getCurrentCosts_pages T fuel u st :
  (forall l p ps items pg, listed (up_keys u l p ps) items pg ->
     pg_totalPages pg = Some (JNum (inject_Z T))) ->
  (Z.to_nat (Z.max 1 T) < fuel -> fst (getCurrentCosts fuel u st) <> COutOfFuel) /\
  (forall out, fst (getCurrentCosts fuel u st) = COk out ->
     page_requests (log (snd (getCurrentCosts fuel u st))) =
     page_requests (log st) ++
       map (fun k => (Z.of_nat k, pageSize)) (seq 1 (Z.to_nat (Z.max 1 T)))).
Proof.
  intros HT.
  destruct (collect_pages_pages T fuel 1 (JNum 1) [] u st HT) as [C1 C2];
    [lia|cbn; symmetry; apply Z.leb_le; lia|].
  replace (Z.max 1 T - 1 + 1)%Z with (Z.max 1 T) in C1, C2 by lia.
  destruct (getCurrentCosts fuel u st) as [r st'] eqn:F; cbn [fst snd].
  unfold getCurrentCosts, cbind at 1 in F.
  destruct (collect_pages fuel 1 (JNum 1) [] u st) as [[all|e|] st1];
    cbn [fst snd] in C1, C2; [|injection F as <- <-; split; [discriminate|intros ? H; discriminate]
                              |injection F as <- <-; split; [intros H; exfalso; exact (C1 H eq_refl)|intros ? H; discriminate]].
  unfold cbind in F.
  destruct (getUsageStats_trace (map it_id (filter shareable all)) u st1) as [NF P].
  destruct (getUsageStats (map it_id (filter shareable all)) u st1) as [[m|e|] st2];
    cbn [fst snd] in NF, P; [|injection F as <- <-; split; [discriminate|intros ? H; discriminate]|congruence].
  unfold cret in F. injection F as <- <-. split; [discriminate|].
  intros out _. rewrite P. exact (C2 all eq_refl).
Qed.

Lemma getCurrentCosts_pages_witness :
  (Z.to_nat (Z.max 1 2) < 10 -> fst (getCurrentCosts 10 svc client0) <> COutOfFuel) /\
  (forall out, fst (getCurrentCosts 10 svc client0) = COk out ->
     page_requests (log (snd (getCurrentCosts 10 svc client0))) =
     page_requests (log client0) ++
       map (fun k => (Z.of_nat k, pageSize)) (seq 1 (Z.to_nat (Z.max 1 2)))).
Proof.
  apply getCurrentCosts_pages.
  intros l p ps items pg (s & t & H). unfold svc, keys_page in H. cbn in H.
  destruct (Z.eqb p 1); injection H; intros; subst; reflexivity.
Defined.

End ApiClientProps.

Lemma includes_app_r s1 s2 t : includes s2 t = true -> includes (s1 ++ s2) t = true.
Proof.
  induction s1 as [|c s1 IH]; intros H; [exact H|].
  simpl. rewrite (IH H). apply orb_true_r.
Qed.

Lemma err_message_not_found e :
  is_not_found e = true -> includes (err_message e) "not found" = true.
Proof.
  destruct e as [i| |msg|msg|msg|msg]; intros H; try discriminate; [|reflexivity].
  cbn [err_message]. apply includes_app_r, includes_app_r. reflexivity.
Qed.

(** For a non-empty caller id, [getUserDetail] fails with a "not found"
    error when the store answers and no period has the index, or when the
    caller has no entry in the period's ranking. *)
Lemma getUserDetail_not_found_cases i me w :
  me <> ""%string ->
  (listError (db w) = None /\ find_period (periodsOf (getSnapshots (db w))) i = None) \/
  (exists s, fst (getPeriodSummary i (Some me) w) = Ok s /\
     ~ In me (map ranked_user_id (ps_ranking s))) ->
  exists e, fst (getUserDetail i me w) = Throw e /\ is_not_found e = true.
Proof.
  intros Hme H. rewrite getUserDetail_unfold. destruct H as [[HL HF]|(s & Hs & Hn)].
  - assert (G : summary_result i (Some me) w = Throw (PeriodNotFound i))
      by (unfold summary_result, list_result; rewrite HL; cbn [rthen]; rewrite HF; reflexivity).
    rewrite G. eexists. split; reflexivity.
  - pose proof (proj2 (summary_find_self_none i me w s Hme Hs) Hn) as Hf.
    rewrite getPeriodSummary_eq in Hs. cbn [fst] in Hs. rewrite Hs, Hf.
    eexists. split; reflexivity.
Qed.

(** X4: [GET /api/periods/:index/summary] answers 200 exactly when
    [getPeriodSummary] succeeds; 404 when the store answers and no period
    has the index, or when a failure of the store, of the usage source or
    of decoding a stored payload has a message containing [not found]; and
    500 on any such failure whose message does not contain it. *)
Theorem summary_route_status i me w :
  (status (summaryResponse (fst (getPeriodSummary i me w))) = 200%Z <->
     exists s, fst (getPeriodSummary i me w) = Ok s) /\
  (status (summaryResponse (fst (getPeriodSummary i me w))) = 404%Z <->
     (listError (db w) = None /\ find_period (periodsOf (getSnapshots (db w))) i = None) \/
     exists e, fst (getPeriodSummary i me w) = Throw e /\ is_not_found e = false /\
       error_source w e /\ includes (err_message e) "not found" = true) /\
  (status (summaryResponse (fst (getPeriodSummary i me w))) = 500%Z <->
     exists e, fst (getPeriodSummary i me w) = Throw e /\ is_not_found e = false /\
       error_source w e /\ includes (err_message e) "not found" = false).
Proof.
  pose proof (getPeriodSummary_not_found w i me) as NF.
  pose proof (getPeriodSummary_errors i me w) as Er.
  destruct (fst (getPeriodSummary i me w)) as [s|e] eqn:R; cbn [summaryResponse status].
  - split; [split; [intros _; exists s; reflexivity|reflexivity]|].
    split; split; try discriminate.
    + intros [H|(e & H & _)]; [apply NF in H; destruct H as (e & H & _)|]; discriminate.
    + intros (e & H & _). discriminate.
  - destruct (Er e eq_refl) as [(-> & HL & HF)|(Hsrc & Hn)].
    + rewrite (err_message_not_found (PeriodNotFound i) eq_refl). cbn [status].
      split; [split; [discriminate|intros (s & H); discriminate]|].
      split; split.
      * intros _. left. auto.
      * intros _. reflexivity.
      * discriminate.
      * intros (e & H & Hn & _). injection H as <-. discriminate.
    + destruct (includes (err_message e) "not found") eqn:I; cbn [status].
      * split; [split; [discriminate|intros (s & H); discriminate]|].
        split; split.
        -- intros _. right. exists e. auto.
        -- intros _. reflexivity.
        -- discriminate.
        -- intros (e' & H & _ & _ & I'). injection H as <-. congruence.
      * split; [split; [discriminate|intros (s & H); discriminate]|].
        split; split.
        -- discriminate.
        -- intros [H|(e' & H & _ & _ & I')].
           ++ apply NF in H. destruct H as (e' & H & He'). injection H as <-. congruence.
           ++ injection H as <-. congruence.
        -- intros _. exists e. auto.
        -- intros _. reflexivity.
Qed.

(** X5: for a non-empty caller id, [GET /api/periods/:index/me] answers
    200 exactly when [getUserDetail] succeeds; 404 when the store answers
    and no period has the index, when the period's summary has no entry
    for the caller (no record in its end data), or when a failure of the
    store, of the usage source or of decoding a stored payload has a
    message containing [not found]; and 500 on any such failure whose
    message does not contain it. *)
Theorem me_route_status i me w :
  me <> ""%string ->
  (status (meResponse (fst (getUserDetail i me w))) = 200%Z <->
     exists d, fst (getUserDetail i me w) = Ok d) /\
  (status (meResponse (fst (getUserDetail i me w))) = 404%Z <->
     (listError (db w) = None /\ find_period (periodsOf (getSnapshots (db w))) i = None) \/
     (exists s, fst (getPeriodSummary i (Some me) w) = Ok s /\
        ~ In me (map ranked_user_id (ps_ranking s))) \/
     exists e, fst (getUserDetail i me w) = Throw e /\ is_not_found e = false /\
       error_source w e /\ includes (err_message e) "not found" = true) /\
  (status (meResponse (fst (getUserDetail i me w))) = 500%Z <->
     exists e, fst (getUserDetail i me w) = Throw e /\ is_not_found e = false /\
       error_source w e /\ includes (err_message e) "not found" = false).
Proof.
  intros Hme.
  pose proof (getUserDetail_not_found_cases i me w Hme) as NF.
  pose proof (getUserDetail_errors i me w) as Er.
  destruct (fst (getUserDetail i me w)) as [d|e] eqn:R; cbn [meResponse status].
  - split; [split; [intros _; exists d; reflexivity|reflexivity]|].
    split; split; try discriminate.
    + intros [H|[H|(e & H & _)]];
        [destruct (NF (or_introl H)) as (e & H' & _)|destruct (NF (or_intror H)) as (e & H' & _)|];
        discriminate.
    + intros (e & H & _). discriminate.
  - destruct (Er e eq_refl) as [(-> & HL & HF)|[(-> & s & Hs & Hf)|(Hsrc & Hn)]].
    + rewrite (err_message_not_found (PeriodNotFound i) eq_refl). cbn [status].
      split; [split; [discriminate|intros (s & H); discriminate]|].
      split; split.
      * intros _. left. auto.
      * intros _. reflexivity.
      * discriminate.
      * intros (e & H & Hn & _). injection H as <-. discriminate.
    + rewrite (err_message_not_found UserNotFound eq_refl). cbn [status].
      split; [split; [discriminate|intros (s' & H); discriminate]|].
      split; split.
      * intros _. right. left. exists s. split; [exact Hs|].
        apply (summary_find_self_none i me w s Hme Hs), Hf.
      * intros _. reflexivity.
      * discriminate.
      * intros (e & H & Hn & _). injection H as <-. discriminate.
    + destruct (includes (err_message e) "not found") eqn:I; cbn [status].
      * split; [split; [discriminate|intros (s & H); discriminate]|].
        split; split.
        -- intros _. right. right. exists e. auto.
        -- intros _. reflexivity.
        -- discriminate.
        -- intros (e' & H & _ & _ & I'). injection H as <-. congruence.
      * split; [split; [discriminate|intros (s & H); discriminate]|].
        split; split.
        -- discriminate.
        -- intros [H|[H|(e' & H & _ & _ & I')]].
           ++ destruct (NF (or_introl H)) as (e' & H' & He'). injection H' as <-. congruence.
           ++ destruct (NF (or_intror H)) as (e' & H' & He'). injection H' as <-. congruence.
           ++ injection H as <-. congruence.
        -- intros _. exists e. auto.
        -- intros _. reflexivity.
Qed.

Lemma me_route_status_witness :
  "u1"%string <> ""%string /\
  (status (meResponse (fst (getUserDetail 1 "u1" w_hist_a))) = 200%Z <->
   exists d, fst (getUserDetail 1 "u1" w_hist_a) = Ok d).
Proof.
  assert (H : "u1"%string <> ""%string) by discriminate.
  split; [exact H|]. exact (proj1 (me_route_status 1 "u1" w_hist_a H)).
Defined.
